(** * Mobile-Llm-app: the embedding, similarity-search and storage engine

    A shallow embedding of [src/services/EmbedderModelManager.ts] and
    [src/services/LightVectorDB.ts] (the latter file also carries
    [SimpleVectorStore], the fallback engine), followed by the properties
    of the specification, proved or refuted on the embedding.

    Conventions of the embedding.
    - A JavaScript [number] that holds an integer (timestamps, counters,
      lengths, hash values) is a [Z]; 32-bit wrap-around is written out.
    - A JavaScript [number] that holds a fraction (vector components,
      similarities, thresholds) is an element of a type [F] carrying the
      operations of the class [JsNumber].  Two instances are given: IEEE-754
      binary64 with binary32 storage, which runs, and the real numbers,
      which is the reading under which "approximately 1" is "equal to 1".
    - A JavaScript [Map] is an association list in insertion order.
    - The engine is single-threaded and cooperative: a call runs until it
      awaits, and other calls may run while it waits.  An [async] method is
      given as the state transformer of a call during whose awaits no other
      call of the store runs.  [addMessage] is given in two halves as well,
      split where it awaits the embedder, for the calls that overlap.
    - Objects are values: where the code changes an object held in a [Map]
      in place, the entry of the [Map] is replaced.  No object is held
      under two keys in the states considered.
    - [Date.now()] and [Math.random()] are arguments of the operation that
      reads them.  The calls of the logger are left out of the operations;
      the logger itself is the module [Logger]. *)

From Stdlib Require Import ZArith List String Ascii Bool Lia.
From Stdlib Require Import Permutation Sorted DecimalString DecimalZ DecimalPos.
From Stdlib Require Import Reals Lra.
From Stdlib Require Import SpecFloat.
Import ListNotations.

Set Implicit Arguments.
Local Open Scope string_scope.
Local Open Scope Z_scope.

(* ====================================================================== *)
(** * Part I: the program *)
(* ====================================================================== *)

(** ** JavaScript numbers *)

Class JsNumber (F : Type) : Type := {
  zero : F;
  one : F;
  add : F -> F -> F;
  sub : F -> F -> F;
  mul : F -> F -> F;
  div : F -> F -> F;
  sqrt : F -> F;                (* Math.sqrt *)
  eqb : F -> F -> bool;         (* x === y *)
  ltb : F -> F -> bool;         (* x < y *)
  leb : F -> F -> bool;         (* x <= y *)
  fround : F -> F;              (* the value kept by a Float32Array slot *)
  json : F -> F                 (* the number after JSON.stringify and
                                   JSON.parse, [null] read as a number *)
}.

(** A small non-negative integer literal. *)
Fixpoint number_of_nat {F} `{JsNumber F} (n : nat) : F :=
  match n with
  | O => zero
  | S n' => add (number_of_nat n') one
  end.

(** IEEE-754 binary64, the arithmetic of the JavaScript engine, over the
    Standard Library's executable specification of floating point.  A
    [Float32Array] slot rounds to binary32 (nearest, ties to even) and is
    read back as the binary64 number of the same value. *)
Module Ieee.
Definition prec64 : Z := 53.
Definition emax64 : Z := 1024.
Definition prec32 : Z := 24.
Definition emax32 : Z := 128.

Definition to_binary32 (x : spec_float) : spec_float :=
  match x with
  | S754_finite s m e => binary_round prec32 emax32 s m e
  | _ => x
  end.

Definition to_binary64 (x : spec_float) : spec_float :=
  match x with
  | S754_finite s m e => binary_round prec64 emax64 s m e
  | _ => x
  end.

Definition Math_fround (x : spec_float) : spec_float :=
  to_binary64 (to_binary32 x).

(** [JSON.stringify] writes [NaN] and the infinities as [null] and [-0] as
    [0], and every other number in digits that [JSON.parse] reads back as
    the same number.  Where a number is wanted ([new Float32Array], the
    arithmetic operators) [null] is read as [0]. *)
Definition through_json (x : spec_float) : spec_float :=
  match x with
  | S754_finite _ _ _ => x
  | _ => S754_zero false
  end.

#[global] Instance number : JsNumber spec_float := {|
  zero := S754_zero false;
  one := SFone prec64 emax64;
  add := SFadd prec64 emax64;
  sub := SFsub prec64 emax64;
  mul := SFmul prec64 emax64;
  div := SFdiv prec64 emax64;
  sqrt := SFsqrt prec64 emax64;
  eqb := SFeqb;
  ltb := SFltb;
  leb := SFleb;
  fround := Math_fround;
  json := through_json
|}.
End Ieee.

(** The real numbers: the same program text read in exact arithmetic, where
    storing into a [Float32Array] loses nothing and every number has its
    digits. *)
Module Exact.
#[global] Instance number : JsNumber R := {|
  zero := 0%R;
  one := 1%R;
  add := Rplus;
  sub := Rminus;
  mul := Rmult;
  div := Rdiv;
  sqrt := R_sqrt.sqrt;
  eqb := fun x y => if Req_dec_T x y then true else false;
  ltb := fun x y => if Rlt_dec x y then true else false;
  leb := fun x y => if Rle_dec x y then true else false;
  fround := fun x => x;
  json := fun x => x
|}.
End Exact.

(** ** JavaScript strings

    A string is a sequence of code units; the embedding covers the code
    units below 256 (Latin-1), on which [toLowerCase] and the class [\s]
    are as below. *)
Module Js.

Definition charCode (c : ascii) : Z := Z.of_N (N_of_ascii c).

(** [\s] restricted to Latin-1: TAB, LF, VT, FF, CR, SPACE, NBSP. *)
Definition is_space (c : ascii) : bool :=
  let n := charCode c in
  ((9 <=? n) && (n <=? 13)) || (n =? 32) || (n =? 160).

(** [toLowerCase] on one Latin-1 code unit: A-Z and the accented capitals
    192-222 (except the multiplication sign 215) move up by 32. *)
Definition lower_char (c : ascii) : ascii :=
  let n := charCode c in
  if ((65 <=? n) && (n <=? 90))
     || ((192 <=? n) && (n <=? 222) && negb (n =? 215))
  then ascii_of_N (Z.to_N (n + 32))
  else c.

Fixpoint toLowerCase (s : string) : string :=
  match s with
  | EmptyString => EmptyString
  | String c s' => String (lower_char c) (toLowerCase s')
  end.

(** [s.replace(/\s/g, '')] *)
Fixpoint remove_spaces (s : string) : string :=
  match s with
  | EmptyString => EmptyString
  | String c s' =>
      if is_space c then remove_spaces s' else String c (remove_spaces s')
  end.

(** [s.split(/\s+/)]: the pieces between maximal runs of white space.  A
    leading or trailing run leaves an empty first or last piece, and the
    empty string splits into one empty piece.  [in_run] tells that the
    previous code unit was white space, [cur] is the piece being read. *)
Fixpoint split_spaces_from (in_run : bool) (cur : string) (s : string)
  : list string :=
  match s with
  | EmptyString => [cur]
  | String c s' =>
      if is_space c then
        if in_run then split_spaces_from true cur s'
        else cur :: split_spaces_from true EmptyString s'
      else split_spaces_from false (cur ++ String c EmptyString) s'
  end.

Definition split_spaces (s : string) : list string :=
  split_spaces_from false EmptyString s.

(** [s.substr(start, len)] for [start >= 0]. *)
Definition substr (start len : nat) (s : string) : string :=
  String.substring start len s.

(** [s.substr(-n)]: the last [n] code units, the whole string when it is
    shorter. *)
Definition substr_last (n : nat) (s : string) : string :=
  String.substring (String.length s - n) n s.

(** [s.startsWith(p)] *)
Definition startsWith (p s : string) : bool := String.prefix p s.

(** [s.substring(0, n)] *)
Definition substring0 (n : nat) (s : string) : string :=
  String.substring 0 n s.

(** An integer inside a template literal: its decimal numeral. *)
Definition decimal (z : Z) : string := NilZero.string_of_int (Z.to_int z).

(** [ToInt32]: wrap into [-2^31, 2^31). *)
Definition ToInt32 (z : Z) : Z := (z + 2 ^ 31) mod 2 ^ 32 - 2 ^ 31.

(** [a.slice(start, end)] on an array, with JavaScript's reading of
    negative positions (counted from the end) and clamping. *)
Definition clamp_index (len i : Z) : Z :=
  if i <? 0 then Z.max (len + i) 0 else Z.min i len.

Definition slice {A} (start : Z) (stop : option Z) (l : list A) : list A :=
  let len := Z.of_nat (List.length l) in
  let from := clamp_index len start in
  let to := match stop with None => len | Some e => clamp_index len e end in
  firstn (Z.to_nat (to - from)) (skipn (Z.to_nat from) l).

End Js.

(** ** EmbedderModelManager.ts *)
Module EmbedderModelManager.
Section Arithmetic.
Context {F : Type} `{JsNumber F}.

(** [simpleHash]: [hash = ((hash << 5) - hash) + char; hash = hash & hash],
    then [Math.abs].  The shift and the [&] wrap to 32 bits, the
    subtraction and the addition between them do not. *)
Definition hash_step (hash : Z) (c : ascii) : Z :=
  Js.ToInt32 (Js.ToInt32 (hash * 32) - hash + Js.charCode c).

Definition simpleHash (str : string) : Z :=
  Z.abs (fold_left hash_step (list_ascii_of_string str) 0).

(** [hash % halfDim] as an index: [x % 0] is [NaN], which addresses no
    slot of a typed array. *)
Definition bucket (hash : Z) (halfDim : nat) : option nat :=
  match halfDim with
  | O => None
  | _ => Some (Z.to_nat (hash mod Z.of_nat halfDim))
  end.

(** [embedding[i] += 1] on a [Float32Array]; a write outside the array
    is ignored. *)
Fixpoint increment (i : nat) (embedding : list F) : list F :=
  match embedding, i with
  | [], _ => []
  | x :: rest, O => fround (add x one) :: rest
  | x :: rest, S i' => x :: increment i' rest
  end.

Definition increment_at (offset : nat) (b : option nat) (embedding : list F)
  : list F :=
  match b with
  | None => embedding
  | Some i => increment (offset + i) embedding
  end.

(** [embedding.reduce((sum, val) => sum + val * val, 0)] *)
Definition sum_squares (v : list F) : F :=
  fold_left (fun sum val => add sum (mul val val)) v zero.

Definition generateSimpleEmbedding (text : string) (dimensions : nat)
  : list F :=
  let embedding := repeat zero dimensions in
  let words := Js.split_spaces (Js.toLowerCase text) in
  let chars := Js.remove_spaces (Js.toLowerCase text) in
  let halfDim := Nat.div dimensions 2 in
  (* character bigrams, first half *)
  let embedding :=
    fold_left
      (fun e i =>
         let bigram := Js.substr i 2 chars in
         increment_at 0 (bucket (simpleHash bigram) halfDim) e)
      (seq 0 (Nat.min (String.length chars - 1) halfDim))
      embedding in
  (* words, second half *)
  let embedding :=
    fold_left
      (fun e i =>
         let word := nth i words EmptyString in
         increment_at halfDim (bucket (simpleHash word) halfDim) e)
      (seq 0 (Nat.min (List.length words) halfDim))
      embedding in
  let magnitude := sqrt (sum_squares embedding) in
  if ltb zero magnitude
  then map (fun x => fround (div x magnitude)) embedding
  else embedding.

(** [cosineSimilarity]: one loop accumulates the dot product and the two
    squared norms. *)
Definition cosine_loop (a b : list F) : F * F * F :=
  fold_left
    (fun '(dotProduct, normA, normB) '(x, y) =>
       (add dotProduct (mul x y), add normA (mul x x), add normB (mul y y)))
    (combine a b) (zero, zero, zero).

Definition cosineSimilarity (a b : list F) : F :=
  if negb (Nat.eqb (List.length a) (List.length b)) then zero
  else
    let '(dotProduct, normA, normB) := cosine_loop a b in
    let normA := sqrt normA in
    let normB := sqrt normB in
    if eqb normA zero || eqb normB zero then zero
    else div dotProduct (mul normA normB).
End Arithmetic.

(** The manager itself.  Of an [EmbedderModel] the engine reads the id and
    the dimension; the descriptive fields and the download flags are left
    out.  [embeddingFunction] is a closure over [model.dimensions]: both
    branches of [initializeEmbeddingFunction] build the same function, so
    the closure is represented by the dimension it captured. *)
Record EmbedderModel : Type := {
  id : string;
  dimensions : nat
}.

Definition availableModels : list EmbedderModel :=
  [ {| id := "bge-small-en-v1.5"; dimensions := 384 |};
    {| id := "all-minilm-l6-v2"; dimensions := 384 |};
    {| id := "all-mpnet-base-v2"; dimensions := 768 |};
    {| id := "simple-builtin"; dimensions := 128 |} ].

Definition find_model (modelId : string) : option EmbedderModel :=
  find (fun m => String.eqb (id m) modelId) availableModels.

Record t : Type := {
  currentModel : option EmbedderModel;
  embeddingFunction : option nat
}.

(** [constructor] *)
Definition new : t :=
  {| currentModel := find_model "simple-builtin";
     embeddingFunction := None |}.

(** [loadStatus], the one step of [initialize] that [embed] can observe:
    [saved] is the [currentModelId] read from the device, [None] when
    nothing was saved, the read failed or [initialize] gave up before. *)
Definition loadStatus (saved : option string) (mgr : t) : t :=
  match saved with
  | Some modelId =>
      match find_model modelId with
      | Some model =>
          {| currentModel := Some model;
             embeddingFunction := embeddingFunction mgr |}
      | None => mgr
      end
  | None => mgr
  end.

Definition initialize (saved : option string) (mgr : t) : t :=
  loadStatus saved mgr.

Definition initializeEmbeddingFunction (model : EmbedderModel) (mgr : t) : t :=
  {| currentModel := currentModel mgr;
     embeddingFunction := Some (dimensions model) |}.

Section Embed.
Context {F : Type} `{JsNumber F}.

(** [embed]: [None] is a thrown error. *)
Definition embed (text : string) (mgr : t) : option (list F) * t :=
  let prepared : option t :=
    match embeddingFunction mgr with
    | Some _ => Some mgr
    | None =>
        let model :=
          match currentModel mgr with
          | Some m => Some m
          | None =>
              match find_model "simple-builtin" with
              | Some m => Some m
              | None => hd_error availableModels
              end
          end in
        match model with
        | Some m =>
            Some (initializeEmbeddingFunction m
                    {| currentModel := Some m;
                       embeddingFunction := embeddingFunction mgr |})
        | None => None
        end
    end in
  match prepared with
  | None => (None, mgr)
  | Some mgr' =>
      match embeddingFunction mgr' with
      | None => (None, mgr')
      | Some dims => (Some (generateSimpleEmbedding text dims), mgr')
      end
  end.
End Embed.
End EmbedderModelManager.

(** ** SimpleEmbeddingService (LightVectorDB.ts)

    The embedding service that [LightVectorDB] constructs and keeps in its
    [embedding] field.  [simpleHash] and [cosineSimilarity] have the text
    of the manager's. *)
Module SimpleEmbeddingService.
Import EmbedderModelManager.
Section Arithmetic.
Context {F : Type} `{JsNumber F}.

Definition vectorSize : nat := 128.

Definition generateEmbedding (text : string) : list F :=
  let embedding := repeat zero vectorSize in
  let words := Js.split_spaces (Js.toLowerCase text) in
  let chars := Js.remove_spaces (Js.toLowerCase text) in
  (* character bigrams: [embedding[hash] += 1] with [hash < 32] *)
  let embedding :=
    fold_left
      (fun e i =>
         let bigram := Js.substr i 2 chars in
         increment_at 0 (bucket (simpleHash bigram) 32) e)
      (seq 0 (Nat.min (String.length chars - 1) 32))
      embedding in
  (* words: [embedding[32 + hash] += 1] *)
  let embedding :=
    fold_left
      (fun e i =>
         let word := nth i words EmptyString in
         increment_at 32 (bucket (simpleHash word) 32) e)
      (seq 0 (Nat.min (List.length words) 32))
      embedding in
  let magnitude := sqrt (sum_squares embedding) in
  if ltb zero magnitude
  then map (fun x => fround (div x magnitude)) embedding
  else embedding.

Definition cosineSimilarity (a b : list F) : F :=
  EmbedderModelManager.cosineSimilarity a b.
End Arithmetic.
End SimpleEmbeddingService.

(** ** JavaScript [Map] and plain objects *)

(** A [Map] with string keys, as the list of its entries in insertion
    order.  [set] on a key that is present keeps its place. *)
Module JsMap.
Section Ops.
Context {V : Type}.

Definition t : Type := list (string * V).

Fixpoint get (k : string) (m : t) : option V :=
  match m with
  | [] => None
  | (k', v) :: rest => if String.eqb k k' then Some v else get k rest
  end.

Fixpoint set (k : string) (v : V) (m : t) : t :=
  match m with
  | [] => [(k, v)]
  | (k', v') :: rest =>
      if String.eqb k k' then (k, v) :: rest else (k', v') :: set k v rest
  end.

Definition delete (k : string) (m : t) : t :=
  filter (fun e => negb (String.eqb k (fst e))) m.

Definition keys (m : t) : list string := map fst m.
Definition values (m : t) : list V := map snd m.
Definition size (m : t) : Z := Z.of_nat (List.length m).

(** [new Map(entries)] *)
Definition of_entries (entries : list (string * V)) : t :=
  fold_left (fun m e => set (fst e) (snd e) m) entries [].

(** The list stands for a [Map]: no key occurs twice. *)
Definition ok (m : t) : Prop := NoDup (keys m).
End Ops.
Arguments t : clear implicits.
End JsMap.

(** A plain object used as a dictionary, as the list of its own properties
    in enumeration order: array-index keys (canonical numerals below
    [2^32 - 1]) first, in ascending order, then the other keys in creation
    order. *)
Module JsObject.
Section Ops.
Context {V : Type}.

Definition t : Type := list (string * V).

Definition is_digit (c : ascii) : bool :=
  (48 <=? Js.charCode c) && (Js.charCode c <=? 57).

Fixpoint numeral (acc : Z) (s : string) : option Z :=
  match s with
  | EmptyString => Some acc
  | String c s' =>
      if is_digit c then numeral (10 * acc + (Js.charCode c - 48)) s'
      else None
  end.

Definition array_index (k : string) : option Z :=
  match k with
  | EmptyString => None
  | String c rest =>
      if (Js.charCode c =? 48) && negb (String.eqb rest EmptyString)
      then None
      else match numeral 0 k with
           | Some n => if n <? 2 ^ 32 - 1 then Some n else None
           | None => None
           end
  end.

Definition get (k : string) (o : t) : option V := JsMap.get k o.

Definition has (k : string) (o : t) : bool :=
  existsb (fun e => String.eqb k (fst e)) o.

(** Where a new property goes. *)
Fixpoint create (k : string) (v : V) (o : t) : t :=
  match o with
  | [] => [(k, v)]
  | (k', v') :: rest =>
      match array_index k, array_index k' with
      | Some n, Some n' =>
          if n <? n' then (k, v) :: o else (k', v') :: create k v rest
      | Some _, None => (k, v) :: o
      | None, _ => (k', v') :: create k v rest
      end
  end.

Definition set (k : string) (v : V) (o : t) : t :=
  if has k o then JsMap.set k v o else create k v o.

(** [Object.fromEntries] and [Object.entries] *)
Definition fromEntries (entries : list (string * V)) : t :=
  fold_left (fun o e => set (fst e) (snd e) o) entries [].

Definition entries (o : t) : list (string * V) := o.
End Ops.
Arguments t : clear implicits.
End JsObject.

(** [Array.prototype.sort(compare)] is stable and, for a consistent
    comparator, has one possible result, which insertion sort computes.
    [before x y] is [compare(x, y) < 0]: [x] has to come first. *)
Module JsArray.
Section Sort.
Context {A : Type}.
Variable before : A -> A -> bool.

Fixpoint insert (x : A) (sorted : list A) : list A :=
  match sorted with
  | [] => [x]
  | y :: rest => if before y x then y :: insert x rest else x :: sorted
  end.

Fixpoint sort (l : list A) : list A :=
  match l with
  | [] => []
  | x :: rest => insert x (sort rest)
  end.

(** [x] may stand before [y]: [y] does not have to come first. *)
Definition not_after (x y : A) : Prop := before y x = false.
End Sort.
End JsArray.

(** ** types/chat.ts *)

Module ChatSession.
(** The optional [embedding] and [metadata] of a session are never set or
    read by the stores and are left out. *)
Record t : Type := {
  id : string;
  title : string;
  preview : string;
  createdAt : Z;
  updatedAt : Z;
  messageCount : Z
}.

(** [Partial<ChatSession>] *)
Record partial : Type := {
  new_id : option string;
  new_title : option string;
  new_preview : option string;
  new_createdAt : option Z;
  new_updatedAt : option Z;
  new_messageCount : option Z
}.

Definition or_else {A} (o : option A) (d : A) : A :=
  match o with Some x => x | None => d end.

(** [{ ...session, ...updates, updatedAt: now }] *)
Definition updated (session : t) (updates : partial) (now : Z) : t :=
  {| id := or_else (new_id updates) (id session);
     title := or_else (new_title updates) (title session);
     preview := or_else (new_preview updates) (preview session);
     createdAt := or_else (new_createdAt updates) (createdAt session);
     updatedAt := now;
     messageCount := or_else (new_messageCount updates) (messageCount session) |}.

(** [{ ...session, ...updates }] *)
Definition merged (session : t) (updates : partial) : t :=
  {| id := or_else (new_id updates) (id session);
     title := or_else (new_title updates) (title session);
     preview := or_else (new_preview updates) (preview session);
     createdAt := or_else (new_createdAt updates) (createdAt session);
     updatedAt := or_else (new_updatedAt updates) (updatedAt session);
     messageCount := or_else (new_messageCount updates) (messageCount session) |}.
End ChatSession.

Module ChatMessage.
Inductive role : Type := user | assistant | system.

Definition role_eqb (a b : role) : bool :=
  match a, b with
  | user, user | assistant, assistant | system, system => true
  | _, _ => false
  end.

(** [metadata] is never set or read by the stores and is left out. *)
Record t (F : Type) : Type := {
  id : string;
  sessionId : string;
  role_of : role;
  content : string;
  timestamp : Z;
  embedding : option (list F)
}.
Arguments id {F}.
Arguments sessionId {F}.
Arguments role_of {F}.
Arguments content {F}.
Arguments timestamp {F}.
Arguments embedding {F}.

(** [Partial<ChatMessage>]; [new_embedding] is [Some None] when the
    property is there and holds [undefined]. *)
Record partial (F : Type) : Type := {
  new_id : option string;
  new_sessionId : option string;
  new_role : option role;
  new_content : option string;
  new_timestamp : option Z;
  new_embedding : option (option (list F))
}.
Arguments new_id {F}.
Arguments new_sessionId {F}.
Arguments new_role {F}.
Arguments new_content {F}.
Arguments new_timestamp {F}.
Arguments new_embedding {F}.

(** The message that [JSON.parse] gives back for the text that
    [JSON.stringify] made of [msg].  The strings and the timestamp come
    back as they were.  An [embedding] is written as the object of its
    components (under the keys 0, 1, ... for a [Float32Array]) and comes back
    as a plain object, no [Float32Array]; the record keeps the components
    as numbers. *)
Definition revived {F} `{JsNumber F} (msg : t F) : t F :=
  {| id := id msg;
     sessionId := sessionId msg;
     role_of := role_of msg;
     content := content msg;
     timestamp := timestamp msg;
     embedding := option_map (map json) (embedding msg) |}.

(** [{ ...msg, ...updates }] *)
Definition merged {F} (msg : t F) (updates : partial F) : t F :=
  {| id := ChatSession.or_else (new_id updates) (id msg);
     sessionId := ChatSession.or_else (new_sessionId updates) (sessionId msg);
     role_of := ChatSession.or_else (new_role updates) (role_of msg);
     content := ChatSession.or_else (new_content updates) (content msg);
     timestamp := ChatSession.or_else (new_timestamp updates) (timestamp msg);
     embedding := ChatSession.or_else (new_embedding updates) (embedding msg) |}.
End ChatMessage.

(** The argument of [addMessage]: [{sessionId, role, content}]. *)
Module MessageData.
Record t : Type := {
  sessionId : string;
  role_of : ChatMessage.role;
  content : string
}.
End MessageData.

Record VectorSearchResult (F : Type) : Type := {
  message : ChatMessage.t F;
  similarity : F
}.
Arguments message {F}.
Arguments similarity {F}.

Record VectorStoreConfig (F : Type) : Type := {
  maxMessagesPerSession : Z;
  embeddingDimensions : Z;
  similarityThreshold : F;
  maxStorageMB : Z;
  maxAge : Z;          (* cleanupPolicy.maxAge, in days *)
  maxSessions : Z      (* cleanupPolicy.maxSessions *)
}.
Arguments maxAge {F}.
Arguments maxSessions {F}.
Arguments similarityThreshold {F}.

Record SessionStats : Type := {
  totalSessions : Z;
  totalMessages : Z;
  storageUsed : Z;      (* bytes; the stores report 0 *)
  oldestSession : Z     (* timestamp *)
}.

(** Helpers shared by the two stores. *)
Module StoreCommon.
Section Ops.
Context {F : Type}.

(** [truncateContent(content)] with the default [maxLength = 100] *)
Definition truncateContent (content : string) : string :=
  if (100 <? String.length content)%nat
  then (Js.substring0 100 content ++ "...")%string
  else content.

Definition has_id (id : string) (msg : ChatMessage.t F) : bool :=
  String.eqb (ChatMessage.id msg) id.

(** [index = messages.findIndex(m => m.id === id)], then
    [messages.splice(index, 1)] *)
Fixpoint splice_id (id : string) (messages : list (ChatMessage.t F))
  : list (ChatMessage.t F) :=
  match messages with
  | [] => []
  | m :: rest => if has_id id m then rest else m :: splice_id id rest
  end.

(** The first entry of the message map whose array holds the id: where
    the loop of [deleteMessage] stops. *)
Definition owner (id : string) (messages : JsMap.t (list (ChatMessage.t F)))
  : option (string * list (ChatMessage.t F)) :=
  find (fun e => existsb (has_id id) (snd e)) messages.

(** [sessions.sort((a, b) => b.updatedAt - a.updatedAt)] *)
Definition more_recent (a b : ChatSession.t) : bool :=
  ChatSession.updatedAt b - ChatSession.updatedAt a <? 0.

Definition by_recency (sessions : list ChatSession.t) : list ChatSession.t :=
  JsArray.sort more_recent sessions.

(** [title || 'New Chat'] *)
Definition title_or_default (title : option string) : string :=
  match title with
  | Some t => if String.eqb t "" then "New Chat" else t
  | None => "New Chat"
  end.

(** [limit ? messages.slice(-limit) : messages] *)
Definition last_messages (limit : option Z) (messages : list (ChatMessage.t F))
  : list (ChatMessage.t F) :=
  match limit with
  | Some n => if n =? 0 then messages else Js.slice (- n) None messages
  | None => messages
  end.

(** The total of [messages.length] over the message arrays. *)
Definition count_messages (arrays : list (list (ChatMessage.t F))) : Z :=
  fold_left (fun total msgs => total + Z.of_nat (List.length msgs)) arrays 0.

(** [Math.min(...created)], and [Date.now()] when there is no session:
    [LightVectorDB] tests [sessions.size > 0] before taking the minimum,
    [SimpleVectorStore] tests [isFinite] after it, and the minimum of no
    numbers is [Infinity]. *)
Definition oldest_or (now : Z) (created : list Z) : Z :=
  match created with
  | [] => now
  | first :: rest => fold_left Z.min rest first
  end.
End Ops.
End StoreCommon.
Import StoreCommon.

(** ** SimpleVectorStore: the fallback engine (second half of
    LightVectorDB.ts) *)
Module SimpleVectorStore.
Section Ops.
Context {F : Type}.

Record t : Type := {
  sessions : JsMap.t ChatSession.t;
  messages : JsMap.t (list (ChatMessage.t F));
  messageCounter : Z
}.

Definition new : t :=
  {| sessions := []; messages := []; messageCounter := 0 |}.

Definition createSession (title : option string)
           (t_id : Z) (rnd : string) (t_created t_updated : Z) (st : t)
  : ChatSession.t * t :=
  let session :=
    {| ChatSession.id := "session_" ++ Js.decimal t_id ++ "_" ++ rnd;
       ChatSession.title := title_or_default title;
       ChatSession.preview := "";
       ChatSession.createdAt := t_created;
       ChatSession.updatedAt := t_updated;
       ChatSession.messageCount := 0 |}%string in
  (session,
   {| sessions := JsMap.set (ChatSession.id session) session (sessions st);
      messages := JsMap.set (ChatSession.id session) [] (messages st);
      messageCounter := messageCounter st |}).

(** [this.sessions.get(id) || null] *)
Definition getSession (id : string) (st : t) : option ChatSession.t :=
  JsMap.get id (sessions st).

Definition updateSession (id : string) (updates : ChatSession.partial)
           (now : Z) (st : t) : t :=
  match JsMap.get id (sessions st) with
  | Some session =>
      {| sessions := JsMap.set id (ChatSession.updated session updates now)
                               (sessions st);
         messages := messages st;
         messageCounter := messageCounter st |}
  | None => st
  end.

Definition deleteSession (id : string) (st : t) : t :=
  {| sessions := JsMap.delete id (sessions st);
     messages := JsMap.delete id (messages st);
     messageCounter := messageCounter st |}.

Definition addMessage (messageData : MessageData.t) (now : Z) (rnd : string)
           (st : t) : ChatMessage.t F * t :=
  let counter := messageCounter st + 1 in
  let sessionPrefix := Js.substr_last 6 (MessageData.sessionId messageData) in
  let message :=
    {| ChatMessage.id :=
         "msg_" ++ sessionPrefix ++ "_" ++ Js.decimal now ++ "_"
                ++ Js.decimal counter ++ "_" ++ rnd;
       ChatMessage.sessionId := MessageData.sessionId messageData;
       ChatMessage.role_of := MessageData.role_of messageData;
       ChatMessage.content := MessageData.content messageData;
       ChatMessage.timestamp := now;
       ChatMessage.embedding := None |}%string in
  let sid := ChatMessage.sessionId message in
  let sessionMessages :=
    (ChatSession.or_else (JsMap.get sid (messages st)) [] ++ [message])%list in
  (* the session object is changed in place, then stored again under
     its own id *)
  let sessions' :=
    match JsMap.get sid (sessions st) with
    | Some session =>
        let session' :=
          {| ChatSession.id := ChatSession.id session;
             ChatSession.title := ChatSession.title session;
             ChatSession.preview :=
               truncateContent (ChatMessage.content message);
             ChatSession.createdAt := ChatSession.createdAt session;
             ChatSession.updatedAt := ChatMessage.timestamp message;
             ChatSession.messageCount :=
               Z.of_nat (List.length sessionMessages) |} in
        JsMap.set (ChatSession.id session) session'
          (JsMap.set sid session' (sessions st))
    | None => sessions st
    end in
  (message,
   {| sessions := sessions';
      messages := JsMap.set sid sessionMessages (messages st);
      messageCounter := counter |}).

Definition getMessages (sessionId : string) (limit : option Z) (st : t)
  : list (ChatMessage.t F) :=
  last_messages limit (ChatSession.or_else (JsMap.get sessionId (messages st)) []).

Definition deleteMessage (id : string) (st : t) : t :=
  match owner id (messages st) with
  | Some (sessionId, msgs) =>
      let msgs' := splice_id id msgs in
      {| sessions :=
           match JsMap.get sessionId (sessions st) with
           | Some session =>
               JsMap.set sessionId
                 {| ChatSession.id := ChatSession.id session;
                    ChatSession.title := ChatSession.title session;
                    ChatSession.preview := ChatSession.preview session;
                    ChatSession.createdAt := ChatSession.createdAt session;
                    ChatSession.updatedAt := ChatSession.updatedAt session;
                    ChatSession.messageCount := Z.of_nat (List.length msgs') |}
                 (sessions st)
           | None => sessions st
           end;
         messages := JsMap.set sessionId msgs' (messages st);
         messageCounter := messageCounter st |}
  | None => st
  end.

(** [sessionMessages[messageIndex] = { ...sessionMessages[messageIndex],
    ...updates }] at the first index that holds the id *)
Fixpoint replace_id (id : string) (updates : ChatMessage.partial F)
         (messages : list (ChatMessage.t F)) : list (ChatMessage.t F) :=
  match messages with
  | [] => []
  | m :: rest =>
      if has_id id m then ChatMessage.merged m updates :: rest
      else m :: replace_id id updates rest
  end.

Definition updateMessage (messageId : string) (updates : ChatMessage.partial F)
           (st : t) : t :=
  match owner messageId (messages st) with
  | Some (sessionId, msgs) =>
      {| sessions := sessions st;
         messages := JsMap.set sessionId (replace_id messageId updates msgs)
                               (messages st);
         messageCounter := messageCounter st |}
  | None => st
  end.

Definition getAllSessions (st : t) : list ChatSession.t :=
  by_recency (JsMap.values (sessions st)).

Definition getStats (now : Z) (st : t) : SessionStats :=
  {| totalSessions := JsMap.size (sessions st);
     totalMessages := count_messages (JsMap.values (messages st));
     storageUsed := 0;
     oldestSession :=
       oldest_or now (map ChatSession.createdAt (JsMap.values (sessions st))) |}.

(** [cleanup]: both maps are cleared and filled again from the sessions
    that are kept.  [maxSessions] is [this.config.cleanupPolicy.maxSessions]. *)
Definition cleanup (maxSessions : Z) (st : t) : t :=
  let kept :=
    Js.slice 0 (Some maxSessions) (by_recency (JsMap.values (sessions st))) in
  {| sessions :=
       fold_left (fun m session => JsMap.set (ChatSession.id session) session m)
                 kept [];
     messages :=
       fold_left (fun m session => JsMap.set (ChatSession.id session) [] m)
                 kept [];
     messageCounter := messageCounter st |}.

(** The argument and result of [importData] and [exportData]; a field is
    [None] when it is missing. *)
Record Snapshot : Type := {
  snap_sessions : option (list ChatSession.t);
  snap_messages : option (JsObject.t (list (ChatMessage.t F)))
}.

Definition exportData (st : t) : Snapshot :=
  {| snap_sessions := Some (JsMap.values (sessions st));
     snap_messages := Some (JsObject.fromEntries (messages st)) |}.

(** [importData] adds to the two maps; it does not clear them. *)
Definition importData (data : Snapshot) (st : t) : t :=
  {| sessions :=
       match snap_sessions data with
       | Some listed =>
           fold_left
             (fun m session => JsMap.set (ChatSession.id session) session m)
             listed (sessions st)
       | None => sessions st
       end;
     messages :=
       match snap_messages data with
       | Some arrays =>
           fold_left (fun m e => JsMap.set (fst e) (snd e) m)
                     (JsObject.entries arrays) (messages st)
       | None => messages st
       end;
     messageCounter := messageCounter st |}.

(** The placeholder search of the fallback: always empty. *)
Definition searchSimilarMessages (st : t) : list (VectorSearchResult F) := [].
End Ops.
Arguments t : clear implicits.
Arguments Snapshot : clear implicits.
End SimpleVectorStore.

(** ** The device: AsyncStorage

    The value under the key [light_vector_db_v1] is the text that
    [JSON.stringify] made of a blob; [Saved data] stands for the text made
    of the blob [data].  What [JSON.parse] makes of the text is worked out
    where it is read, in [loadFromStorage].  The [timestamp] field of the
    blob is written but never read.  Every call that the store makes to the
    device is numbered, and [fails n] tells whether call [n] throws.  The
    manager's reads of its own key, [embedder_model_status], are not
    numbered: they give [embedderStatus], and a read that fails is caught
    in [loadStatus] and is a read that finds nothing. *)
Module AsyncStorage.
Section Device.
Context {F : Type}.

Record Persisted : Type := {
  saved_sessions : list (string * ChatSession.t);
  saved_messages : list (string * list (ChatMessage.t F));
  saved_embeddings : list (string * list F)
}.

Inductive StoredItem : Type :=
| Absent
| Unparsable
| Saved (data : Persisted).

Record t : Type := {
  item : StoredItem;
  embedderStatus : option string;  (* currentModelId under embedder_model_status *)
  calls : nat;
  fails : nat -> bool
}.

(** [getItem(key)]: [None] is a thrown error. *)
Definition getItem (dev : t) : option StoredItem * t :=
  let dev' := {| item := item dev; embedderStatus := embedderStatus dev;
                 calls := S (calls dev); fails := fails dev |} in
  if fails dev (calls dev) then (None, dev') else (Some (item dev), dev').

(** [setItem(key, value)]: [false] is a thrown error. *)
Definition setItem (data : Persisted) (dev : t) : bool * t :=
  if fails dev (calls dev)
  then (false, {| item := item dev; embedderStatus := embedderStatus dev;
                  calls := S (calls dev); fails := fails dev |})
  else (true, {| item := Saved data; embedderStatus := embedderStatus dev;
                 calls := S (calls dev); fails := fails dev |}).
End Device.
Arguments Persisted : clear implicits.
Arguments StoredItem : clear implicits.
Arguments t : clear implicits.
End AsyncStorage.

(** ** LightVectorDB.ts

    Every method awaits [initialize()] and then runs its body inside
    [try { ... } catch { ... fallbackStore ... }].  What can throw in a body
    is a call to the device or to the embedder.  The device's errors are
    caught inside [saveToStorage] and [loadFromStorage], and the embedder's
    inside [addMessage], so the outer [catch] can be entered only in
    [searchSimilarMessages], where it is written out; the direct calls to
    the fallback store ([getSession], [updateSession], [deleteSession],
    [deleteMessage]) are written out as well. *)
Module LightVectorDB.
Section Ops.
Context {F : Type} `{JsNumber F}.

Record t : Type := {
  sessions : JsMap.t ChatSession.t;
  messages : JsMap.t (list (ChatMessage.t F));
  messageEmbeddings : JsMap.t (list F);
  config : VectorStoreConfig F;
  isInitialized : bool;
  fallbackStore : SimpleVectorStore.t F
}.

(** The store together with the two singletons it talks to. *)
Record World : Type := {
  db : t;
  device : AsyncStorage.t F;
  embedder : EmbedderModelManager.t
}.

(** The argument and result of [importData] and [exportData].  A field
    is [None] when it is missing (falsy); [config] and [timestamp] are
    written by [exportData] and not read by [importData]. *)
Record Snapshot : Type := {
  snap_sessions : option (list ChatSession.t);
  snap_messages : option (JsObject.t (list (ChatMessage.t F)));
  snap_embeddings : option (JsObject.t (list F))
}.

Inductive Query : Type :=
| Text (query : string)
| Vector (query : list F).

(** The defaults that the constructor merges the given configuration
    over. *)
Definition defaultConfig : VectorStoreConfig F :=
  {| maxMessagesPerSession := 100;
     embeddingDimensions := 128;
     similarityThreshold := div (number_of_nat 3) (number_of_nat 10);
     maxStorageMB := 25;
     maxAge := 30;
     maxSessions := 50 |}.

(** [constructor], for the merged configuration. *)
Definition new (cfg : VectorStoreConfig F) : t :=
  {| sessions := []; messages := []; messageEmbeddings := [];
     config := cfg; isInitialized := false;
     fallbackStore := SimpleVectorStore.new |}.

(** Record updates. *)
Definition with_maps (s : JsMap.t ChatSession.t)
           (m : JsMap.t (list (ChatMessage.t F)))
           (e : JsMap.t (list F)) (d : t) : t :=
  {| sessions := s; messages := m; messageEmbeddings := e;
     config := config d; isInitialized := isInitialized d;
     fallbackStore := fallbackStore d |}.

Definition with_fallback (fb : SimpleVectorStore.t F) (d : t) : t :=
  {| sessions := sessions d; messages := messages d;
     messageEmbeddings := messageEmbeddings d;
     config := config d; isInitialized := isInitialized d;
     fallbackStore := fb |}.

Definition with_db (d : t) (w : World) : World :=
  {| db := d; device := device w; embedder := embedder w |}.

(** [saveToStorage]: a failed write is caught and logged. *)
Definition saveToStorage (w : World) : World :=
  let data :=
    {| AsyncStorage.saved_sessions := sessions (db w);
       AsyncStorage.saved_messages := messages (db w);
       AsyncStorage.saved_embeddings := messageEmbeddings (db w) |} in
  {| db := db w;
     device := snd (AsyncStorage.setItem data (device w));
     embedder := embedder w |}.

(** [loadFromStorage]: a failed read, a missing item and an item that
    does not parse all leave the store as it is.  The sessions hold strings
    and integers, which [JSON.parse] gives back as they were written; the
    messages come back as [ChatMessage.revived] has them; and a component
    of a vector goes through the text and then into a [Float32Array]. *)
Definition loadFromStorage (w : World) : World :=
  let '(read, dev) := AsyncStorage.getItem (device w) in
  let d :=
    match read with
    | Some (AsyncStorage.Saved data) =>
        with_maps
          (JsMap.of_entries (AsyncStorage.saved_sessions data))
          (JsMap.of_entries
             (map (fun e => (fst e, map ChatMessage.revived (snd e)))
                  (AsyncStorage.saved_messages data)))
          (JsMap.of_entries
             (map (fun e => (fst e, map (fun x => fround (json x)) (snd e)))
                  (AsyncStorage.saved_embeddings data)))
          (db w)
    | _ => db w
    end in
  {| db := d; device := dev; embedder := embedder w |}.

Definition initialize (w : World) : World :=
  if isInitialized (db w) then w
  else
    let w' := loadFromStorage w in
    with_db {| sessions := sessions (db w'); messages := messages (db w');
               messageEmbeddings := messageEmbeddings (db w');
               config := config (db w'); isInitialized := true;
               fallbackStore := fallbackStore (db w') |} w'.

Definition createSession (title : option string)
           (t_id : Z) (rnd : string) (t_created t_updated : Z) (w : World)
  : ChatSession.t * World :=
  let w := initialize w in
  let session :=
    {| ChatSession.id := "session_" ++ Js.decimal t_id ++ "_" ++ rnd;
       ChatSession.title := title_or_default title;
       ChatSession.preview := "";
       ChatSession.createdAt := t_created;
       ChatSession.updatedAt := t_updated;
       ChatSession.messageCount := 0 |}%string in
  let d := db w in
  (session,
   saveToStorage
     (with_db (with_maps (JsMap.set (ChatSession.id session) session (sessions d))
                         (JsMap.set (ChatSession.id session) [] (messages d))
                         (messageEmbeddings d) d) w)).

Definition getSession (id : string) (w : World)
  : option ChatSession.t * World :=
  let w := initialize w in
  match JsMap.get id (sessions (db w)) with
  | Some session => (Some session, w)
  | None => (SimpleVectorStore.getSession id (fallbackStore (db w)), w)
  end.

Definition getAllSessions (w : World) : list ChatSession.t * World :=
  let w := initialize w in
  (by_recency (JsMap.values (sessions (db w))), w).

Definition updateSession (id : string) (updates : ChatSession.partial)
           (now : Z) (w : World) : World :=
  let w := initialize w in
  let d := db w in
  match JsMap.get id (sessions d) with
  | Some session =>
      saveToStorage
        (with_db (with_maps
                    (JsMap.set id (ChatSession.updated session updates now)
                               (sessions d))
                    (messages d) (messageEmbeddings d) d) w)
  | None =>
      with_db (with_fallback
                 (SimpleVectorStore.updateSession id updates now
                    (fallbackStore d)) d) w
  end.

Definition deleteSession (id : string) (w : World) : World :=
  let w := initialize w in
  let d := db w in
  let messagesToDelete :=
    filter (fun msgId => Js.startsWith id msgId)
           (JsMap.keys (messageEmbeddings d)) in
  let embeddings' :=
    fold_left (fun e msgId => JsMap.delete msgId e) messagesToDelete
              (messageEmbeddings d) in
  let w :=
    saveToStorage
      (with_db (with_maps (JsMap.delete id (sessions d))
                          (JsMap.delete id (messages d))
                          embeddings' d) w) in
  with_db (with_fallback
             (SimpleVectorStore.deleteSession id (fallbackStore (db w)))
             (db w)) w.

(** The duplicate test of [addMessage]. *)
Definition duplicates (messageData : MessageData.t) (now : Z)
           (existing : ChatMessage.t F) : bool :=
  String.eqb (ChatMessage.content existing) (MessageData.content messageData)
  && ChatMessage.role_eqb (ChatMessage.role_of existing)
                          (MessageData.role_of messageData)
  && (Z.abs (ChatMessage.timestamp existing - now) <? 1000).

Definition addMessage (messageData : MessageData.t) (now : Z) (rnd : string)
           (w : World) : ChatMessage.t F * World :=
  let w := initialize w in
  let d := db w in
  let sid := MessageData.sessionId messageData in
  let sessionPrefix := Js.substr_last 6 sid in
  let message :=
    {| ChatMessage.id :=
         "msg_" ++ sessionPrefix ++ "_" ++ Js.decimal now ++ "_" ++ rnd;
       ChatMessage.sessionId := sid;
       ChatMessage.role_of := MessageData.role_of messageData;
       ChatMessage.content := MessageData.content messageData;
       ChatMessage.timestamp := now;
       ChatMessage.embedding := None |}%string in
  let sessionMessages := ChatSession.or_else (JsMap.get sid (messages d)) [] in
  if existsb (duplicates messageData now) sessionMessages
  then
    (* return sessionMessages[sessionMessages.length - 1] *)
    (last sessionMessages message, w)
  else
    (* the embedding is attached when the embedder does not throw *)
    let mgr := EmbedderModelManager.initialize
                 (AsyncStorage.embedderStatus (device w)) (embedder w) in
    let '(generated, mgr) :=
      EmbedderModelManager.embed (ChatMessage.content message) mgr in
    let message :=
      match generated with
      | Some e =>
          {| ChatMessage.id := ChatMessage.id message;
             ChatMessage.sessionId := ChatMessage.sessionId message;
             ChatMessage.role_of := ChatMessage.role_of message;
             ChatMessage.content := ChatMessage.content message;
             ChatMessage.timestamp := ChatMessage.timestamp message;
             ChatMessage.embedding := Some e |}
      | None => message
      end in
    let embeddings' :=
      match generated with
      | Some e => JsMap.set (ChatMessage.id message) e (messageEmbeddings d)
      | None => messageEmbeddings d
      end in
    let sessionMessages := (sessionMessages ++ [message])%list in
    let sessions' :=
      match JsMap.get sid (sessions d) with
      | Some session =>
          JsMap.set sid
            {| ChatSession.id := ChatSession.id session;
               ChatSession.title := ChatSession.title session;
               ChatSession.preview :=
                 truncateContent (ChatMessage.content message);
               ChatSession.createdAt := ChatSession.createdAt session;
               ChatSession.updatedAt := now;
               ChatSession.messageCount :=
                 Z.of_nat (List.length sessionMessages) |}
            (sessions d)
      | None => sessions d
      end in
    (message,
     saveToStorage
       {| db := with_maps sessions' (JsMap.set sid sessionMessages (messages d))
                          embeddings' d;
          device := device w;
          embedder := mgr |}).

(** [addMessage] in two halves.  Between the duplicate test and the
    [push] the method awaits the embedder, whose [initialize()] reads the
    file system and the device on every call; other calls on the store run
    while it waits.  [addMessage_begin] is the part before these awaits and
    [addMessage_finish] the part from there on.  The first half begins
    with the awaited [initialize()], which does nothing on an initialized
    store; calls that overlap while the store is still loading are not
    described.

    A call that has begun holds the message it built and the array it
    scanned: the array object of the map, or an empty array of its own
    when the map had none under the session id.  The array of the map is
    read again in the second half, which is what the call sees when no
    step in between has put another array under the session id or removed
    the entry; the halves of other calls that hold the same array do
    neither. *)
Inductive Started : Type :=
| Answered (existing : ChatMessage.t F)
| Pending (message : ChatMessage.t F) (own : bool).

Definition addMessage_begin (messageData : MessageData.t) (now : Z)
           (rnd : string) (w : World) : Started * World :=
  let w := initialize w in
  let d := db w in
  let sid := MessageData.sessionId messageData in
  let sessionPrefix := Js.substr_last 6 sid in
  let message :=
    {| ChatMessage.id :=
         "msg_" ++ sessionPrefix ++ "_" ++ Js.decimal now ++ "_" ++ rnd;
       ChatMessage.sessionId := sid;
       ChatMessage.role_of := MessageData.role_of messageData;
       ChatMessage.content := MessageData.content messageData;
       ChatMessage.timestamp := now;
       ChatMessage.embedding := None |}%string in
  match JsMap.get sid (messages d) with
  | Some sessionMessages =>
      if existsb (duplicates messageData now) sessionMessages
      then (Answered (last sessionMessages message), w)
      else (Pending message false, w)
  | None => (Pending message true, w)
  end.

Definition addMessage_finish (started : Started) (w : World)
  : ChatMessage.t F * World :=
  match started with
  | Answered existing => (existing, w)
  | Pending message own =>
      let d := db w in
      let sid := ChatMessage.sessionId message in
      let now := ChatMessage.timestamp message in
      let mgr := EmbedderModelManager.initialize
                   (AsyncStorage.embedderStatus (device w)) (embedder w) in
      let '(generated, mgr) :=
        EmbedderModelManager.embed (ChatMessage.content message) mgr in
      let message :=
        match generated with
        | Some e =>
            {| ChatMessage.id := ChatMessage.id message;
               ChatMessage.sessionId := ChatMessage.sessionId message;
               ChatMessage.role_of := ChatMessage.role_of message;
               ChatMessage.content := ChatMessage.content message;
               ChatMessage.timestamp := ChatMessage.timestamp message;
               ChatMessage.embedding := Some e |}
        | None => message
        end in
      let embeddings' :=
        match generated with
        | Some e => JsMap.set (ChatMessage.id message) e (messageEmbeddings d)
        | None => messageEmbeddings d
        end in
      (* sessionMessages.push(message) on the array that the call holds *)
      let held :=
        if own then []
        else ChatSession.or_else (JsMap.get sid (messages d)) [] in
      let sessionMessages := (held ++ [message])%list in
      let sessions' :=
        match JsMap.get sid (sessions d) with
        | Some session =>
            JsMap.set sid
              {| ChatSession.id := ChatSession.id session;
                 ChatSession.title := ChatSession.title session;
                 ChatSession.preview :=
                   truncateContent (ChatMessage.content message);
                 ChatSession.createdAt := ChatSession.createdAt session;
                 ChatSession.updatedAt := now;
                 ChatSession.messageCount :=
                   Z.of_nat (List.length sessionMessages) |}
              (sessions d)
        | None => sessions d
        end in
      (message,
       saveToStorage
         {| db := with_maps sessions' (JsMap.set sid sessionMessages (messages d))
                            embeddings' d;
            device := device w;
            embedder := mgr |})
  end.

Definition getMessages (sessionId : string) (limit : option Z) (w : World)
  : list (ChatMessage.t F) * World :=
  let w := initialize w in
  (last_messages limit
     (ChatSession.or_else (JsMap.get sessionId (messages (db w))) []), w).

Definition deleteMessage (id : string) (now : Z) (w : World) : World :=
  let w := initialize w in
  let d := db w in
  let w :=
    match owner id (messages d) with
    | Some (sessionId, msgs) =>
        let msgs' := splice_id id msgs in
        let sessions' :=
          match JsMap.get sessionId (sessions d) with
          | Some session =>
              JsMap.set sessionId
                {| ChatSession.id := ChatSession.id session;
                   ChatSession.title := ChatSession.title session;
                   ChatSession.preview := ChatSession.preview session;
                   ChatSession.createdAt := ChatSession.createdAt session;
                   ChatSession.updatedAt := now;
                   ChatSession.messageCount := Z.of_nat (List.length msgs') |}
                (sessions d)
          | None => sessions d
          end in
        saveToStorage
          (with_db (with_maps sessions'
                              (JsMap.set sessionId msgs' (messages d))
                              (JsMap.delete id (messageEmbeddings d)) d) w)
    | None => w
    end in
  with_db (with_fallback
             (SimpleVectorStore.deleteMessage id (fallbackStore (db w)))
             (db w)) w.

(** [if (sessionId && sid !== sessionId) continue]: an empty session id
    is falsy and restricts nothing. *)
Definition skipped (sessionId : option string) (sid : string) : bool :=
  match sessionId with
  | Some wanted => negb (String.eqb wanted "") && negb (String.eqb sid wanted)
  | None => false
  end.

(** The two nested loops of [searchSimilarMessages]: the results in the
    order in which they are pushed. *)
Definition candidates (queryEmbedding : list F) (sessionId : option string)
           (d : t) : list (VectorSearchResult F) :=
  flat_map
    (fun entry : string * list (ChatMessage.t F) =>
       if skipped sessionId (fst entry) then []
       else
         flat_map
           (fun msg =>
              match JsMap.get (ChatMessage.id msg) (messageEmbeddings d) with
              | Some messageEmbedding =>
                  let sim := EmbedderModelManager.cosineSimilarity queryEmbedding messageEmbedding in
                  if leb (similarityThreshold (config d)) sim
                  then [ {| message := msg; similarity := sim |} ]
                  else []
              | None => []
              end)
           (snd entry))
    (messages d).

(** [(a, b) => b.similarity - a.similarity] is negative *)
Definition more_similar (a b : VectorSearchResult F) : bool :=
  ltb (sub (similarity b) (similarity a)) zero.

(** [limit] is [None] when the argument is left out (default 5). *)
Definition searchSimilarMessages (query : Query) (sessionId : option string)
           (limit : option Z) (w : World)
  : list (VectorSearchResult F) * World :=
  let w := initialize w in
  let limit := ChatSession.or_else limit 5 in
  let '(queryEmbedding, mgr) :=
    match query with
    | Text text => EmbedderModelManager.embed text (embedder w)
    | Vector v => (Some v, embedder w)
    end in
  let w := {| db := db w; device := device w; embedder := mgr |} in
  match queryEmbedding with
  | Some q =>
      let results := JsArray.sort more_similar (candidates q sessionId (db w)) in
      (Js.slice 0 (Some limit) results, w)
  | None =>
      (* the embedder threw: fallback text search *)
      (SimpleVectorStore.searchSimilarMessages (fallbackStore (db w)), w)
  end.

(** [cleanup].  The first loop walks the live map while [deleteSession]
    removes the entry being visited and no other, so it visits the
    entries the map had when the loop began. *)
Definition cleanup (now : Z) (w : World) : World :=
  let w := initialize w in
  let cutoffDate := now - maxAge (config (db w)) * 24 * 60 * 60 * 1000 in
  let w :=
    fold_left
      (fun w (entry : string * ChatSession.t) =>
         if ChatSession.createdAt (snd entry) <? cutoffDate
         then deleteSession (fst entry) w else w)
      (sessions (db w)) w in
  let sorted := by_recency (JsMap.values (sessions (db w))) in
  let w :=
    if maxSessions (config (db w)) <? Z.of_nat (List.length sorted)
    then
      fold_left (fun w session => deleteSession (ChatSession.id session) w)
                (Js.slice (maxSessions (config (db w))) None sorted) w
    else w in
  saveToStorage w.

Definition exportData (w : World) : Snapshot * World :=
  let w := initialize w in
  let d := db w in
  ({| snap_sessions := Some (JsMap.values (sessions d));
      snap_messages := Some (JsObject.fromEntries (messages d));
      snap_embeddings := Some (JsObject.fromEntries (messageEmbeddings d)) |},
   w).

Definition importData (data : Snapshot) (w : World) : World :=
  let w := initialize w in
  let d := db w in
  let sessions' :=
    match snap_sessions data with
    | Some l => JsMap.of_entries (map (fun s => (ChatSession.id s, s)) l)
    | None => sessions d
    end in
  let messages' :=
    match snap_messages data with
    | Some o => JsMap.of_entries (JsObject.entries o)
    | None => messages d
    end in
  let embeddings' :=
    match snap_embeddings data with
    | Some o =>
        JsMap.of_entries
          (map (fun e => (fst e, map fround (snd e))) (JsObject.entries o))
    | None => messageEmbeddings d
    end in
  saveToStorage (with_db (with_maps sessions' messages' embeddings' d) w).

(** [getStats]: [now] is read only when there is no session. *)
Definition getStats (now : Z) (w : World) : SessionStats * World :=
  let w := initialize w in
  let d := db w in
  ({| totalSessions := JsMap.size (sessions d);
      totalMessages := count_messages (JsMap.values (messages d));
      storageUsed := 0;
      oldestSession :=
        oldest_or now (map ChatSession.createdAt (JsMap.values (sessions d))) |},
   w).
End Ops.
Arguments t : clear implicits.
Arguments World : clear implicits.
Arguments Snapshot : clear implicits.
Arguments Query : clear implicits.
Arguments Started : clear implicits.
End LightVectorDB.

(** ** EmbedderModelManager.ts: downloading, selecting and deleting models

    [availableModels] is an array of objects that the methods change in
    place, and [currentModel] points to one of them.  A model here is the
    part that the engine reads ([EmbedderModelManager.EmbedderModel]) with
    its two flags; [manager] holds [currentModel] and [embeddingFunction]
    as before, and the flags of the current model are those of the array
    element with its id.  What the file system and the network answer is an
    argument of the operation; a thrown error is the [Some] of the result,
    next to the state the manager is left in. *)
Module EmbedderModelManagerService.
Import EmbedderModelManager.

Record Model : Type := {
  model : EmbedderModel;
  isInstalled : bool;
  isActive : bool
}.

Definition is_builtin (m : EmbedderModel) : bool :=
  String.eqb (id m) "simple-builtin".

Record t : Type := {
  manager : EmbedderModelManager.t;
  models : list Model
}.

(** [constructor]: only the built-in model is installed and active. *)
Definition new : t :=
  {| manager := EmbedderModelManager.new;
     models :=
       map (fun m => {| model := m; isInstalled := is_builtin m;
                        isActive := is_builtin m |})
           availableModels |}.

Inductive Error : Type :=
| NotFound            (* Model ... not found *)
| BuiltIn             (* Built-in model cannot be downloaded / deleted *)
| AlreadyInstalled
| NotInstalled
| DownloadFailed      (* the request threw or its status was not 200 *)
| DeleteFailed.       (* [FileSystem.deleteAsync] threw *)

(** [this.availableModels.find(m => m.id === modelId)] *)
Definition find_entry (modelId : string) (st : t) : option Model :=
  find (fun m => String.eqb (id (model m)) modelId) (models st).

(** [model.isInstalled = v] on the object that [find] returned. *)
Fixpoint with_installed (modelId : string) (v : bool) (ms : list Model)
  : list Model :=
  match ms with
  | [] => []
  | m :: rest =>
      if String.eqb (id (model m)) modelId
      then {| model := model m; isInstalled := v; isActive := isActive m |} :: rest
      else m :: with_installed modelId v rest
  end.

(** [this.availableModels.forEach(m => m.isActive = m.id === modelId)] *)
Definition with_active (modelId : string) (ms : list Model) : list Model :=
  map (fun m => {| model := model m; isInstalled := isInstalled m;
                   isActive := String.eqb (id (model m)) modelId |})
      ms.

(** [loadStatus]; [saved] is the [currentModelId] that was read. *)
Definition loadStatus (saved : option string) (st : t) : t :=
  match saved with
  | Some modelId =>
      if String.eqb modelId "" then st
      else
        match find_entry modelId st with
        | Some m =>
            {| manager :=
                 {| currentModel := Some (model m);
                    embeddingFunction := embeddingFunction (manager st) |};
               models := with_active modelId (models st) |}
        | None => st
        end
  | None => st
  end.

(** [updateInstalledStatus]; [fileExists] answers for the file of a
    model. *)
Definition updateInstalledStatus (fileExists : EmbedderModel -> bool) (st : t)
  : t :=
  {| manager := manager st;
     models :=
       map (fun m =>
              {| model := model m;
                 isInstalled :=
                   if is_builtin (model m) then true else fileExists (model m);
                 isActive := isActive m |})
           (models st) |}.

(** [initialize], when the directory calls come back. *)
Definition initialize (saved : option string)
           (fileExists : EmbedderModel -> bool) (st : t) : t :=
  updateInstalledStatus fileExists (loadStatus saved st).

(** [downloadModel]; [download] is the status of the response, [None]
    when the request throws. *)
Definition downloadModel (modelId : string) (download : option Z) (st : t)
  : option Error * t :=
  match find_entry modelId st with
  | None => (Some NotFound, st)
  | Some m =>
      if is_builtin (model m) then (Some BuiltIn, st)
      else if isInstalled m then (Some AlreadyInstalled, st)
      else
        match download with
        | Some status =>
            if status =? 200
            then (None, {| manager := manager st;
                           models := with_installed modelId true (models st) |})
            else (Some DownloadFailed, st)
        | None => (Some DownloadFailed, st)
        end
  end.

Section Device.
Context {F : Type}.

(** [saveStatus]: [{ currentModelId: this.currentModel?.id || null }]
    under the key [embedder_model_status]; a failed write is caught. *)
Definition saveStatus (st : t) (dev : AsyncStorage.t F) : AsyncStorage.t F :=
  let currentModelId :=
    match currentModel (manager st) with
    | Some m => if String.eqb (id m) "" then None else Some (id m)
    | None => None
    end in
  {| AsyncStorage.item := AsyncStorage.item dev;
     AsyncStorage.embedderStatus :=
       if AsyncStorage.fails dev (AsyncStorage.calls dev)
       then AsyncStorage.embedderStatus dev
       else currentModelId;
     AsyncStorage.calls := S (AsyncStorage.calls dev);
     AsyncStorage.fails := AsyncStorage.fails dev |}.

Definition selectModel (modelId : string) (st : t) (dev : AsyncStorage.t F)
  : option Error * t * AsyncStorage.t F :=
  match find_entry modelId st with
  | None => (Some NotFound, st, dev)
  | Some m =>
      if negb (isInstalled m) then (Some NotInstalled, st, dev)
      else
        let st :=
          {| manager :=
               initializeEmbeddingFunction (model m)
                 {| currentModel := Some (model m);
                    embeddingFunction := embeddingFunction (manager st) |};
             models := with_active modelId (models st) |} in
        (None, st, saveStatus st dev)
  end.

(** [deleteModel]; [deleted] tells whether [FileSystem.deleteAsync] came
    back. *)
Definition deleteModel (modelId : string) (deleted : bool) (st : t)
           (dev : AsyncStorage.t F) : option Error * t * AsyncStorage.t F :=
  match find_entry modelId st with
  | None => (Some NotFound, st, dev)
  | Some m =>
      if is_builtin (model m) then (Some BuiltIn, st, dev)
      else if negb (isInstalled m) then (Some NotInstalled, st, dev)
      else
        let '(thrown, st, dev) :=
          if isActive m then selectModel "simple-builtin" st dev
          else (None, st, dev) in
        match thrown with
        | Some e => (Some e, st, dev)
        | None =>
            if deleted
            then (None,
                  {| manager := manager st;
                     models := with_installed modelId false (models st) |},
                  dev)
            else (Some DeleteFailed, st, dev)
        end
  end.
End Device.

Section Embed.
Context {F : Type} `{JsNumber F}.

Definition embed (text : string) (st : t) : option (list F) * t :=
  let '(v, mgr) := EmbedderModelManager.embed text (manager st) in
  (v, {| manager := mgr; models := models st |}).
End Embed.
End EmbedderModelManagerService.

(** ** utils/logger.ts

    The [data] of an entry is carried along and never inspected; it is left
    out.  The listeners and the console only read what they are given. *)
Module Logger.

Inductive level : Type := info | warn | error | debug | success.

Record LogEntry : Type := {
  id : string;
  timestamp : Z;
  level_of : level;
  message : string
}.

Record t : Type := {
  logs : list LogEntry;
  isEmitting : bool
}.

Definition maxLogs : Z := 1000.

Definition new : t := {| logs := []; isEmitting := false |}.

Definition generateId (now : Z) (rnd : string) : string :=
  "log_" ++ Js.decimal now ++ "_" ++ rnd.

(** [addLog].  [returned] tells whether the listeners and the console call
    came back: when one of them throws, the last statement,
    [this.isEmitting = false], is not reached. *)
Definition addLog (lv : level) (msg : string) (t_id : Z) (rnd : string)
           (t_stamp : Z) (returned : bool) (lg : t) : t :=
  if isEmitting lg then lg
  else
    let log := {| id := generateId t_id rnd; timestamp := t_stamp;
                  level_of := lv; message := msg |} in
    let pushed := (logs lg ++ [log])%list in
    {| logs := if maxLogs <? Z.of_nat (List.length pushed)
               then Js.slice (- maxLogs) None pushed
               else pushed;
       isEmitting := negb returned |}.

Definition getLogs (lg : t) : list LogEntry := logs lg.

Definition clearLogs (lg : t) : t :=
  {| logs := []; isEmitting := isEmitting lg |}.
End Logger.

(** ** The chat context: [chatReducer]

    The reducer of the provider that sits on top of the store. *)
Module ChatContext.
Section Reducer.
Context {F : Type}.

Record ChatUIState : Type := {
  currentSessionId : option string;
  sessions : list ChatSession.t;
  messages : list (ChatMessage.t F);
  isHistoryPanelOpen : bool;
  isLoading : bool;
  isGenerating : bool;
  error : option string
}.

Inductive ChatAction : Type :=
| SET_SESSIONS (sessions : list ChatSession.t)
| SET_CURRENT_SESSION (sessionId : option string)
| SET_MESSAGES (messages : list (ChatMessage.t F))
| ADD_MESSAGE (message : ChatMessage.t F)
| UPDATE_MESSAGE (messageId : string) (updates : ChatMessage.partial F)
| REMOVE_MESSAGE (messageId : string)
| SET_LOADING (loading : bool)
| SET_GENERATING (generating : bool)
| SET_ERROR (error : option string)
| TOGGLE_HISTORY_PANEL
| UPDATE_SESSION (sessionId : string) (updates : ChatSession.partial).

Definition initialState : ChatUIState :=
  {| currentSessionId := None; sessions := []; messages := [];
     isHistoryPanelOpen := false; isLoading := false; isGenerating := false;
     error := None |}.

Definition with_messages (msgs : list (ChatMessage.t F)) (state : ChatUIState)
  : ChatUIState :=
  {| currentSessionId := currentSessionId state; sessions := sessions state;
     messages := msgs;
     isHistoryPanelOpen := isHistoryPanelOpen state;
     isLoading := isLoading state; isGenerating := isGenerating state;
     error := error state |}.

Definition with_sessions (listed : list ChatSession.t) (state : ChatUIState)
  : ChatUIState :=
  {| currentSessionId := currentSessionId state; sessions := listed;
     messages := messages state;
     isHistoryPanelOpen := isHistoryPanelOpen state;
     isLoading := isLoading state; isGenerating := isGenerating state;
     error := error state |}.

Definition chatReducer (state : ChatUIState) (action : ChatAction)
  : ChatUIState :=
  match action with
  | SET_SESSIONS listed => with_sessions listed state
  | SET_CURRENT_SESSION sessionId =>
      {| currentSessionId := sessionId; sessions := sessions state;
         messages := messages state;
         isHistoryPanelOpen := isHistoryPanelOpen state;
         isLoading := isLoading state; isGenerating := isGenerating state;
         error := error state |}
  | SET_MESSAGES msgs => with_messages msgs state
  | ADD_MESSAGE message =>
      if existsb (fun m => String.eqb (ChatMessage.id m) (ChatMessage.id message))
                 (messages state)
      then state
      else with_messages (messages state ++ [message])%list state
  | UPDATE_MESSAGE messageId updates =>
      with_messages
        (map (fun msg => if String.eqb (ChatMessage.id msg) messageId
                         then ChatMessage.merged msg updates else msg)
             (messages state))
        state
  | REMOVE_MESSAGE messageId =>
      with_messages
        (filter (fun msg => negb (String.eqb (ChatMessage.id msg) messageId))
                (messages state))
        state
  | SET_LOADING loading =>
      {| currentSessionId := currentSessionId state; sessions := sessions state;
         messages := messages state;
         isHistoryPanelOpen := isHistoryPanelOpen state;
         isLoading := loading; isGenerating := isGenerating state;
         error := error state |}
  | SET_GENERATING generating =>
      {| currentSessionId := currentSessionId state; sessions := sessions state;
         messages := messages state;
         isHistoryPanelOpen := isHistoryPanelOpen state;
         isLoading := isLoading state; isGenerating := generating;
         error := error state |}
  | SET_ERROR err =>
      {| currentSessionId := currentSessionId state; sessions := sessions state;
         messages := messages state;
         isHistoryPanelOpen := isHistoryPanelOpen state;
         isLoading := isLoading state; isGenerating := isGenerating state;
         error := err |}
  | TOGGLE_HISTORY_PANEL =>
      {| currentSessionId := currentSessionId state; sessions := sessions state;
         messages := messages state;
         isHistoryPanelOpen := negb (isHistoryPanelOpen state);
         isLoading := isLoading state; isGenerating := isGenerating state;
         error := error state |}
  | UPDATE_SESSION sessionId updates =>
      with_sessions
        (map (fun session => if String.eqb (ChatSession.id session) sessionId
                             then ChatSession.merged session updates
                             else session)
             (sessions state))
        state
  end.
End Reducer.
Arguments ChatUIState : clear implicits.
Arguments ChatAction : clear implicits.
End ChatContext.

(** ** Vocabulary of the statements *)
Module Spec.
Import LightVectorDB.
Section Vocabulary.
Context {F : Type} `{JsNumber F}.

(** The store an operation works on: every method starts with
    [await this.initialize()], which loads the saved state the first
    time and does nothing afterwards. *)
Definition observed (w : World F) : LightVectorDB.t F := db (initialize w).



(** Every session is stored under its own id. *)
Definition keyed_by_id (m : JsMap.t ChatSession.t) : Prop :=
  forall k session, In (k, session) m -> ChatSession.id session = k.

(** The shape that the operations keep: the three lists stand for [Map]s
    and every session is stored under its own id. *)
Definition structured (d : LightVectorDB.t F) : Prop :=
  JsMap.ok (sessions d) /\ JsMap.ok (messages d)
  /\ JsMap.ok (messageEmbeddings d) /\ keyed_by_id (sessions d).

(** The stored vectors are [Float32Array] contents: storing them again
    changes nothing. *)
Definition float32_values (e : JsMap.t (list F)) : Prop :=
  forall k v, In (k, v) e -> map fround v = v.

(** The message array that [addMessage] scans. *)
Definition scanned (data : MessageData.t) (w : World F) : list (ChatMessage.t F) :=
  ChatSession.or_else
    (JsMap.get (MessageData.sessionId data) (messages (observed w))) [].

(** The session record after a message was pushed. *)
Definition touched (data : MessageData.t) (now : Z) (count : nat)
           (session : ChatSession.t) : ChatSession.t :=
  {| ChatSession.id := ChatSession.id session;
     ChatSession.title := ChatSession.title session;
     ChatSession.preview := truncateContent (MessageData.content data);
     ChatSession.createdAt := ChatSession.createdAt session;
     ChatSession.updatedAt := now;
     ChatSession.messageCount := Z.of_nat count |}.



(** The entry survives the deletion of the listed ids. *)
Definition not_listed (ids : list string) (entry : string * ChatSession.t) : bool :=
  negb (existsb (String.eqb (fst entry)) ids).

(** The ids removed by the two loops of [cleanup]: the sessions created
    before the cutoff, then the least recently updated beyond the cap. *)
Definition too_old (cutoffDate : Z) (entry : string * ChatSession.t) : bool :=
  ChatSession.createdAt (snd entry) <? cutoffDate.

Definition aged_out (cutoffDate : Z) (m : JsMap.t ChatSession.t) : list string :=
  map fst (filter (too_old cutoffDate) m).

Definition over_cap (cap : Z) (m : JsMap.t ChatSession.t) : list string :=
  let sorted := by_recency (JsMap.values m) in
  if cap <? Z.of_nat (List.length sorted)
  then map ChatSession.id (Js.slice cap None sorted)
  else [].

(** The same test on a session, by its [id] field. *)
Definition id_not_listed (ids : list string) (session : ChatSession.t) : bool :=
  negb (existsb (String.eqb (ChatSession.id session)) ids).

(** The vector a search compares the stored vectors with: the query itself,
    or its embedding ([None] when the embedder throws). *)
Definition query_embedding (query : Query F) (w : World F) : option (list F) :=
  match query with
  | Text text => fst (EmbedderModelManager.embed text (embedder (initialize w)))
  | Vector v => Some v
  end.

(** The limit in force: 5 when the argument is left out. *)
Definition limit_in_force (limit : option Z) : Z := ChatSession.or_else limit 5.

(** A well-formed store: the three lists stand for [Map]s (no key twice),
    sessions are stored under their id, and the vectors are [Float32Array]
    contents. *)
Record well_formed (d : LightVectorDB.t F) : Prop := {
  wf_sessions : JsMap.ok (sessions d);
  wf_messages : JsMap.ok (messages d);
  wf_embeddings : JsMap.ok (messageEmbeddings d);
  wf_keyed : keyed_by_id (sessions d);
  wf_float32 : float32_values (messageEmbeddings d)
}.
End Vocabulary.
End Spec.

(** ** Vectors over the reals: the quantities the statements speak of *)
Module Vec.

(** In the arithmetic of the program, whichever it is: the dot product and
    the magnitude as the loops compute them, left to right. *)
Definition dot_product {F} `{JsNumber F} (a b : list F) : F :=
  fold_left (fun acc p => add acc (mul (fst p) (snd p))) (combine a b) zero.

Definition magnitude {F} `{JsNumber F} (v : list F) : F :=
  sqrt (EmbedderModelManager.sum_squares v).

Local Open Scope R_scope.

Fixpoint dot (a b : list R) : R :=
  match a, b with
  | x :: a', y :: b' => x * y + dot a' b'
  | _, _ => 0
  end.

(** The Euclidean norm. *)
Definition norm (a : list R) : R := R_sqrt.sqrt (dot a a).

Fixpoint total (a : list R) : R :=
  match a with
  | [] => 0
  | x :: a' => x + total a'
  end.

(** The vector of length [n] that is 1 at position [i] and 0 elsewhere. *)
Definition basis (n i : nat) : list R :=
  (repeat 0 i ++ 1 :: repeat 0 (n - i - 1))%list.
End Vec.

(** ** Concrete stores

    Small worlds on the IEEE instance, built by running the operations;
    the statements below are evaluated on them. *)
Module Examples.
Import Ieee LightVectorDB.

Definition device0 : AsyncStorage.t spec_float :=
  {| AsyncStorage.item := AsyncStorage.Absent;
     AsyncStorage.embedderStatus := None;
     AsyncStorage.calls := 0;
     AsyncStorage.fails := fun _ => false |}.

(** A device on which every call throws. *)
Definition broken_device : AsyncStorage.t spec_float :=
  {| AsyncStorage.item := AsyncStorage.Absent;
     AsyncStorage.embedderStatus := None;
     AsyncStorage.calls := 0;
     AsyncStorage.fails := fun _ => true |}.

Definition fresh : World spec_float :=
  {| db := new defaultConfig; device := device0;
     embedder := EmbedderModelManager.new |}.

Definition hello (sid : string) : MessageData.t :=
  {| MessageData.sessionId := sid;
     MessageData.role_of := ChatMessage.user;
     MessageData.content := "Hello there" |}.

Definition other (sid : string) : MessageData.t :=
  {| MessageData.sessionId := sid;
     MessageData.role_of := ChatMessage.assistant;
     MessageData.content := "General Kenobi" |}.

(** [createSession("Trip Planning")] at time 1700. *)
Definition trip_created : ChatSession.t * World spec_float :=
  createSession (Some "Trip Planning") 1700 "k3j9x0q2a" 1700 1700 fresh.

Definition trip : string := ChatSession.id (fst trip_created).

(** One message in the session, added at time 2000. *)
Definition trip_hello : ChatMessage.t spec_float * World spec_float :=
  addMessage (hello trip) 2000 "p0o9i8u7y6t5" (snd trip_created).

(** A store whose fallback holds a session that the primary does not. *)
Definition fallback_session : ChatSession.t * SimpleVectorStore.t spec_float :=
  SimpleVectorStore.createSession (Some "Offline") 900 "f4llb4ck0" 900 900
    SimpleVectorStore.new.

(** The same store on a device whose every call throws. *)
Definition trip_offline : World spec_float :=
  {| db := db (snd trip_created); device := broken_device;
     embedder := EmbedderModelManager.new |}.

(** The message count that [getSession] reports. *)
Definition count_of (sid : string) (w : World spec_float) : option Z :=
  option_map ChatSession.messageCount (fst (getSession sid w)).

(** The same session and message with numbers read as reals. *)
Definition exact_fresh : World R :=
  {| db := new defaultConfig;
     device := {| AsyncStorage.item := AsyncStorage.Absent;
                  AsyncStorage.embedderStatus := None;
                  AsyncStorage.calls := 0;
                  AsyncStorage.fails := fun _ => false |};
     embedder := EmbedderModelManager.new |}.

Definition exact_trip_hello : World R :=
  snd (addMessage (hello trip) 2000 "p0o9i8u7y6t5"
         (snd (createSession (Some "Trip Planning") 1700 "k3j9x0q2a" 1700 1700
                             exact_fresh))).

Definition with_offline_session : World spec_float :=
  {| db := with_fallback (snd fallback_session) (db (snd trip_created));
     device := device0;
     embedder := EmbedderModelManager.new |}.

(** A partial that renames the chat, and one that overwrites the count. *)
Definition rename (title : string) : ChatSession.partial :=
  {| ChatSession.new_id := None; ChatSession.new_title := Some title;
     ChatSession.new_preview := None; ChatSession.new_createdAt := None;
     ChatSession.new_updatedAt := None; ChatSession.new_messageCount := None |}.



End Examples.

(** ** More vocabulary: the manager's catalogue, runs of the logger and of
    the reducer *)
Module Vocabulary.
Import EmbedderModelManager EmbedderModelManagerService.

(** The models of the manager are those of [availableModels], in its
    order: no method adds, removes or reorders them. *)
Definition catalogued (st : EmbedderModelManagerService.t) : Prop :=
  map model (models st) = availableModels.

(** A built-in model is marked as installed. *)
Definition builtin_installed (st : EmbedderModelManagerService.t) : Prop :=
  forall m, In m (models st) -> is_builtin (model m) = true -> isInstalled m = true.

(** One call of a logging method: the level and the message, the two
    readings of the clock and the random suffix that [addLog] takes, and
    whether the listeners came back. *)
Record LogCall : Type := {
  call_level : Logger.level;
  call_message : string;
  call_id_time : Z;
  call_random : string;
  call_time : Z;
  call_returned : bool
}.

(** The entry that a call pushes. *)
Definition logged (c : LogCall) : Logger.LogEntry :=
  {| Logger.id := Logger.generateId (call_id_time c) (call_random c);
     Logger.timestamp := call_time c;
     Logger.level_of := call_level c;
     Logger.message := call_message c |}.

Definition log (lg : Logger.t) (c : LogCall) : Logger.t :=
  Logger.addLog (call_level c) (call_message c) (call_id_time c)
                (call_random c) (call_time c) (call_returned c) lg.

(** The last [n] elements of a list. *)
Definition last_n {A} (n : nat) (l : list A) : list A :=
  skipn (List.length l - n) l.

(** A message without its [embedding], and a message map without the
    embeddings of its messages. *)
Definition unembedded {F} (msg : ChatMessage.t F) : ChatMessage.t F :=
  {| ChatMessage.id := ChatMessage.id msg;
     ChatMessage.sessionId := ChatMessage.sessionId msg;
     ChatMessage.role_of := ChatMessage.role_of msg;
     ChatMessage.content := ChatMessage.content msg;
     ChatMessage.timestamp := ChatMessage.timestamp msg;
     ChatMessage.embedding := None |}.

Definition texts {F} (m : JsMap.t (list (ChatMessage.t F)))
  : JsMap.t (list (ChatMessage.t F)) :=
  map (fun e => (fst e, map unembedded (snd e))) m.

(** An embedding index whose every component has gone through the saved
    text and into a [Float32Array] again. *)
Definition reloaded {F} `{JsNumber F} (e : JsMap.t (list F)) : JsMap.t (list F) :=
  map (fun entry => (fst entry, map (fun x => fround (json x)) (snd entry))) e.

(** The actions under which the reducer keeps the message ids distinct:
    all but [SET_MESSAGES], whose list is the caller's, and an
    [UPDATE_MESSAGE] that overwrites the id. *)
Definition keeps_ids {F} (action : ChatContext.ChatAction F) : bool :=
  match action with
  | ChatContext.SET_MESSAGES _ => false
  | ChatContext.UPDATE_MESSAGE _ updates =>
      match ChatMessage.new_id updates with
      | Some _ => false
      | None => true
      end
  | _ => true
  end.
End Vocabulary.

(** ** More concrete states *)
Module Samples.
Import Ieee.

(** The id of the message of [Examples.trip_hello]. *)
Definition hello_id : string := ChatMessage.id (fst Examples.trip_hello).

(** A store, with numbers read as reals, in a process whose manager has
    embedded before with the built-in model. *)
Definition exact_ready : LightVectorDB.World R :=
  {| LightVectorDB.db := LightVectorDB.new LightVectorDB.defaultConfig;
     LightVectorDB.device := LightVectorDB.device Examples.exact_fresh;
     LightVectorDB.embedder :=
       {| EmbedderModelManager.currentModel :=
            EmbedderModelManager.find_model "simple-builtin";
          EmbedderModelManager.embeddingFunction := Some 128%nat |} |}.

(** A fallback store with two sessions and one message in the older one. *)
Definition offline_pair : SimpleVectorStore.t spec_float :=
  snd (SimpleVectorStore.addMessage
         (Examples.hello (ChatSession.id (fst Examples.fallback_session)))
         960 "m3ss4g3x"
         (snd (SimpleVectorStore.createSession (Some "Later") 950 "l4t3r0000"
                 950 950 (snd Examples.fallback_session)))).

(** The store of [Examples.trip_hello] after an import that adds a vector
    with [NaN], [-0], [Infinity] and 0.5 to the index. *)
Definition odd_vectors : LightVectorDB.World spec_float :=
  LightVectorDB.importData
    {| LightVectorDB.snap_sessions := None;
       LightVectorDB.snap_messages := None;
       LightVectorDB.snap_embeddings :=
         Some (JsObject.fromEntries
                 (LightVectorDB.messageEmbeddings
                    (LightVectorDB.db (snd Examples.trip_hello))
                  ++ [("m1", [S754_nan; S754_zero true; S754_infinity false;
                              S754_finite false 1 (-1)])])) |}
    (snd Examples.trip_hello).

(** A partial that carries an id. *)
Definition reidentify (id : string) : ChatSession.partial :=
  {| ChatSession.new_id := Some id; ChatSession.new_title := None;
     ChatSession.new_preview := None; ChatSession.new_createdAt := None;
     ChatSession.new_updatedAt := None; ChatSession.new_messageCount := None |}.

(** A new store that keeps one session at most. *)
Definition single : LightVectorDB.World spec_float :=
  {| LightVectorDB.db :=
       LightVectorDB.new
         {| maxMessagesPerSession := 100;
            embeddingDimensions := 128;
            similarityThreshold := similarityThreshold LightVectorDB.defaultConfig;
            maxStorageMB := 25;
            maxAge := 30;
            maxSessions := 1 |};
     LightVectorDB.device := Examples.device0;
     LightVectorDB.embedder := EmbedderModelManager.new |}.

(** Two sessions, created at 1700 and at 1900, in a store [w]; and the
    same with [updateSession(trip, {id: "zzz"})] at 1800 in between. *)
Definition pair (w : LightVectorDB.World spec_float) : LightVectorDB.World spec_float :=
  snd (LightVectorDB.createSession (Some "Later") 1900 "l4t3r0000" 1900 1900
         (snd (LightVectorDB.createSession (Some "Trip Planning") 1700
                 "k3j9x0q2a" 1700 1700 w))).

Definition pair_misfiled (w : LightVectorDB.World spec_float)
  : LightVectorDB.World spec_float :=
  snd (LightVectorDB.createSession (Some "Later") 1900 "l4t3r0000" 1900 1900
         (LightVectorDB.updateSession Examples.trip (reidentify "zzz") 1800
            (snd (LightVectorDB.createSession (Some "Trip Planning") 1700
                    "k3j9x0q2a" 1700 1700 w)))).

(** Two sessions whose [id] fields were both overwritten with ["zzz"]. *)
Definition both_misfiled : LightVectorDB.World spec_float :=
  LightVectorDB.updateSession "session_1900_l4t3r0000" (reidentify "zzz") 2100
    (LightVectorDB.updateSession Examples.trip (reidentify "zzz") 2000
       (pair Examples.fresh)).
(** A store that asks for similarity 1, with the message "Hi" in a session. *)
Definition exacting : LightVectorDB.World spec_float :=
  let w :=
    {| LightVectorDB.db :=
         LightVectorDB.new
           {| maxMessagesPerSession := 100;
              embeddingDimensions := 128;
              similarityThreshold := one;
              maxStorageMB := 25;
              maxAge := 30;
              maxSessions := 50 |};
       LightVectorDB.device := Examples.device0;
       LightVectorDB.embedder := EmbedderModelManager.new |} in
  snd (LightVectorDB.addMessage
         {| MessageData.sessionId := Examples.trip;
            MessageData.role_of := ChatMessage.user;
            MessageData.content := "Hi" |}
         2000 "p0o9i8u7y6t5"
         (snd (LightVectorDB.createSession (Some "Trip Planning") 1700
                 "k3j9x0q2a" 1700 1700 w))).
(** The manager after the download of a model, and after switching to
    it. *)
Definition downloaded : EmbedderModelManagerService.t :=
  snd (EmbedderModelManagerService.downloadModel
         "all-mpnet-base-v2" (Some 200) EmbedderModelManagerService.new).

Definition switched
  : option EmbedderModelManagerService.Error * EmbedderModelManagerService.t
    * AsyncStorage.t spec_float :=
  EmbedderModelManagerService.selectModel "all-mpnet-base-v2" downloaded
                                          Examples.device0.

(** Calls of [logger.info] at successive times. *)
Definition tick (n : nat) : Vocabulary.LogCall :=
  {| Vocabulary.call_level := Logger.info;
     Vocabulary.call_message := "tick";
     Vocabulary.call_id_time := Z.of_nat n;
     Vocabulary.call_random := "k3j9x0q2a";
     Vocabulary.call_time := Z.of_nat n;
     Vocabulary.call_returned := true |}.

Definition ticks (n : nat) : list Vocabulary.LogCall := map tick (seq 0 n).

(** The screen that shows the session of [Examples.trip_hello]. *)
Definition screen : ChatContext.ChatUIState spec_float :=
  ChatContext.chatReducer
    (ChatContext.chatReducer ChatContext.initialState
       (ChatContext.SET_CURRENT_SESSION (Some Examples.trip)))
    (ChatContext.SET_MESSAGES
       (fst (LightVectorDB.getMessages Examples.trip None
               (snd Examples.trip_hello)))).
End Samples.

(* ====================================================================== *)
(** * Part II: properties *)
(* ====================================================================== *)

(** ** Facts about [Map] *)
Module JsMapFacts.
Section Facts.
Context {V : Type}.
Implicit Types (m : JsMap.t V) (k : string) (v : V).

Lemma get_set_eq k v m : JsMap.get k (JsMap.set k v m) = Some v.
Proof.
  induction m as [|[k' v'] m IH]; simpl.
  - now rewrite String.eqb_refl.
  - destruct (String.eqb k k') eqn:E; simpl.
    + now rewrite String.eqb_refl.
    + now rewrite E.
Qed.

Lemma get_set_ne k k' v m :
  k <> k' -> JsMap.get k' (JsMap.set k v m) = JsMap.get k' m.
Proof.
  intros Hne. induction m as [|[k0 v0] m IH]; simpl.
  - destruct (String.eqb k' k) eqn:E; [|reflexivity].
    apply String.eqb_eq in E. congruence.
  - destruct (String.eqb k k0) eqn:E; simpl.
    + apply String.eqb_eq in E. subst k0.
      destruct (String.eqb k' k) eqn:E'; [|reflexivity].
      apply String.eqb_eq in E'. congruence.
    + now rewrite IH.
Qed.


Lemma get_delete_eq k m : JsMap.get k (JsMap.delete k m) = None.
Proof.
  induction m as [|[k' v'] m IH]; simpl; [reflexivity|].
  destruct (String.eqb k k') eqn:E; simpl; [assumption|].
  now rewrite E.
Qed.


Lemma get_In k v m : JsMap.get k m = Some v -> In (k, v) m.
Proof.
  induction m as [|[k' v'] m IH]; simpl; [discriminate|].
  destruct (String.eqb k k') eqn:E.
  - apply String.eqb_eq in E. intros [= ->]. left. now subst.
  - intros Hg. right. auto.
Qed.

Lemma get_None_keys k m : JsMap.get k m = None <-> ~ In k (JsMap.keys m).
Proof.
  induction m as [|[k' v'] m IH]; simpl.
  - tauto.
  - destruct (String.eqb k k') eqn:E.
    + apply String.eqb_eq in E. subst. split; [discriminate|tauto].
    + apply String.eqb_neq in E. rewrite IH. split.
      * intros Hn [Heq|Hin]; [congruence|tauto].
      * tauto.
Qed.

Lemma In_get k v m : JsMap.ok m -> In (k, v) m -> JsMap.get k m = Some v.
Proof.
  unfold JsMap.ok. induction m as [|[k' v'] m IH]; simpl; [tauto|].
  intros Hnd [Heq|Hin].
  - injection Heq as -> ->. now rewrite String.eqb_refl.
  - inversion Hnd as [|? ? Hnotin Hnd']; subst.
    destruct (String.eqb k k') eqn:E; [|auto].
    apply String.eqb_eq in E. subst k'. exfalso. apply Hnotin.
    change (In k (JsMap.keys m)). unfold JsMap.keys.
    apply in_map_iff. now exists (k, v).
Qed.

Lemma In_delete k e m :
  In e (JsMap.delete k m) <-> In e m /\ fst e <> k.
Proof.
  unfold JsMap.delete. rewrite filter_In. split.
  - intros [Hin Hb]. split; [assumption|].
    apply negb_true_iff in Hb. apply String.eqb_neq in Hb. congruence.
  - intros [Hin Hne]. split; [assumption|].
    apply negb_true_iff. apply String.eqb_neq. congruence.
Qed.

Lemma In_set k v e m :
  In e (JsMap.set k v m) -> e = (k, v) \/ In e m.
Proof.
  induction m as [|[k' v'] m IH]; simpl.
  - intros [<-|[]]. now left.
  - destruct (String.eqb k k'); simpl.
    + intros [<-|Hin]; [now left|right; now right].
    + intros [<-|Hin]; [right; now left|].
      destruct (IH Hin) as [->|Hin']; [now left|right; now right].
Qed.

Lemma keys_set_In k k' v m :
  In k' (JsMap.keys (JsMap.set k v m)) <-> k' = k \/ In k' (JsMap.keys m).
Proof.
  induction m as [|[k0 v0] m IH]; simpl.
  - intuition congruence.
  - destruct (String.eqb k k0) eqn:E; simpl.
    + apply String.eqb_eq in E. subst. intuition congruence.
    + rewrite IH. intuition congruence.
Qed.

Lemma set_ok k v m : JsMap.ok m -> JsMap.ok (JsMap.set k v m).
Proof.
  unfold JsMap.ok. induction m as [|[k0 v0] m IH]; simpl; intros Hnd.
  - constructor; [simpl; tauto|constructor].
  - inversion Hnd as [|? ? Hnotin Hnd']; subst.
    destruct (String.eqb k k0) eqn:E; simpl.
    + apply String.eqb_eq in E. subst. now constructor.
    + apply String.eqb_neq in E. constructor; [|auto].
      change (~ In k0 (JsMap.keys (JsMap.set k v m))).
      rewrite keys_set_In. intros [->|Hin]; [congruence|].
      now apply Hnotin.
Qed.

Lemma delete_ok k m : JsMap.ok m -> JsMap.ok (JsMap.delete k m).
Proof.
  unfold JsMap.ok, JsMap.delete, JsMap.keys.
  induction m as [|[k0 v0] m IH]; simpl; intros Hnd; [constructor|].
  inversion Hnd as [|? ? Hnotin Hnd']; subst.
  destruct (negb (String.eqb k k0)); simpl; [|auto].
  constructor; [|auto].
  intros Hin. apply Hnotin. apply in_map_iff in Hin.
  destruct Hin as [e [He Hin]]. apply filter_In in Hin.
  apply in_map_iff. exists e. tauto.
Qed.

(** Deleting a list of keys one after the other. *)
Lemma delete_all_filter (ks : list string) m :
  fold_left (fun acc k => JsMap.delete k acc) ks m
  = filter (fun e => negb (existsb (String.eqb (fst e)) ks)) m.
Proof.
  revert m. induction ks as [|k ks IH]; intros m; simpl.
  - induction m as [|e m IHm]; simpl; [reflexivity|]. now rewrite <- IHm.
  - rewrite IH. unfold JsMap.delete.
    induction m as [|e m IHm]; simpl; [reflexivity|].
    rewrite (String.eqb_sym (fst e) k).
    destruct (String.eqb k (fst e)); simpl; [assumption|].
    destruct (existsb (String.eqb (fst e)) ks); simpl; [assumption|].
    now rewrite IHm.
Qed.
End Facts.

(** A map or object built by inserting the entries of a list whose keys
    are distinct answers lookups as the list does. *)
Section Build.
Context {V : Type}.
Variable put : string -> V -> list (string * V) -> list (string * V).
Hypothesis get_put_eq : forall k v m, JsMap.get k (put k v m) = Some v.
Hypothesis get_put_ne :
  forall k k' v m, k <> k' -> JsMap.get k' (put k v m) = JsMap.get k' m.

Lemma get_build (entries : list (string * V)) :
  forall acc k,
    NoDup (map fst entries) ->
    JsMap.get k (fold_left (fun m e => put (fst e) (snd e) m) entries acc)
    = match JsMap.get k entries with
      | Some v => Some v
      | None => JsMap.get k acc
      end.
Proof.
  induction entries as [|[k0 v0] entries IH]; intros acc k Hnd; simpl.
  - reflexivity.
  - inversion Hnd as [|? ? Hnotin Hnd']; subst.
    rewrite IH by assumption.
    destruct (String.eqb k k0) eqn:E.
    + apply String.eqb_eq in E. subst k0.
      assert (Hn : JsMap.get k entries = None)
        by (apply get_None_keys; exact Hnotin).
      rewrite Hn. apply get_put_eq.
    + apply String.eqb_neq in E.
      destruct (JsMap.get k entries); [reflexivity|].
      apply get_put_ne. congruence.
Qed.
End Build.

Lemma get_of_entries {V} (entries : list (string * V)) k :
  JsMap.ok entries -> JsMap.get k (JsMap.of_entries entries) = JsMap.get k entries.
Proof.
  intros Hok.
  pose proof (get_build JsMap.set get_set_eq get_set_ne entries [] k Hok) as E.
  unfold JsMap.of_entries. etransitivity; [exact E|].
  now destruct (JsMap.get k entries).
Qed.
End JsMapFacts.

(** ** Facts about arrays: sorting, slicing, filtering *)
Module ArrayFacts.
Section Sorting.
Context {A : Type}.
Variable before : A -> A -> bool.

Lemma insert_permutation x (l : list A) :
  Permutation (JsArray.insert before x l) (x :: l).
Proof.
  induction l as [|y l IH]; simpl; [reflexivity|].
  destruct (before y x); [|reflexivity].
  rewrite IH. apply perm_swap.
Qed.

Lemma sort_permutation (l : list A) : Permutation (JsArray.sort before l) l.
Proof.
  induction l as [|x l IH]; simpl; [reflexivity|].
  rewrite insert_permutation. now constructor.
Qed.

Lemma sort_length (l : list A) :
  List.length (JsArray.sort before l) = List.length l.
Proof. apply Permutation_length, sort_permutation. Qed.

(** Stability: the elements that satisfy a test which the comparator never
    separates keep their order. *)
Lemma insert_filter (keep : A -> bool) x (l : list A) :
  (forall y, keep x = true -> keep y = true -> before y x = false) ->
  filter keep (JsArray.insert before x l) = filter keep (x :: l).
Proof.
  intros Htie. induction l as [|y l IH]; [reflexivity|].
  cbn [JsArray.insert]. destruct (before y x) eqn:E; [|reflexivity].
  cbn [filter] in *. rewrite IH.
  destruct (keep x) eqn:Ex; [|reflexivity].
  destruct (keep y) eqn:Ey; [|reflexivity].
  rewrite (Htie y eq_refl Ey) in E. discriminate.
Qed.

Lemma sort_filter (keep : A -> bool) (l : list A) :
  (forall x y, keep x = true -> keep y = true -> before y x = false) ->
  filter keep (JsArray.sort before l) = filter keep l.
Proof.
  intros Htie. induction l as [|x l IH]; [reflexivity|].
  cbn [JsArray.sort]. rewrite insert_filter by (intros y; apply Htie).
  cbn [filter]. now rewrite IH.
Qed.

(** Sortedness, for a comparator that is a strict weak order. *)
Hypothesis before_asym :
  forall x y, before x y = true -> before y x = false.
Hypothesis before_neg_trans :
  forall x y z, before x y = false -> before y z = false -> before x z = false.

Lemma insert_sorted x (l : list A) :
  StronglySorted (JsArray.not_after before) l ->
  StronglySorted (JsArray.not_after before) (JsArray.insert before x l).
Proof.
  induction 1 as [|y l Hsorted IH Hall]; simpl.
  - constructor; constructor.
  - destruct (before y x) eqn:E.
    + constructor; [exact IH|].
      rewrite Forall_forall in *. intros z Hz.
      apply (Permutation_in _ (insert_permutation x l)) in Hz.
      destruct Hz as [<-|Hz]; [|now apply Hall].
      now apply before_asym.
    + constructor; [now constructor|].
      constructor; [exact E|].
      rewrite Forall_forall in *. intros z Hz. unfold JsArray.not_after in *.
      apply before_neg_trans with y; [now apply Hall|exact E].
Qed.

Lemma sort_sorted (l : list A) :
  StronglySorted (JsArray.not_after before) (JsArray.sort before l).
Proof.
  induction l as [|x l IH]; simpl; [constructor|]. now apply insert_sorted.
Qed.
End Sorting.

Section Slicing.
Context {A : Type}.

Lemma slice_prefix (stop : Z) (l : list A) :
  Js.slice 0 (Some stop) l
  = firstn (Z.to_nat (Js.clamp_index (Z.of_nat (List.length l)) stop)) l.
Proof.
  unfold Js.slice. cbn [Js.clamp_index Z.ltb Z.compare].
  rewrite Z.min_l by lia. rewrite Z.sub_0_r. reflexivity.
Qed.

Lemma slice_prefix_length (stop : Z) (l : list A) :
  0 <= stop -> Z.of_nat (List.length (Js.slice 0 (Some stop) l)) <= stop.
Proof.
  intros Hstop. rewrite slice_prefix, length_firstn. unfold Js.clamp_index.
  destruct (stop <? 0) eqn:E; [apply Z.ltb_lt in E; lia|]. lia.
Qed.

Lemma slice_suffix (start : Z) (l : list A) :
  0 <= start ->
  Js.slice start None l = skipn (Z.to_nat start) l.
Proof.
  intros Hstart. unfold Js.slice, Js.clamp_index.
  destruct (start <? 0) eqn:E; [apply Z.ltb_lt in E; lia|].
  destruct (Z.le_gt_cases start (Z.of_nat (List.length l))) as [Hle|Hgt].
  - rewrite Z.min_l by lia. apply firstn_all2. rewrite length_skipn. lia.
  - rewrite Z.min_r by lia. rewrite Nat2Z.id.
    rewrite !skipn_all2 by lia. apply firstn_nil.
Qed.

Lemma filter_length_bound (keep : A -> bool) (l : list A) :
  (List.length (filter keep l) <= List.length l)%nat.
Proof.
  induction l as [|x l IH]; simpl; [lia|]. destruct (keep x); simpl; lia.
Qed.

Lemma filter_none (keep : A -> bool) (l : list A) :
  (forall x, In x l -> keep x = false) -> filter keep l = [].
Proof.
  induction l as [|x l IH]; intros Hall; simpl; [reflexivity|].
  rewrite (Hall x) by now left. apply IH. intros y Hy. apply Hall. now right.
Qed.

Lemma filter_all (keep : A -> bool) (l : list A) :
  (forall x, In x l -> keep x = true) -> filter keep l = l.
Proof.
  induction l as [|x l IH]; intros Hall; simpl; [reflexivity|].
  rewrite (Hall x) by now left. f_equal. apply IH. intros y Hy.
  apply Hall. now right.
Qed.

Lemma filter_permutation (keep : A -> bool) (l l' : list A) :
  Permutation l l' -> Permutation (filter keep l) (filter keep l').
Proof.
  induction 1 as [|x l l' Hp IH|x y l|l l' l'' H1 IH1 H2 IH2]; simpl.
  - constructor.
  - destruct (keep x); [now constructor|assumption].
  - destruct (keep x), (keep y); try reflexivity. apply perm_swap.
  - now transitivity (filter keep l').
Qed.
End Slicing.

Lemma fold_left_invariant {A B} (P : A -> Prop) (f : A -> B -> A) (l : list B) :
  (forall a b, P a -> P (f a b)) -> forall a, P a -> P (fold_left f l a).
Proof.
  intros Hstep. induction l as [|b l IH]; intros a Ha; simpl; auto.
Qed.

(** A loop that acts on some of the elements, through a key. *)
Lemma fold_left_selected {A B K} (f : K -> A -> A) (key : B -> K)
      (selected : B -> bool) (l : list B) :
  forall a,
    fold_left (fun a x => if selected x then f (key x) a else a) l a
    = fold_left (fun a k => f k a) (map key (filter selected l)) a.
Proof.
  induction l as [|x l IH]; intros a; simpl; [reflexivity|].
  rewrite IH. now destruct (selected x).
Qed.

Lemma fold_left_keys {A B K} (f : K -> A -> A) (key : B -> K) (l : list B) :
  forall a,
    fold_left (fun a x => f (key x) a) l a
    = fold_left (fun a k => f k a) (map key l) a.
Proof.
  induction l as [|x l IH]; intros a; simpl; [reflexivity|]. apply IH.
Qed.
End ArrayFacts.

(** ** Facts about the store *)
Module StoreFacts.
Import LightVectorDB Spec JsMapFacts.
Section Facts.
Context {F : Type} `{JsNumber F}.
Implicit Types (w : World F).

Lemma initialize_ready w :
  isInitialized (db w) = true -> initialize w = w.
Proof. unfold initialize. now intros ->. Qed.

Lemma initialize_initialized w : isInitialized (db (initialize w)) = true.
Proof.
  unfold initialize. destruct (isInitialized (db w)) eqn:E; [exact E|].
  reflexivity.
Qed.

Lemma initialize_idem w : initialize (initialize w) = initialize w.
Proof. apply initialize_ready, initialize_initialized. Qed.

Lemma loadFromStorage_fallback w :
  fallbackStore (db (loadFromStorage w)) = fallbackStore (db w)
  /\ config (db (loadFromStorage w)) = config (db w)
  /\ embedder (loadFromStorage w) = embedder w.
Proof.
  unfold loadFromStorage.
  destruct (AsyncStorage.getItem (device w)) as [[[| |data]|] dev]; simpl; auto.
Qed.

Lemma initialize_fallback w :
  fallbackStore (db (initialize w)) = fallbackStore (db w).
Proof.
  unfold initialize. destruct (isInitialized (db w)); [reflexivity|].
  simpl. apply loadFromStorage_fallback.
Qed.

Lemma initialize_config w : config (db (initialize w)) = config (db w).
Proof.
  unfold initialize. destruct (isInitialized (db w)); [reflexivity|].
  simpl. apply loadFromStorage_fallback.
Qed.

Lemma saveToStorage_db w : db (saveToStorage w) = db w.
Proof. reflexivity. Qed.

Lemma observed_ready w : isInitialized (db w) = true -> observed w = db w.
Proof. intros Hr. unfold observed. now rewrite initialize_ready. Qed.
End Facts.
End StoreFacts.

(** ** The fallback on a missing session (C10) *)
Module Fallback.
Import LightVectorDB Spec StoreFacts.
Section Claims.
Context {F : Type} `{JsNumber F}.
Implicit Types (w : World F).

(** C10.  When the id is not a key of the session map that the lookup
    consults (the map after the awaited [initialize()]), [getSession]
    returns what the fallback store's [getSession] returns for that id;
    so a session held by the fallback store alone is returned. *)
Theorem getSession_absent_queries_fallback w id :
  JsMap.get id (sessions (observed w)) = None ->
  fst (getSession id w)
  = SimpleVectorStore.getSession id (fallbackStore (db w))
  /\ (forall session,
         JsMap.get id (SimpleVectorStore.sessions (fallbackStore (db w)))
         = Some session ->
         fst (getSession id w) = Some session).
Proof.
  unfold observed. intros Habsent.
  assert (E : fst (getSession id w)
              = SimpleVectorStore.getSession id (fallbackStore (db w))).
  { unfold getSession. rewrite Habsent. simpl.
    now rewrite initialize_fallback. }
  split; [exact E|].
  intros session Hfb. rewrite E. exact Hfb.
Qed.

(** A session that the primary map holds is returned from the primary. *)
Lemma getSession_present w id session :
  JsMap.get id (sessions (observed w)) = Some session ->
  fst (getSession id w) = Some session.
Proof. unfold observed, getSession. now intros ->. Qed.
End Claims.

Lemma getSession_absent_queries_fallback_witness :
  JsMap.get "session_900_f4llb4ck0"
            (sessions (observed Examples.with_offline_session)) = None
  /\ fst (getSession "session_900_f4llb4ck0" Examples.with_offline_session)
     = Some (fst Examples.fallback_session).
Proof.
  split; [reflexivity|].
  apply (proj2 (getSession_absent_queries_fallback
                  Examples.with_offline_session "session_900_f4llb4ck0"
                  eq_refl)).
  reflexivity.
Defined.
End Fallback.

(** ** The cascade of [deleteSession] (C1) *)
Module Cascade.
Import LightVectorDB Spec StoreFacts JsMapFacts.
Section Claims.
Context {F : Type} `{JsNumber F}.
Implicit Types (w : World F).

(** What [deleteSession] leaves in memory. *)
Lemma deleteSession_db id w :
  db (deleteSession id w)
  = {| sessions := JsMap.delete id (sessions (observed w));
       messages := JsMap.delete id (messages (observed w));
       messageEmbeddings :=
         fold_left (fun e msgId => JsMap.delete msgId e)
           (filter (fun msgId => Js.startsWith id msgId)
                   (JsMap.keys (messageEmbeddings (observed w))))
           (messageEmbeddings (observed w));
       config := config (observed w);
       isInitialized := true;
       fallbackStore :=
         SimpleVectorStore.deleteSession id (fallbackStore (observed w)) |}.
Proof.
  unfold deleteSession, observed.
  pose proof (initialize_initialized w) as Hi.
  destruct (initialize w) as [d dev mgr]. simpl in *.
  unfold with_fallback, with_maps. simpl. now rewrite Hi.
Qed.

Lemma last_messages_nil limit : last_messages limit (@nil (ChatMessage.t F)) = [].
Proof.
  destruct limit as [n|]; simpl; [|reflexivity].
  destruct (n =? 0); [reflexivity|].
  unfold Js.slice. simpl. rewrite skipn_nil. apply firstn_nil.
Qed.

(** The part of the cascade that the code performs: the session and its
    message array are gone, from the primary and from the fallback. *)
Lemma deleteSession_removes_session_and_messages id w limit :
  fst (getSession id (deleteSession id w)) = None
  /\ fst (getMessages id limit (deleteSession id w)) = [].
Proof.
  assert (Hr : initialize (deleteSession id w) = deleteSession id w).
  { apply initialize_ready. now rewrite deleteSession_db. }
  split.
  - unfold getSession. rewrite Hr, deleteSession_db. simpl.
    rewrite get_delete_eq. unfold SimpleVectorStore.getSession. simpl.
    apply get_delete_eq.
  - unfold getMessages. rewrite Hr, deleteSession_db. simpl.
    rewrite get_delete_eq. simpl. apply last_messages_nil.
Qed.

(** The embedding index is searched for keys that begin with the session
    id.  Session ids begin with [session_] and message ids with [msg_], so
    nothing is found. *)
Lemma startsWith_head a p b s :
  Js.startsWith (String a p) (String b s) = true -> a = b.
Proof.
  unfold Js.startsWith. simpl.
  destruct (ascii_dec a b); [auto|discriminate].
Qed.

Lemma startsWith_session_msg id msgId :
  Js.startsWith "session_" id = true ->
  Js.startsWith "msg_" msgId = true ->
  Js.startsWith id msgId = false.
Proof.
  destruct id as [|c id]; [discriminate|].
  destruct msgId as [|c' msgId]; [discriminate|].
  intros Hs Hm.
  apply startsWith_head in Hs. apply startsWith_head in Hm. subst c c'.
  reflexivity.
Qed.

Lemma deleteSession_keeps_generated_embeddings id w :
  Js.startsWith "session_" id = true ->
  (forall msgId, In msgId (JsMap.keys (messageEmbeddings (observed w))) ->
                 Js.startsWith "msg_" msgId = true) ->
  messageEmbeddings (db (deleteSession id w)) = messageEmbeddings (observed w).
Proof.
  intros Hid Hkeys. rewrite deleteSession_db. simpl.
  replace (filter (fun msgId => Js.startsWith id msgId)
                  (JsMap.keys (messageEmbeddings (observed w)))) with (@nil string);
    [reflexivity|].
  symmetry. induction (JsMap.keys (messageEmbeddings (observed w))) as [|k ks IH];
    simpl; [reflexivity|].
  rewrite (startsWith_session_msg id k Hid) by (apply Hkeys; now left).
  apply IH. intros msgId Hin. apply Hkeys. now right.
Qed.
End Claims.

(** C1, on the store of the examples: a session with one embedded message
    is deleted.  The session and its messages are gone, and the embedding
    of the message is still in the index. *)
Theorem deleteSession_leaves_embedding_behind :
  let before := snd Examples.trip_hello in
  let after := deleteSession Examples.trip before in
  let msg := fst Examples.trip_hello in
  fst (getMessages Examples.trip None before) = [msg]
  /\ JsMap.get (ChatMessage.id msg) (messageEmbeddings (db before))
     = ChatMessage.embedding msg
  /\ ChatMessage.embedding msg <> None
  /\ fst (getSession Examples.trip after) = None
  /\ fst (getMessages Examples.trip None after) = []
  /\ JsMap.get (ChatMessage.id msg) (messageEmbeddings (db after))
     = ChatMessage.embedding msg.
Proof.
  cbv zeta.
  split; [vm_compute; reflexivity|].
  split; [vm_compute; reflexivity|].
  split; [vm_compute; discriminate|].
  split; [vm_compute; reflexivity|].
  split; vm_compute; reflexivity.
Qed.
End Cascade.

(** ** [addMessage]: duplicates and failed writes (C2, C8) *)
Module AddMessage.
Import LightVectorDB Spec StoreFacts JsMapFacts.
Section Claims.
Context {F : Type} `{JsNumber F}.
Implicit Types (w : World F).

(** The duplicate path: nothing is written, nothing changes, and the last
    message of the session is returned. *)
Lemma addMessage_duplicate data now rnd w :
  existsb (duplicates data now) (scanned data w) = true ->
  exists default,
    addMessage data now rnd w = (last (scanned data w) default, initialize w).
Proof.
  unfold scanned, observed, addMessage. intros Hdup.
  rewrite Hdup. eexists. reflexivity.
Qed.

(** The inserting path. *)
Lemma addMessage_fresh data now rnd w :
  existsb (duplicates data now) (scanned data w) = false ->
  let msg := fst (addMessage data now rnd w) in
  let w' := snd (addMessage data now rnd w) in
  let sid := MessageData.sessionId data in
  (ChatMessage.sessionId msg = sid
   /\ ChatMessage.role_of msg = MessageData.role_of data
   /\ ChatMessage.content msg = MessageData.content data
   /\ ChatMessage.timestamp msg = now
   /\ ChatMessage.id msg
      = ("msg_" ++ Js.substr_last 6 sid ++ "_" ++ Js.decimal now ++ "_" ++ rnd)%string)
  /\ messages (db w')
     = JsMap.set sid (scanned data w ++ [msg])%list (messages (observed w))
  /\ sessions (db w')
     = match JsMap.get sid (sessions (observed w)) with
       | Some session =>
           JsMap.set sid
             (touched data now (List.length (scanned data w ++ [msg])%list) session)
             (sessions (observed w))
       | None => sessions (observed w)
       end
  /\ isInitialized (db w') = true
  /\ config (db w') = config (observed w)
  /\ fallbackStore (db w') = fallbackStore (observed w)
  /\ device w' = snd (AsyncStorage.setItem
                        {| AsyncStorage.saved_sessions := sessions (db w');
                           AsyncStorage.saved_messages := messages (db w');
                           AsyncStorage.saved_embeddings := messageEmbeddings (db w') |}
                        (device (initialize w))).
Proof.
  unfold scanned, observed, addMessage. intros Hdup. cbv zeta.
  pose proof (initialize_initialized w) as Hi.
  destruct (initialize w) as [d dev mgr]. cbn [db device embedder] in *.
  rewrite Hdup. cbn [ChatMessage.content].
  destruct (EmbedderModelManager.embed (MessageData.content data)
              (EmbedderModelManager.initialize (AsyncStorage.embedderStatus dev) mgr))
    as [[e|] mgr'];
    cbn -[JsMap.set JsMap.get truncateContent Js.substr_last Js.decimal
          String.append AsyncStorage.setItem List.length List.app];
    (repeat split; try reflexivity; try assumption);
    unfold touched; destruct (JsMap.get (MessageData.sessionId data) (sessions d));
    reflexivity.
Qed.



(** C8.  When the call stores a message and the write to the device
    throws, [addMessage] still returns the new message, the message is the
    last one that [getMessages] reports for the session, and the saved blob
    is the one from before the call. *)
Theorem addMessage_survives_failed_write w data now rnd :
  existsb (duplicates data now) (scanned data w) = false ->
  AsyncStorage.fails (device (initialize w))
                     (AsyncStorage.calls (device (initialize w))) = true ->
  let msg := fst (addMessage data now rnd w) in
  let w' := snd (addMessage data now rnd w) in
  (ChatMessage.sessionId msg = MessageData.sessionId data
   /\ ChatMessage.role_of msg = MessageData.role_of data
   /\ ChatMessage.content msg = MessageData.content data
   /\ ChatMessage.timestamp msg = now)
  /\ fst (getMessages (MessageData.sessionId data) None w')
     = (scanned data w ++ [msg])%list
  /\ In msg (fst (getMessages (MessageData.sessionId data) None w'))
  /\ AsyncStorage.item (device w') = AsyncStorage.item (device (initialize w)).
Proof.
  intros Hfresh Hfail msg w'.
  destruct (addMessage_fresh data now rnd w Hfresh)
    as [[Hsid [Hrole [Hcontent [Htime _]]]] [Hmsgs [_ [Hinit [_ [_ Hdev]]]]]].
  fold msg in Hsid, Hrole, Hcontent, Htime, Hmsgs.
  fold w' in Hmsgs, Hinit, Hdev.
  assert (Hget : fst (getMessages (MessageData.sessionId data) None w')
                 = (scanned data w ++ [msg])%list).
  { unfold getMessages. rewrite (initialize_ready w' Hinit). simpl.
    rewrite Hmsgs, get_set_eq. reflexivity. }
  repeat split; auto.
  - rewrite Hget. apply in_or_app. right. now left.
  - rewrite Hdev. unfold AsyncStorage.setItem. now rewrite Hfail.
Qed.

(** [addMessage] is its two halves, one after the other. *)
Lemma addMessage_halves data now rnd w :
  addMessage data now rnd w
  = addMessage_finish (fst (addMessage_begin data now rnd w))
                      (snd (addMessage_begin data now rnd w)).
Proof.
  unfold addMessage, addMessage_begin. cbv zeta.
  destruct (JsMap.get (MessageData.sessionId data) (messages (db (initialize w))))
    as [msgs|] eqn:Hget; cbn [ChatSession.or_else].
  - destruct (existsb (duplicates data now) msgs); [reflexivity|].
    unfold addMessage_finish.
    cbn [fst snd ChatMessage.sessionId ChatMessage.timestamp ChatMessage.content].
    now rewrite Hget.
  - cbn [existsb]. reflexivity.
Qed.

(** The first half on a session whose array holds no duplicate. *)
Lemma addMessage_begin_pending data now rnd w msgs :
  JsMap.get (MessageData.sessionId data) (messages (observed w)) = Some msgs ->
  existsb (duplicates data now) msgs = false ->
  exists message,
    addMessage_begin data now rnd w = (Pending message false, initialize w)
    /\ ChatMessage.sessionId message = MessageData.sessionId data
    /\ ChatMessage.role_of message = MessageData.role_of data
    /\ ChatMessage.content message = MessageData.content data
    /\ ChatMessage.timestamp message = now
    /\ ChatMessage.id message
       = ("msg_" ++ Js.substr_last 6 (MessageData.sessionId data) ++ "_"
          ++ Js.decimal now ++ "_" ++ rnd)%string.
Proof.
  unfold observed, addMessage_begin. intros Hget Hfresh. cbv zeta.
  rewrite Hget, Hfresh. eexists. split; [reflexivity|]. repeat split.
Qed.

(** The second half of a call that holds the array of the map. *)
Lemma addMessage_finish_pushes message w msgs :
  isInitialized (db w) = true ->
  JsMap.get (ChatMessage.sessionId message) (messages (db w)) = Some msgs ->
  let stored := fst (addMessage_finish (Pending message false) w) in
  let w' := snd (addMessage_finish (Pending message false) w) in
  Vocabulary.unembedded stored = Vocabulary.unembedded message
  /\ messages (db w')
     = JsMap.set (ChatMessage.sessionId message) (msgs ++ [stored])%list
                 (messages (db w))
  /\ isInitialized (db w') = true
  /\ (forall session,
         JsMap.get (ChatMessage.sessionId message) (sessions (db w)) = Some session ->
         option_map ChatSession.messageCount
           (JsMap.get (ChatMessage.sessionId message) (sessions (db w')))
         = Some (Z.of_nat (List.length msgs) + 1)).
Proof.
  intros Hinit Hget. unfold addMessage_finish. cbv zeta.
  destruct w as [d dev mgr]. cbn [db device embedder] in *.
  rewrite Hget. cbn [ChatSession.or_else].
  destruct (EmbedderModelManager.embed (ChatMessage.content message)
              (EmbedderModelManager.initialize (AsyncStorage.embedderStatus dev) mgr))
    as [[e|] mgr'];
    cbn -[JsMap.set JsMap.get truncateContent AsyncStorage.setItem List.length List.app];
    (split; [destruct message; reflexivity|]); (split; [reflexivity|]);
    (split; [assumption|]); intros session Hs; rewrite Hs, get_set_eq;
    cbn [option_map ChatSession.messageCount]; rewrite length_app;
    cbn [List.length]; f_equal; lia.
Qed.

(** Two calls that overlap on an initialized store: the second begins while
    the first waits for the embedder, before the first has pushed its
    message.  Neither finds the message of the other, and both messages are
    stored, however close the two times are. *)
Lemma addMessage_overlapping_calls_both_store w data t1 rnd1 t2 rnd2 msgs :
  isInitialized (db w) = true ->
  JsMap.get (MessageData.sessionId data) (messages (db w)) = Some msgs ->
  existsb (duplicates data t1) msgs = false ->
  existsb (duplicates data t2) msgs = false ->
  let started1 := addMessage_begin data t1 rnd1 w in
  let started2 := addMessage_begin data t2 rnd2 (snd started1) in
  let first := addMessage_finish (fst started1) (snd started2) in
  let second := addMessage_finish (fst started2) (snd first) in
  fst (getMessages (MessageData.sessionId data) None (snd second))
  = (msgs ++ [fst first; fst second])%list
  /\ ChatMessage.content (fst first) = MessageData.content data
  /\ ChatMessage.content (fst second) = MessageData.content data
  /\ ChatMessage.role_of (fst first) = MessageData.role_of data
  /\ ChatMessage.role_of (fst second) = MessageData.role_of data
  /\ ChatMessage.timestamp (fst first) = t1
  /\ ChatMessage.timestamp (fst second) = t2
  /\ (forall session,
         JsMap.get (MessageData.sessionId data) (sessions (db w)) = Some session ->
         option_map ChatSession.messageCount
           (fst (getSession (MessageData.sessionId data) (snd second)))
         = Some (Z.of_nat (List.length msgs) + 2)).
Proof.
  intros Hready Hget Hfresh1 Hfresh2. cbv zeta.
  rewrite <- (observed_ready w Hready) in Hget.
  rewrite <- (observed_ready w Hready).
  destruct (@addMessage_begin_pending data t1 rnd1 w msgs Hget Hfresh1)
    as [m1 [E1 [Hsid1 [Hrole1 [Hcontent1 [Htime1 _]]]]]].
  rewrite E1. cbn [fst snd].
  assert (Hget0 : JsMap.get (MessageData.sessionId data)
                            (messages (observed (initialize w))) = Some msgs)
    by (unfold observed; now rewrite initialize_idem).
  destruct (@addMessage_begin_pending data t2 rnd2 (initialize w) msgs Hget0 Hfresh2)
    as [m2 [E2 [Hsid2 [Hrole2 [Hcontent2 [Htime2 _]]]]]].
  rewrite E2, initialize_idem. cbn [fst snd].
  pose proof (initialize_initialized w) as Hinit.
  unfold observed in Hget. rewrite <- Hsid1 in Hget.
  destruct (@addMessage_finish_pushes m1 (initialize w) msgs Hinit Hget)
    as [Hm1 [Hmsgs1 [Hinit1 Hcount1]]].
  set (first := addMessage_finish (Pending m1 false) (initialize w)) in *.
  assert (Hget1 : JsMap.get (ChatMessage.sessionId m2) (messages (db (snd first)))
                  = Some (msgs ++ [fst first])%list).
  { rewrite Hmsgs1, Hsid2, <- Hsid1. apply get_set_eq. }
  destruct (@addMessage_finish_pushes m2 (snd first) _ Hinit1 Hget1)
    as [Hm2 [Hmsgs2 [Hinit2 Hcount2]]].
  set (second := addMessage_finish (Pending m2 false) (snd first)) in *.
  split.
  { unfold getMessages. rewrite (initialize_ready _ Hinit2). cbn [fst].
    rewrite Hmsgs2, <- Hsid2, get_set_eq. cbn [ChatSession.or_else].
    unfold last_messages. now rewrite <- app_assoc. }
  split; [rewrite <- Hcontent1; exact (f_equal ChatMessage.content Hm1)|].
  split; [rewrite <- Hcontent2; exact (f_equal ChatMessage.content Hm2)|].
  split; [rewrite <- Hrole1; exact (f_equal ChatMessage.role_of Hm1)|].
  split; [rewrite <- Hrole2; exact (f_equal ChatMessage.role_of Hm2)|].
  split; [rewrite <- Htime1; exact (f_equal ChatMessage.timestamp Hm1)|].
  split; [rewrite <- Htime2; exact (f_equal ChatMessage.timestamp Hm2)|].
  intros session Hs. unfold observed in Hs. rewrite <- Hsid1 in Hs.
  specialize (Hcount1 session Hs). rewrite Hsid1, <- Hsid2 in Hcount1.
  destruct (JsMap.get (ChatMessage.sessionId m2) (sessions (db (snd first))))
    as [session1|] eqn:Hs1; [|discriminate].
  specialize (Hcount2 session1 eq_refl).
  unfold getSession. rewrite (initialize_ready _ Hinit2), <- Hsid2.
  destruct (JsMap.get (ChatMessage.sessionId m2) (sessions (db (snd second))))
    as [session2|]; [|discriminate].
  cbn [fst]. rewrite Hcount2, length_app. cbn [List.length]. f_equal. lia.
Qed.
End Claims.



(** The duplicate branch answers with the last message of the session.
    When another message was stored between the two calls, that is not the
    message the first call returned: "Hello there" at 2000, the reply at
    2300, "Hello there" again at 2500. *)
Lemma addMessage_duplicate_answers_with_last_message :
  let reply := addMessage (Examples.other Examples.trip) 2300 "q1w2e3r4t5y6"
                          (snd Examples.trip_hello) in
  let again := addMessage (Examples.hello Examples.trip) 2500 "a1s2d3f4g5h6"
                          (snd reply) in
  ChatMessage.id (fst again) = ChatMessage.id (fst reply)
  /\ ChatMessage.content (fst again) = "General Kenobi"%string
  /\ Examples.count_of Examples.trip (snd again) = Some 2.
Proof. cbv zeta. repeat split; vm_compute; reflexivity. Qed.

(** Overlapping calls on the session of the examples: "Hello there" twice
    in the same millisecond, the second call made before the first has
    returned.  Both are stored. *)
Lemma addMessage_overlapping_calls_example :
  let data := Examples.hello Examples.trip in
  let started1 := addMessage_begin data 2000 "p0o9i8u7y6t5"
                                   (snd Examples.trip_created) in
  let started2 := addMessage_begin data 2000 "a1s2d3f4g5h6" (snd started1) in
  let first := addMessage_finish (fst started1) (snd started2) in
  let second := addMessage_finish (fst started2) (snd first) in
  ChatMessage.id (fst first) = "msg_9x0q2a_2000_p0o9i8u7y6t5"%string
  /\ ChatMessage.id (fst second) = "msg_9x0q2a_2000_a1s2d3f4g5h6"%string
  /\ map ChatMessage.content (fst (getMessages Examples.trip None (snd second)))
     = ["Hello there"; "Hello there"]%string
  /\ Examples.count_of Examples.trip (snd second) = Some 2.
Proof. cbv zeta. repeat split; vm_compute; reflexivity. Qed.

(** Overlapping calls for a session id under which the map holds no array:
    each call pushes on an array of its own, and the array that is set
    last replaces the other. *)
Lemma addMessage_overlapping_calls_without_array :
  let started1 := addMessage_begin (Examples.hello "elsewhere") 2000
                                   "p0o9i8u7y6t5" (snd Examples.trip_created) in
  let started2 := addMessage_begin (Examples.other "elsewhere") 2000
                                   "a1s2d3f4g5h6" (snd started1) in
  let first := addMessage_finish (fst started1) (snd started2) in
  let second := addMessage_finish (fst started2) (snd first) in
  map ChatMessage.content (fst (getMessages "elsewhere" None (snd first)))
  = ["Hello there"]%string
  /\ map ChatMessage.content (fst (getMessages "elsewhere" None (snd second)))
     = ["General Kenobi"]%string.
Proof. cbv zeta. split; vm_compute; reflexivity. Qed.

Lemma addMessage_survives_failed_write_witness :
  existsb (duplicates (Examples.hello Examples.trip) 2000)
          (scanned (Examples.hello Examples.trip) Examples.trip_offline)
  = false
  /\ AsyncStorage.fails (device (initialize Examples.trip_offline))
       (AsyncStorage.calls (device (initialize Examples.trip_offline))) = true
  /\ In (fst (addMessage (Examples.hello Examples.trip) 2000 "p0o9i8u7y6t5"
                         Examples.trip_offline))
        (fst (getMessages Examples.trip None
                (snd (addMessage (Examples.hello Examples.trip) 2000
                                 "p0o9i8u7y6t5" Examples.trip_offline)))).
Proof.
  split; [reflexivity|]. split; [reflexivity|].
  apply (addMessage_survives_failed_write
           Examples.trip_offline (Examples.hello Examples.trip)
           2000 "p0o9i8u7y6t5" eq_refl eq_refl).
Defined.
End AddMessage.

(** ** Cosine similarity (C5) *)
Module Cosine.
Import EmbedderModelManager.
Local Open Scope R_scope.

Section AnyArithmetic.
Context {F : Type} `{JsNumber F}.

Lemma cosineSimilarity_length_mismatch (a b : list F) :
  List.length a <> List.length b -> cosineSimilarity a b = zero.
Proof.
  intros Hne. unfold cosineSimilarity.
  destruct (Nat.eqb (List.length a) (List.length b)) eqn:E; [|reflexivity].
  apply Nat.eqb_eq in E. contradiction.
Qed.

(** The one loop computes the three sums that three loops would. *)
Lemma cosine_loop_from (a : list F) :
  forall (b : list F) (d na nb : F),
    List.length a = List.length b ->
    fold_left
      (fun '(dotProduct, normA, normB) '(x, y) =>
         (add dotProduct (mul x y), add normA (mul x x), add normB (mul y y)))
      (combine a b) (d, na, nb)
    = (fold_left (fun acc p => add acc (mul (fst p) (snd p))) (combine a b) d,
       fold_left (fun sum val => add sum (mul val val)) a na,
       fold_left (fun sum val => add sum (mul val val)) b nb).
Proof.
  induction a as [|x a IH]; intros [|y b] d na nb Hlen; simpl in *;
    try discriminate; [reflexivity|].
  apply IH. congruence.
Qed.

Lemma cosine_loop_sums (a b : list F) :
  List.length a = List.length b ->
  cosine_loop a b = (Vec.dot_product a b, sum_squares a, sum_squares b).
Proof. intros Hlen. now apply cosine_loop_from. Qed.

Lemma cosineSimilarity_equal_length (a b : list F) :
  List.length a = List.length b ->
  cosineSimilarity a b
  = if eqb (Vec.magnitude a) zero || eqb (Vec.magnitude b) zero then zero
    else div (Vec.dot_product a b) (mul (Vec.magnitude a) (Vec.magnitude b)).
Proof.
  intros Hlen. unfold cosineSimilarity.
  rewrite Hlen, Nat.eqb_refl, (cosine_loop_sums a b Hlen). reflexivity.
Qed.
End AnyArithmetic.

Lemma sum_squares_from (e : list R) :
  forall acc, fold_left (fun sum val => sum + val * val) e acc = acc + Vec.dot e e.
Proof.
  induction e as [|x e IH]; intros acc; simpl; [ring|]. rewrite IH. ring.
Qed.

Lemma sum_squares_exact (e : list R) : sum_squares e = Vec.dot e e.
Proof.
  unfold sum_squares. simpl. rewrite sum_squares_from. ring.
Qed.

Lemma magnitude_exact (e : list R) : Vec.magnitude e = Vec.norm e.
Proof. unfold Vec.magnitude, Vec.norm. now rewrite sum_squares_exact. Qed.

Lemma dot_product_from (a : list R) :
  forall (b : list R) acc,
    fold_left (fun acc p => acc + fst p * snd p) (combine a b) acc
    = acc + Vec.dot a b.
Proof.
  induction a as [|x a IH]; intros [|y b] acc; simpl; try ring.
  rewrite IH. ring.
Qed.

Lemma dot_product_exact (a b : list R) : Vec.dot_product a b = Vec.dot a b.
Proof.
  unfold Vec.dot_product. simpl. rewrite dot_product_from. ring.
Qed.

Lemma dot_self_nonneg (a : list R) : 0 <= Vec.dot a a.
Proof.
  induction a as [|x a IH]; simpl; [lra|].
  pose proof (Rle_0_sqr x) as Hx. unfold Rsqr in Hx. lra.
Qed.

Lemma dot_self_zero (a : list R) :
  Vec.dot a a = 0 <-> Forall (fun x => x = 0) a.
Proof.
  induction a as [|x a IH]; simpl.
  - split; [constructor|reflexivity].
  - pose proof (Rle_0_sqr x) as Hx. unfold Rsqr in Hx.
    pose proof (dot_self_nonneg a) as Ha. split.
    + intros Hsum. assert (Hxx : x * x = 0) by lra.
      assert (Haa : Vec.dot a a = 0) by lra.
      constructor; [|now apply IH].
      destruct (Rmult_integral _ _ Hxx); assumption.
    + intros Hall. inversion Hall as [|? ? Hx0 Hrest]; subst.
      apply IH in Hrest. rewrite Hrest. ring.
Qed.

(** A vector of reals has norm 0 exactly when all its components are 0. *)
Lemma norm_zero (a : list R) :
  Vec.norm a = 0 <-> Forall (fun x => x = 0) a.
Proof.
  unfold Vec.norm. rewrite <- dot_self_zero. split.
  - intros Hs. apply sqrt_eq_0; [apply dot_self_nonneg|assumption].
  - intros ->. apply sqrt_0.
Qed.

Lemma cosineSimilarity_exact (a b : list R) :
  List.length a = List.length b ->
  cosineSimilarity a b
  = if Req_dec_T (Vec.norm a) 0 then 0
    else if Req_dec_T (Vec.norm b) 0 then 0
         else Vec.dot a b / (Vec.norm a * Vec.norm b).
Proof.
  intros Hlen. rewrite (cosineSimilarity_equal_length a b Hlen).
  rewrite !magnitude_exact, dot_product_exact. simpl.
  destruct (Req_dec_T (Vec.norm a) 0); [reflexivity|].
  destruct (Req_dec_T (Vec.norm b) 0); reflexivity.
Qed.

(** C5.  [cosineSimilarity] is a total function: it raises nothing.  In
    any arithmetic it is 0 when the lengths differ and when the magnitude
    computed for either vector is 0, and otherwise it is the dot product
    divided by the product of the two magnitudes.  With numbers read as
    reals, the magnitude is the Euclidean norm, which is 0 exactly for the
    vectors of zeros, and a vector with a non-zero component has similarity
    1 with itself. *)
Theorem cosineSimilarity_contract :
  (forall (F : Type) (number : JsNumber F) (a b : list F),
      (List.length a <> List.length b -> cosineSimilarity a b = zero)
      /\ (List.length a = List.length b ->
          eqb (Vec.magnitude a) zero = true \/ eqb (Vec.magnitude b) zero = true ->
          cosineSimilarity a b = zero)
      /\ (List.length a = List.length b ->
          eqb (Vec.magnitude a) zero = false ->
          eqb (Vec.magnitude b) zero = false ->
          cosineSimilarity a b
          = div (Vec.dot_product a b) (mul (Vec.magnitude a) (Vec.magnitude b))))
  /\ (forall a b : list R,
         Vec.norm a = 0 \/ Vec.norm b = 0 -> cosineSimilarity a b = 0)
  /\ (forall a b : list R,
         List.length a = List.length b ->
         Vec.norm a <> 0 -> Vec.norm b <> 0 ->
         cosineSimilarity a b = Vec.dot a b / (Vec.norm a * Vec.norm b))
  /\ (forall v : list R,
         (exists x, In x v /\ x <> 0) -> cosineSimilarity v v = 1).
Proof.
  split; [|split; [|split]].
  - intros F number a b. split; [apply cosineSimilarity_length_mismatch|]. split.
    + intros Hlen Hzero. rewrite (cosineSimilarity_equal_length a b Hlen).
      destruct Hzero as [-> | ->]; [reflexivity|].
      now rewrite orb_true_r.
    + intros Hlen Ha Hb. rewrite (cosineSimilarity_equal_length a b Hlen).
      now rewrite Ha, Hb.
  - intros a b Hzero.
    destruct (Nat.eq_dec (List.length a) (List.length b)) as [Hlen|Hlen].
    + rewrite (cosineSimilarity_exact a b Hlen).
      destruct (Req_dec_T (Vec.norm a) 0); [reflexivity|].
      destruct (Req_dec_T (Vec.norm b) 0); [reflexivity|tauto].
    + now apply (@cosineSimilarity_length_mismatch R).
  - intros a b Hlen Ha Hb. rewrite (cosineSimilarity_exact a b Hlen).
    destruct (Req_dec_T (Vec.norm a) 0); [contradiction|].
    destruct (Req_dec_T (Vec.norm b) 0); [contradiction|reflexivity].
  - intros v [x [Hin Hx]].
    assert (Hn : Vec.norm v <> 0).
    { intros Hz. apply norm_zero in Hz. rewrite Forall_forall in Hz.
      apply Hx. now apply Hz. }
    rewrite (cosineSimilarity_exact v v eq_refl).
    destruct (Req_dec_T (Vec.norm v) 0); [contradiction|].
    unfold Vec.norm in *. rewrite sqrt_sqrt by apply dot_self_nonneg.
    apply Rdiv_diag. intros Hz. apply Hn. rewrite Hz. apply sqrt_0.
Qed.

Lemma cosineSimilarity_contract_witness :
  (List.length [1; 2] <> List.length [1]
   /\ @cosineSimilarity R _ [1; 2] [1] = 0)
  /\ ((exists x, In x [3; 4] /\ x <> 0)
      /\ @cosineSimilarity R _ [3; 4] [3; 4] = 1).
Proof.
  split.
  - split; [discriminate|].
    apply (proj1 (proj1 cosineSimilarity_contract R Exact.number [1; 2] [1])).
    discriminate.
  - assert (Hx : exists x, In x [3; 4] /\ x <> 0).
    { exists 3. split; [now left|lra]. }
    split; [exact Hx|].
    exact (proj2 (proj2 (proj2 cosineSimilarity_contract)) [3; 4] Hx).
Defined.

(** In binary64 the same computation gives 1 up to rounding: exactly 1 on
    [3, 4], and one unit in the last place below 1 on the embedding of
    "Hello there"; and 0 for the zero vector and for unequal lengths. *)
Lemma cosineSimilarity_binary64_examples :
  let three := number_of_nat 3 in
  let four := number_of_nat 4 in
  @cosineSimilarity spec_float _ [three; four] [three; four] = one
  /\ (let v := @generateSimpleEmbedding spec_float _ "Hello there" 8 in
      cosineSimilarity v v = S754_finite false 9007199254740991 (-53))
  /\ @cosineSimilarity spec_float _ [zero; zero] [three; four] = zero
  /\ @cosineSimilarity spec_float _ [three] [three; four] = zero.
Proof. repeat split; vm_compute; reflexivity. Qed.
End Cosine.

(** ** The embedding generator (C3) *)
Module Embedding.
Import EmbedderModelManager.
Local Open Scope R_scope.

Lemma increment_length {F} `{JsNumber F} (i : nat) (e : list F) :
  List.length (increment i e) = List.length e.
Proof.
  revert i. induction e as [|x e IH]; intros [|i]; simpl; auto.
Qed.

Lemma increment_at_length {F} `{JsNumber F} offset b (e : list F) :
  List.length (increment_at offset b e) = List.length e.
Proof. destruct b; simpl; [apply increment_length|reflexivity]. Qed.

(** One more in one slot, for the counts read as reals. *)
Lemma increment_total (i : nat) (e : list R) :
  (i < List.length e)%nat -> Vec.total (increment i e) = Vec.total e + 1.
Proof.
  revert i. induction e as [|x e IH]; intros [|i] Hi; simpl in *; try lia.
  - ring.
  - rewrite IH by lia. ring.
Qed.

Lemma increment_nonneg (i : nat) (e : list R) :
  Forall (fun x => 0 <= x) e -> Forall (fun x => 0 <= x) (increment i e).
Proof.
  revert i. induction e as [|x e IH]; intros [|i] Hall; simpl; auto;
    inversion Hall; subst; constructor; auto; lra.
Qed.

Lemma increment_at_nonneg offset b (e : list R) :
  Forall (fun x => 0 <= x) e -> Forall (fun x => 0 <= x) (increment_at offset b e).
Proof. destruct b; simpl; [apply increment_nonneg|auto]. Qed.

Lemma bucket_in_range hash halfDim :
  (1 <= halfDim)%nat ->
  exists i, bucket hash halfDim = Some i /\ (i < halfDim)%nat.
Proof.
  intros Hpos. destruct halfDim as [|n]; [lia|].
  eexists. split; [reflexivity|].
  pose proof (Z.mod_pos_bound hash (Z.of_nat (S n)) ltac:(lia)). lia.
Qed.

(** The word loop adds exactly one per round. *)
Lemma word_loop_total (g : nat -> Z) (halfDim dims : nat) (rounds : list nat) :
  (1 <= halfDim)%nat -> (2 * halfDim <= dims)%nat ->
  forall e : list R,
    List.length e = dims ->
    Vec.total (fold_left (fun e i => increment_at halfDim (bucket (g i) halfDim) e)
                         rounds e)
    = Vec.total e + INR (List.length rounds).
Proof.
  intros Hpos Hfit. induction rounds as [|i rounds IH]; intros e Hlen.
  - simpl. ring.
  - cbn [fold_left]. rewrite IH by (now rewrite increment_at_length).
    destruct (bucket_in_range (g i) Hpos) as [k [-> Hk]].
    cbn [increment_at]. rewrite increment_total by lia.
    change (List.length (i :: rounds)) with (S (List.length rounds)).
    rewrite S_INR. ring.
Qed.

Lemma total_nonneg (e : list R) : Forall (fun x => 0 <= x) e -> 0 <= Vec.total e.
Proof. induction 1; simpl; lra. Qed.

Lemma positive_total_positive_dot (e : list R) :
  Forall (fun x => 0 <= x) e -> 0 < Vec.total e -> 0 < Vec.dot e e.
Proof.
  induction 1 as [|x e Hx Hall IH]; simpl; [lra|]. intros Hpos.
  pose proof (Cosine.dot_self_nonneg e) as He.
  pose proof (total_nonneg Hall) as Ht.
  destruct (Rle_lt_or_eq_dec 0 x Hx) as [Hlt|Heq].
  - pose proof (Rmult_lt_0_compat x x Hlt Hlt). lra.
  - subst x. specialize (IH ltac:(lra)). lra.
Qed.

Lemma dot_scaled (m : R) (e : list R) :
  m <> 0 ->
  Vec.dot (map (fun x => x / m) e) (map (fun x => x / m) e) = Vec.dot e e / (m * m).
Proof.
  intros Hm. induction e as [|x e IH]; simpl.
  - unfold Rdiv. ring.
  - rewrite IH. field. assumption.
Qed.

Lemma split_spaces_from_nonempty s :
  forall in_run cur, (1 <= List.length (Js.split_spaces_from in_run cur s))%nat.
Proof.
  induction s as [|c s IH]; intros in_run cur; simpl; [lia|].
  destruct (Js.is_space c); [destruct in_run|]; simpl; auto; lia.
Qed.

(** Normalisation, once the squared sum is known to be positive. *)
Lemma normalised (e : list R) :
  0 < Vec.dot e e ->
  let magnitude := R_sqrt.sqrt (Vec.dot e e) in
  Vec.norm (map (fun x => x / magnitude) e) = 1.
Proof.
  intros Hpos magnitude.
  assert (Hm : 0 < magnitude) by (now apply sqrt_lt_R0).
  unfold Vec.norm. rewrite dot_scaled by lra.
  unfold magnitude. rewrite sqrt_sqrt by lra.
  rewrite Rdiv_diag by lra. apply sqrt_1.
Qed.

(** Every text, the empty one included, leaves a count in the word half,
    so the vector is always divided by its norm. *)
Lemma generateSimpleEmbedding_unit_norm (text : string) (dimensions : nat) :
  (2 <= dimensions)%nat ->
  List.length (@generateSimpleEmbedding R _ text dimensions) = dimensions
  /\ Vec.norm (@generateSimpleEmbedding R _ text dimensions) = 1.
Proof.
  intros Hdim. unfold generateSimpleEmbedding. cbv zeta.
  set (halfDim := Nat.div dimensions 2).
  set (words := Js.split_spaces (Js.toLowerCase text)).
  set (chars := Js.remove_spaces (Js.toLowerCase text)).
  assert (Hhalf : (1 <= halfDim)%nat).
  { unfold halfDim. change 1%nat with (2 / 2)%nat.
    now apply Nat.Div0.div_le_mono. }
  assert (Hfit : (2 * halfDim <= dimensions)%nat)
    by (unfold halfDim; apply Nat.Div0.mul_div_le).
  set (bigrams := fold_left _ (seq 0 (Nat.min (String.length chars - 1) halfDim)) _).
  assert (Hb : List.length bigrams = dimensions
               /\ Forall (fun x => 0 <= x) bigrams).
  { unfold bigrams.
    apply (ArrayFacts.fold_left_invariant
             (fun e : list R => List.length e = dimensions
                                /\ Forall (fun x => 0 <= x) e)).
    - intros e i [Hlen Hall]. split.
      + now rewrite increment_at_length.
      + now apply increment_at_nonneg.
    - split; [apply repeat_length|].
      apply Forall_forall. intros x Hin. apply repeat_spec in Hin.
      subst x. simpl. lra. }
  destruct Hb as [Hblen Hbnn].
  set (rounds := seq 0 (Nat.min (List.length words) halfDim)).
  set (counted := fold_left _ rounds bigrams).
  assert (Hrounds : (1 <= List.length rounds)%nat).
  { unfold rounds. rewrite length_seq.
    pose proof (split_spaces_from_nonempty (Js.toLowerCase text) false EmptyString).
    unfold words, Js.split_spaces. lia. }
  assert (Hc : List.length counted = dimensions
               /\ Forall (fun x => 0 <= x) counted).
  { unfold counted.
    apply (ArrayFacts.fold_left_invariant
             (fun e : list R => List.length e = dimensions
                                /\ Forall (fun x => 0 <= x) e)).
    - intros e i [Hlen Hall]. split.
      + now rewrite increment_at_length.
      + now apply increment_at_nonneg.
    - now split. }
  destruct Hc as [Hclen Hcnn].
  assert (Htotal : 0 < Vec.total counted).
  { unfold counted.
    rewrite (word_loop_total (fun i => simpleHash (nth i words EmptyString))
                             rounds Hhalf Hfit bigrams Hblen).
    pose proof (total_nonneg Hbnn).
    assert (1 <= INR (List.length rounds)) by (change 1 with (INR 1); now apply le_INR).
    lra. }
  pose proof (positive_total_positive_dot Hcnn Htotal) as Hdot.
  rewrite Cosine.sum_squares_exact.
  assert (Hm : 0 < R_sqrt.sqrt (Vec.dot counted counted)) by (now apply sqrt_lt_R0).
  simpl. destruct (Rlt_dec 0 (R_sqrt.sqrt (Vec.dot counted counted))); [|contradiction].
  split; [now rewrite length_map|].
  now apply normalised.
Qed.

Lemma increment_zeros (n i : nat) :
  (i < n)%nat -> increment i (repeat 0 n) = Vec.basis n i.
Proof.
  unfold Vec.basis. revert i. induction n as [|n IH]; intros i Hi; [lia|].
  destruct i as [|i]; simpl.
  - rewrite Nat.sub_0_r. f_equal. ring.
  - f_equal. apply IH. lia.
Qed.

Lemma dot_unit (i k : nat) :
  Vec.dot (repeat 0 i ++ 1 :: repeat 0 k) (repeat 0 i ++ 1 :: repeat 0 k) = 1.
Proof.
  induction i as [|i IH]; simpl.
  - induction k as [|k IHk]; simpl; [ring|]. simpl in IHk. lra.
  - rewrite IH. ring.
Qed.

Lemma dot_basis (n i : nat) : Vec.dot (Vec.basis n i) (Vec.basis n i) = 1.
Proof. apply dot_unit. Qed.

Lemma map_div_one (e : list R) : map (fun x => x / 1) e = e.
Proof.
  induction e as [|x e IH]; simpl; [reflexivity|].
  rewrite IH. f_equal. field.
Qed.

(** The empty text splits into one empty word, whose hash is 0: the count
    goes to the first slot of the word half and the result is that basis
    vector, not the zero vector. *)
Lemma generateSimpleEmbedding_empty (dimensions : nat) :
  (2 <= dimensions)%nat ->
  @generateSimpleEmbedding R _ EmptyString dimensions
  = Vec.basis dimensions (dimensions / 2).
Proof.
  intros Hdim. unfold generateSimpleEmbedding. cbv zeta.
  set (halfDim := Nat.div dimensions 2).
  assert (Hhalf : (1 <= halfDim)%nat).
  { unfold halfDim. change 1%nat with (2 / 2)%nat.
    now apply Nat.Div0.div_le_mono. }
  assert (Hfit : (2 * halfDim <= dimensions)%nat)
    by (unfold halfDim; apply Nat.Div0.mul_div_le).
  change (Js.toLowerCase EmptyString) with EmptyString.
  change (Js.remove_spaces EmptyString) with EmptyString.
  change (Js.split_spaces EmptyString) with [EmptyString].
  change (String.length EmptyString - 1)%nat with 0%nat.
  change (List.length [EmptyString]) with 1%nat.
  rewrite Nat.min_0_l, (Nat.min_l 1 halfDim Hhalf).
  cbn [seq fold_left nth].
  change (simpleHash EmptyString) with 0%Z.
  destruct (bucket_in_range 0 Hhalf) as [k [Hk _]].
  assert (Hk0 : bucket 0 halfDim = Some 0%nat).
  { destruct halfDim; [lia|]. reflexivity. }
  rewrite Hk0. cbn [increment_at]. rewrite Nat.add_0_r.
  change (@zero R Exact.number) with 0.
  rewrite increment_zeros by lia.
  rewrite Cosine.sum_squares_exact, dot_basis.
  simpl. rewrite sqrt_1.
  destruct (Rlt_dec 0 1); [|lra].
  apply map_div_one.
Qed.

(** [embed] is a function of the text and of the manager's embedding
    function: a second call answers as the first did and leaves the
    manager as the first left it. *)
Lemma embed_twice {F} `{JsNumber F} (text : string) (mgr : EmbedderModelManager.t) :
  embed text (snd (embed text mgr)) = embed text mgr.
Proof.
  unfold embed. destruct mgr as [[model|] [dims|]];
    cbn -[generateSimpleEmbedding]; reflexivity.
Qed.

(** In binary64 with binary32 storage the squared norm is 1 up to the
    rounding of the stored components: for "Hello there" at 128 dimensions
    it is [1 - 14155992 * 2^-53]. *)
Lemma generateSimpleEmbedding_binary64_norm :
  sum_squares (@generateSimpleEmbedding spec_float _ "Hello there" 128)
  = S754_finite false 9007199240585000 (-53)
  /\ (9007199240585000 = 2 ^ 53 - 14155992)%Z.
Proof. split; vm_compute; reflexivity. Qed.

(** C3, at the empty text.  In binary64, with the built-in model (128
    dimensions), [embed] of the empty text is the vector with 1 at index
    64: it is not all zeros, and its squared norm is 1.  The guard
    [if (magnitude > 0)] of [generateSimpleEmbedding] is written for the
    all-zero vector, which never reaches it: the empty text splits into one
    empty word, and the word loop counts it. *)
Lemma embed_empty_text_is_not_zero :
  exists v : list spec_float,
    fst (embed EmptyString EmbedderModelManager.new) = Some v
    /\ nth 64 v zero = one
    /\ v <> repeat zero 128
    /\ sum_squares v = one.
Proof.
  exists (@generateSimpleEmbedding spec_float _ EmptyString 128).
  split; [reflexivity|].
  split; [vm_compute; reflexivity|].
  split; [|vm_compute; reflexivity].
  intros E. apply (f_equal (fun l => nth 64 l zero)) in E.
  vm_compute in E. discriminate.
Qed.
End Embedding.

(** ** The [messageCount] invariant (C9) *)
Module Counting.
Import LightVectorDB Spec StoreFacts JsMapFacts.
Section Claims.
Context {F : Type} `{JsNumber F}.
Implicit Types (w : World F) (d : LightVectorDB.t F).










Lemma deleteSession_initialized id w : isInitialized (db (deleteSession id w)) = true.
Proof. now rewrite Cascade.deleteSession_db. Qed.

Lemma deleteSession_observed id w :
  observed (deleteSession id w) = db (deleteSession id w).
Proof. apply observed_ready, deleteSession_initialized. Qed.




Lemma In_of_entries {V} (entries : list (string * V)) :
  forall acc e,
    In e (fold_left (fun m x => JsMap.set (fst x) (snd x) m) entries acc) ->
    In e entries \/ In e acc.
Proof.
  induction entries as [|x entries IH]; intros acc e Hin; simpl in *; [now right|].
  destruct (IH _ _ Hin) as [Hl|Hr]; [left; now right|].
  destruct (In_set _ _ _ _ Hr) as [->|Hacc]; [|now right].
  left. left. now destruct x.
Qed.


End Claims.


End Counting.

(** ** Retention: [cleanup] (C6) *)
Module Retention.
Import LightVectorDB Spec StoreFacts JsMapFacts ArrayFacts.
Section Claims.
Context {F : Type} `{JsNumber F}.
Implicit Types (w : World F) (d : LightVectorDB.t F).

(** A run of [deleteSession] calls on an initialised store. *)
Lemma delete_run (ids : list string) :
  forall w,
    isInitialized (db w) = true ->
    let w' := fold_left (fun w id => deleteSession id w) ids w in
    isInitialized (db w') = true
    /\ config (db w') = config (db w)
    /\ sessions (db w') = filter (not_listed ids) (sessions (db w)).
Proof.
  induction ids as [|id ids IH]; intros w Hinit; cbn [fold_left].
  - repeat split; auto. symmetry. now apply filter_all.
  - destruct (IH (deleteSession id w) (Counting.deleteSession_initialized id w))
      as [Hi [Hc Hs]].
    split; [exact Hi|]. split.
    + rewrite Hc, Cascade.deleteSession_db. simpl. now rewrite observed_ready.
    + rewrite Hs, Cascade.deleteSession_db. simpl. rewrite observed_ready by assumption.
      unfold JsMap.delete, not_listed.
      induction (sessions (db w)) as [|e m IHm]; simpl; [reflexivity|].
      rewrite (String.eqb_sym (fst e) id).
      destruct (String.eqb id (fst e)); simpl; [exact IHm|].
      destruct (existsb (String.eqb (fst e)) ids); simpl; [exact IHm|].
      now rewrite IHm.
Qed.

(** What [cleanup] leaves in memory. *)
Lemma cleanup_sessions now w :
  let d0 := observed w in
  let cutoffDate := now - maxAge (config d0) * 24 * 60 * 60 * 1000 in
  let kept := filter (not_listed (aged_out cutoffDate (sessions d0))) (sessions d0) in
  sessions (db (cleanup now w))
  = filter (not_listed (over_cap (maxSessions (config d0)) kept)) kept.
Proof.
  cbv zeta. unfold cleanup, observed. rewrite saveToStorage_db.
  set (w0 := initialize w).
  set (cutoffDate := now - maxAge (config (db w0)) * 24 * 60 * 60 * 1000).
  assert (Hinit : isInitialized (db w0) = true) by apply initialize_initialized.
  rewrite (fold_left_selected (fun id w => deleteSession id w) fst
             (too_old cutoffDate) (sessions (db w0)) w0).
  fold (aged_out cutoffDate (sessions (db w0))).
  destruct (delete_run (aged_out cutoffDate (sessions (db w0))) w0 Hinit)
    as [Hi1 [Hc1 Hs1]].
  set (w1 := fold_left _ (aged_out cutoffDate (sessions (db w0))) w0) in *.
  rewrite Hc1, Hs1. unfold over_cap.
  set (kept := filter _ (sessions (db w0))).
  destruct (maxSessions (config (db w0))
            <? Z.of_nat (List.length (by_recency (JsMap.values kept)))).
  - rewrite (fold_left_keys (fun id w => deleteSession id w) ChatSession.id).
    destruct (delete_run
                (map ChatSession.id
                     (Js.slice (maxSessions (config (db w0))) None
                               (by_recency (JsMap.values kept)))) w1 Hi1)
      as [_ [_ Hs2]].
    rewrite Hs2, Hs1. reflexivity.
  - rewrite Hs1. symmetry. now apply filter_all.
Qed.

Lemma cleanup_unchanged now w :
  let d0 := observed w in
  let cutoffDate := now - maxAge (config d0) * 24 * 60 * 60 * 1000 in
  (forall k session, In (k, session) (sessions d0) ->
                     cutoffDate <= ChatSession.createdAt session) ->
  JsMap.size (sessions d0) <= maxSessions (config d0) ->
  db (cleanup now w) = d0.
Proof.
  cbv zeta. unfold cleanup, observed. intros Hyoung Hfew.
  rewrite saveToStorage_db.
  set (w0 := initialize w) in *.
  set (cutoffDate := now - maxAge (config (db w0)) * 24 * 60 * 60 * 1000) in *.
  rewrite (fold_left_selected (fun id w => deleteSession id w) fst
             (too_old cutoffDate) (sessions (db w0)) w0).
  rewrite (filter_none (too_old cutoffDate) (sessions (db w0))).
  - cbn [map fold_left].
    unfold by_recency. rewrite sort_length. unfold JsMap.values, JsMap.size in *.
    rewrite length_map.
    destruct (maxSessions (config (db w0))
              <? Z.of_nat (List.length (sessions (db w0)))) eqn:E;
      [apply Z.ltb_lt in E; lia|reflexivity].
  - intros [k session] Hin. unfold too_old. simpl.
    apply Z.ltb_ge. now apply (Hyoung k).
Qed.

Lemma listed_spec (ids : list string) (entry : string * ChatSession.t) :
  not_listed ids entry = false <-> In (fst entry) ids.
Proof.
  unfold not_listed. rewrite negb_false_iff, existsb_exists. split.
  - intros [k [Hin Heq]]. apply String.eqb_eq in Heq. now subst.
  - intros Hin. exists (fst entry). split; [assumption|apply String.eqb_refl].
Qed.

Lemma kept_are_young cutoffDate (m : JsMap.t ChatSession.t) k session :
  In (k, session) (filter (not_listed (aged_out cutoffDate m)) m) ->
  cutoffDate <= ChatSession.createdAt session.
Proof.
  intros Hin. apply filter_In in Hin. destruct Hin as [Hin Hkeep].
  destruct (ChatSession.createdAt session <? cutoffDate) eqn:E;
    [|now apply Z.ltb_ge].
  exfalso. assert (Hl : not_listed (aged_out cutoffDate m) (k, session) = false).
  { apply listed_spec. unfold aged_out. apply in_map_iff.
    exists (k, session). split; [reflexivity|].
    apply filter_In. split; [assumption|exact E]. }
  congruence.
Qed.

Lemma filter_by_id (ids : list string) (m : JsMap.t ChatSession.t) :
  keyed_by_id m ->
  List.length (filter (not_listed ids) m)
  = List.length (filter (id_not_listed ids) (JsMap.values m)).
Proof.
  unfold JsMap.values. induction m as [|[k session] m IH]; intros Hkeyed;
    [reflexivity|].
  assert (Hk : ChatSession.id session = k) by (apply Hkeyed; now left).
  assert (Hm : keyed_by_id m)
    by (intros k' s' Hin; apply Hkeyed; now right).
  cbn [filter map]. unfold not_listed at 1, id_not_listed at 1. cbn [fst snd].
  rewrite Hk. destruct (negb (existsb (String.eqb k) ids));
    cbn [List.length]; now rewrite IH.
Qed.

Lemma capped (cap : Z) (m : JsMap.t ChatSession.t) :
  keyed_by_id m -> 0 <= cap ->
  JsMap.size (filter (not_listed (over_cap cap m)) m) <= cap.
Proof.
  intros Hkeyed Hcap. unfold JsMap.size, over_cap.
  assert (Hlen : List.length (by_recency (JsMap.values m)) = List.length m).
  { unfold by_recency, JsMap.values. now rewrite sort_length, length_map. }
  destruct (cap <? Z.of_nat (List.length (by_recency (JsMap.values m)))) eqn:E.
  - apply Z.ltb_lt in E. rewrite slice_suffix by assumption.
    rewrite (filter_by_id _ Hkeyed).
    remember (map ChatSession.id
                  (skipn (Z.to_nat cap) (by_recency (JsMap.values m)))) as dropped
      eqn:Hdropped.
    rewrite (Permutation_length
               (filter_permutation (id_not_listed dropped)
                  (Permutation_sym (sort_permutation more_recent (JsMap.values m))))).
    fold (by_recency (JsMap.values m)).
    rewrite <- (firstn_skipn (Z.to_nat cap) (by_recency (JsMap.values m))) at 1.
    rewrite filter_app, length_app.
    rewrite (filter_none (id_not_listed dropped)
                         (skipn (Z.to_nat cap) (by_recency (JsMap.values m)))).
    + pose proof (filter_length_bound (id_not_listed dropped)
                    (firstn (Z.to_nat cap) (by_recency (JsMap.values m)))).
      pose proof (firstn_le_length (Z.to_nat cap) (by_recency (JsMap.values m))).
      simpl. lia.
    + intros session Hin. unfold id_not_listed.
      apply negb_false_iff, existsb_exists.
      exists (ChatSession.id session). split; [|apply String.eqb_refl].
      subst dropped. now apply in_map.
  - apply Z.ltb_ge in E. rewrite filter_all by reflexivity. lia.
Qed.

Lemma keyed_filter (keep : string * ChatSession.t -> bool) (m : JsMap.t ChatSession.t) :
  keyed_by_id m -> keyed_by_id (filter keep m).
Proof.
  intros Hkeyed k session Hin. apply filter_In in Hin. now apply Hkeyed.
Qed.

(** C6, as the code has it.  After [cleanup] at time [now]: every session
    left was created at or after [now - maxAge] days; when the sessions are
    stored under their own ids and [maxSessions] is not negative, at most
    [maxSessions] are left (the second loop deletes by the [id] field of
    the session); and when no session is older than the cutoff and the
    sessions are not more than [maxSessions], the call changes nothing in
    memory. *)
Theorem cleanup_retention now w :
  let d0 := observed w in
  let cutoffDate := now - maxAge (config d0) * 24 * 60 * 60 * 1000 in
  let after := db (cleanup now w) in
  (forall k session,
      In (k, session) (sessions after) ->
      cutoffDate <= ChatSession.createdAt session)
  /\ (keyed_by_id (sessions d0) -> 0 <= maxSessions (config d0) ->
      JsMap.size (sessions after) <= maxSessions (config d0))
  /\ ((forall k session, In (k, session) (sessions d0) ->
                         cutoffDate <= ChatSession.createdAt session) ->
      JsMap.size (sessions d0) <= maxSessions (config d0) ->
      after = d0).
Proof.
  cbv zeta. split; [|split].
  - intros k session Hin. rewrite cleanup_sessions in Hin.
    apply filter_In in Hin. destruct Hin as [Hin _].
    now apply kept_are_young in Hin.
  - intros Hkeyed Hcap. rewrite cleanup_sessions.
    apply capped; [|assumption]. now apply keyed_filter.
  - apply cleanup_unchanged.
Qed.
End Claims.

Lemma cleanup_retention_witness :
  (let w := Samples.pair Samples.single in
   keyed_by_id (sessions (observed w))
   /\ 0 <= maxSessions (config (observed w))
   /\ JsMap.size (sessions (observed w)) = 2
   /\ maxSessions (config (observed w)) = 1
   /\ JsMap.size (sessions (db (cleanup 5000 w))) <= 1
   /\ JsMap.keys (sessions (db (cleanup 5000 w))) = ["session_1900_l4t3r0000"])
  /\ keyed_by_id (sessions (observed (snd Examples.trip_hello)))
  /\ 0 <= maxSessions (config (observed (snd Examples.trip_hello)))
  /\ JsMap.size (sessions (db (cleanup 5000 (snd Examples.trip_hello))))
     <= maxSessions (config (observed (snd Examples.trip_hello)))
  /\ db (cleanup 5000 (snd Examples.trip_hello))
     = observed (snd Examples.trip_hello).
Proof.
  cbv zeta.
  assert (Hpair : keyed_by_id (sessions (observed (Samples.pair Samples.single)))).
  { intros k session Hin. vm_compute in Hin.
    destruct Hin as [[= <- <-]|[[= <- <-]|[]]]; reflexivity. }
  assert (Hone : 0 <= maxSessions (config (observed (Samples.pair Samples.single))))
    by (vm_compute; discriminate).
  assert (Hkeyed : keyed_by_id (sessions (observed (snd Examples.trip_hello)))).
  { intros k session [[= <- <-]|[]]. reflexivity. }
  assert (Hcap : 0 <= maxSessions (config (observed (snd Examples.trip_hello))))
    by (vm_compute; discriminate).
  split.
  { split; [exact Hpair|]. split; [exact Hone|].
    split; [vm_compute; reflexivity|]. split; [reflexivity|].
    split; [|vm_compute; reflexivity].
    exact (proj1 (proj2 (cleanup_retention 5000 (Samples.pair Samples.single)))
             Hpair Hone). }
  split; [exact Hkeyed|]. split; [exact Hcap|]. split.
  - exact (proj1 (proj2 (cleanup_retention 5000 (snd Examples.trip_hello)))
             Hkeyed Hcap).
  - apply (proj2 (proj2 (cleanup_retention 5000 (snd Examples.trip_hello)))).
    + intros k session [[= <- <-]|[]]. vm_compute. discriminate.
    + vm_compute. discriminate.
Defined.

(** C6 as stated fails on a store that holds a session under a key
    other than its [id].  The store keeps one session at most.  A session
    is created at 1700 and [updateSession] overwrites its [id] field with
    ["zzz"] at 1800; a second session is created at 1900.  [cleanup] finds
    two sessions, keeps the more recent one and calls
    [deleteSession("zzz")] for the other, which is stored under the key
    [session_1700_k3j9x0q2a]: nothing is deleted and two sessions are
    left. *)
Lemma cleanup_misses_misfiled_session :
  let w := Samples.pair_misfiled Samples.single in
  maxSessions (config (observed w)) = 1
  /\ JsMap.keys (sessions (observed w))
     = ["session_1700_k3j9x0q2a"; "session_1900_l4t3r0000"]
  /\ map ChatSession.id (JsMap.values (sessions (observed w)))
     = ["zzz"; "session_1900_l4t3r0000"]
  /\ sessions (db (cleanup 5000 w)) = sessions (observed w)
  /\ JsMap.size (sessions (db (cleanup 5000 w))) = 2
  /\ ~ JsMap.size (sessions (db (cleanup 5000 w))) <= maxSessions (config (observed w)).
Proof.
  cbv zeta.
  split; [reflexivity|].
  split; [vm_compute; reflexivity|].
  split; [vm_compute; reflexivity|].
  split; [vm_compute; reflexivity|].
  split; [vm_compute; reflexivity|].
  vm_compute. intros E. now apply E.
Qed.

End Retention.

(** ** Export and import (C7) *)
Module RoundTrip.
Import LightVectorDB Spec StoreFacts JsMapFacts ArrayFacts.

Section Objects.
Context {V : Type}.
Implicit Types (o : JsObject.t V) (k : string) (v : V).

Lemma has_spec k o : JsObject.has k o = true <-> In k (JsMap.keys o).
Proof.
  unfold JsObject.has, JsMap.keys. rewrite existsb_exists, in_map_iff. split.
  - intros [e [Hin Heq]]. apply String.eqb_eq in Heq. exists e. now split.
  - intros [e [Heq Hin]]. exists e. split; [assumption|].
    apply String.eqb_eq. now symmetry.
Qed.

Lemma get_create_eq k v o :
  ~ In k (JsMap.keys o) -> JsMap.get k (JsObject.create k v o) = Some v.
Proof.
  induction o as [|[k' v'] o IH]; intros Hnew; cbn [JsObject.create].
  - simpl. now rewrite String.eqb_refl.
  - assert (Hne : String.eqb k k' = false)
      by (apply String.eqb_neq; intros ->; apply Hnew; now left).
    assert (Hrest : JsMap.get k (JsObject.create k v o) = Some v)
      by (apply IH; intros Hin; apply Hnew; now right).
    destruct (JsObject.array_index k) as [n|];
      [destruct (JsObject.array_index k') as [n'|]; [destruct (n <? n')|]|];
      simpl; rewrite ?String.eqb_refl, ?Hne; auto.
Qed.

Lemma get_create_ne k k' v o :
  k <> k' -> JsMap.get k' (JsObject.create k v o) = JsMap.get k' o.
Proof.
  intros Hne. assert (Hb : String.eqb k' k = false)
    by (apply String.eqb_neq; congruence).
  induction o as [|[k0 v0] o IH]; cbn [JsObject.create].
  - simpl. now rewrite Hb.
  - destruct (JsObject.array_index k) as [n|];
      [destruct (JsObject.array_index k0) as [n0|]; [destruct (n <? n0)|]|];
      simpl; rewrite ?Hb, ?IH; reflexivity.
Qed.

Lemma keys_create k v o k' :
  In k' (JsMap.keys (JsObject.create k v o)) <-> k' = k \/ In k' (JsMap.keys o).
Proof.
  induction o as [|[k0 v0] o IH]; cbn [JsObject.create].
  - simpl. intuition congruence.
  - destruct (JsObject.array_index k) as [n|];
      [destruct (JsObject.array_index k0) as [n0|]; [destruct (n <? n0)|]|];
      simpl in *; rewrite ?IH; intuition congruence.
Qed.

Lemma create_ok k v o :
  ~ In k (JsMap.keys o) -> JsMap.ok o -> JsMap.ok (JsObject.create k v o).
Proof.
  unfold JsMap.ok. induction o as [|[k0 v0] o IH]; intros Hnew Hnd;
    cbn [JsObject.create].
  - constructor; [simpl; tauto|constructor].
  - inversion Hnd as [|? ? Hnotin Hnd']; subst.
    assert (Hrest : NoDup (JsMap.keys (JsObject.create k v o)))
      by (apply IH; [intros Hin; apply Hnew; now right|assumption]).
    assert (Hk0 : ~ In k0 (JsMap.keys (JsObject.create k v o))).
    { rewrite keys_create. intros [->|Hin]; [apply Hnew; now left|].
      now apply Hnotin. }
    destruct (JsObject.array_index k) as [n|];
      [destruct (JsObject.array_index k0) as [n0|]; [destruct (n <? n0)|]|];
      simpl; constructor; auto.
Qed.

Lemma get_object_set_eq k v o : JsMap.get k (JsObject.set k v o) = Some v.
Proof.
  unfold JsObject.set. destruct (JsObject.has k o) eqn:E.
  - apply get_set_eq.
  - apply get_create_eq. rewrite <- has_spec. congruence.
Qed.

Lemma get_object_set_ne k k' v o :
  k <> k' -> JsMap.get k' (JsObject.set k v o) = JsMap.get k' o.
Proof.
  intros Hne. unfold JsObject.set. destruct (JsObject.has k o).
  - now apply get_set_ne.
  - now apply get_create_ne.
Qed.

Lemma object_set_ok k v o : JsMap.ok o -> JsMap.ok (JsObject.set k v o).
Proof.
  intros Hok. unfold JsObject.set. destruct (JsObject.has k o) eqn:E.
  - now apply set_ok.
  - apply create_ok; [|assumption]. rewrite <- has_spec. congruence.
Qed.

Lemma fromEntries_ok (entries : list (string * V)) :
  JsMap.ok (JsObject.fromEntries entries).
Proof.
  unfold JsObject.fromEntries.
  apply (fold_left_invariant (fun o : JsObject.t V => JsMap.ok o)).
  - intros o e Hok. now apply object_set_ok.
  - constructor.
Qed.

Lemma get_fromEntries (entries : list (string * V)) k :
  JsMap.ok entries ->
  JsMap.get k (JsObject.fromEntries entries) = JsMap.get k entries.
Proof.
  intros Hok.
  pose proof (get_build JsObject.set get_object_set_eq get_object_set_ne
                        entries [] k Hok) as E.
  unfold JsObject.fromEntries. etransitivity; [exact E|].
  now destruct (JsMap.get k entries).
Qed.
End Objects.

Lemma get_mapped {V W} (g : V -> W) (m : JsMap.t V) k :
  JsMap.get k (map (fun e => (fst e, g (snd e))) m)
  = option_map g (JsMap.get k m).
Proof.
  induction m as [|[k' v'] m IH]; simpl; [reflexivity|].
  destruct (String.eqb k k'); [reflexivity|exact IH].
Qed.

Lemma keys_mapped {V W} (g : V -> W) (m : JsMap.t V) :
  JsMap.keys (map (fun e => (fst e, g (snd e))) m) = JsMap.keys m.
Proof.
  unfold JsMap.keys. rewrite map_map. reflexivity.
Qed.

(** Sessions stored under their ids are listed and keyed again as they
    were. *)
Lemma rekeyed (m : JsMap.t ChatSession.t) :
  keyed_by_id m ->
  map (fun session => (ChatSession.id session, session)) (JsMap.values m) = m.
Proof.
  unfold JsMap.values. induction m as [|[k session] m IH]; intros Hkeyed;
    [reflexivity|].
  simpl. rewrite (Hkeyed k session) by now left.
  f_equal. apply IH. intros k' s' Hin. apply Hkeyed. now right.
Qed.

Section Claims.
Context {F : Type} `{JsNumber F}.
Implicit Types (w : World F).

(** C7, as the code has it.  For a store whose lists stand for [Map]s,
    whose sessions are stored under their own ids and whose vectors are
    [Float32Array] contents, importing what [exportData] has just returned,
    into the same store or into any other, gives a store that answers every
    lookup as the exported one did: the same session (id, title and the
    rest) under every id, the same message array under every session id,
    and the same vector under every message id. *)
Theorem import_export_roundtrip w target :
  well_formed (observed w) ->
  let restored := db (importData (fst (exportData w)) target) in
  (forall k, JsMap.get k (sessions restored)
             = JsMap.get k (sessions (observed w)))
  /\ (forall k, JsMap.get k (messages restored)
                = JsMap.get k (messages (observed w)))
  /\ (forall k, JsMap.get k (messageEmbeddings restored)
                = JsMap.get k (messageEmbeddings (observed w))).
Proof.
  intros [Hs Hm He Hkeyed Hfloat]. unfold observed in *.
  unfold importData, exportData. cbn -[JsMap.of_entries JsObject.fromEntries].
  set (d := db (initialize w)) in *.
  split; [|split]; intros k.
  - rewrite (rekeyed Hkeyed). now apply get_of_entries.
  - unfold JsObject.entries.
    rewrite get_of_entries by apply fromEntries_ok.
    now apply get_fromEntries.
  - unfold JsObject.entries.
    rewrite get_of_entries
      by (unfold JsMap.ok; rewrite keys_mapped; apply fromEntries_ok).
    rewrite get_mapped, get_fromEntries by assumption.
    destruct (JsMap.get k (messageEmbeddings d)) as [v|] eqn:E; [|reflexivity].
    simpl. f_equal. apply (Hfloat k). now apply get_In.
Qed.
End Claims.

Lemma trip_hello_well_formed : well_formed (observed (snd Examples.trip_hello)).
Proof.
  constructor.
  - unfold JsMap.ok. vm_compute. repeat constructor. simpl. tauto.
  - unfold JsMap.ok. vm_compute. repeat constructor. simpl. tauto.
  - unfold JsMap.ok. vm_compute. repeat constructor. simpl. tauto.
  - intros k session Hin. vm_compute in Hin.
    destruct Hin as [[= <- <-]|[]]. reflexivity.
  - intros k v Hin. vm_compute in Hin.
    destruct Hin as [[= <- <-]|[]]. vm_compute. reflexivity.
Qed.

Lemma import_export_roundtrip_witness :
  well_formed (observed (snd Examples.trip_hello))
  /\ (let restored := db (importData (fst (exportData (snd Examples.trip_hello)))
                                     Examples.fresh) in
      JsMap.get Examples.trip (sessions restored)
      = JsMap.get Examples.trip (sessions (observed (snd Examples.trip_hello)))
      /\ JsMap.get Examples.trip (messages restored)
         = JsMap.get Examples.trip (messages (observed (snd Examples.trip_hello)))).
Proof.
  split; [exact trip_hello_well_formed|].
  pose proof (import_export_roundtrip (snd Examples.trip_hello) Examples.fresh
                trip_hello_well_formed) as [Hs [Hm _]].
  split; [apply Hs|apply Hm].
Defined.

(** C7 as stated fails on a store that holds sessions under keys other
    than their [id].  Two sessions are created and [updateSession]
    overwrites the [id] field of each with ["zzz"].  [exportData] lists the
    two sessions, [importData] stores each under its [id] field, and the
    second replaces the first: one session is left, and no session is found
    under the keys of the exported store. *)
Lemma import_export_loses_misfiled_session :
  let w := Samples.both_misfiled in
  let restored := db (importData (fst (exportData w)) Examples.fresh) in
  map (fun e => (fst e, ChatSession.id (snd e), ChatSession.title (snd e)))
      (sessions (observed w))
  = [("session_1700_k3j9x0q2a", "zzz", "Trip Planning");
     ("session_1900_l4t3r0000", "zzz", "Later")]
  /\ map (fun e => (fst e, ChatSession.id (snd e), ChatSession.title (snd e)))
         (sessions restored)
     = [("zzz", "zzz", "Later")]
  /\ JsMap.get "session_1700_k3j9x0q2a" (sessions restored) = None
  /\ JsMap.get "session_1700_k3j9x0q2a" (sessions (observed w)) <> None.
Proof.
  cbv zeta.
  split; [vm_compute; reflexivity|].
  split; [vm_compute; reflexivity|].
  split; [vm_compute; reflexivity|].
  vm_compute. discriminate.
Qed.
End RoundTrip.

(** ** Similarity search (C4) *)
Module Search.
Import LightVectorDB Spec StoreFacts JsMapFacts ArrayFacts.
Local Open Scope R_scope.

Section Lists.
Context {A : Type}.

Lemma In_firstn (n : nat) (l : list A) x : In x (firstn n l) -> In x l.
Proof.
  intros Hin. rewrite <- (firstn_skipn n l). apply in_or_app. now left.
Qed.

Lemma firstn_sorted (R : A -> A -> Prop) (n : nat) (l : list A) :
  StronglySorted R l -> StronglySorted R (firstn n l).
Proof.
  intros Hs. revert n. induction Hs as [|x l Hs IH Hall]; intros [|n]; simpl;
    try constructor; auto.
  rewrite Forall_forall in *. intros y Hy. apply Hall. eapply In_firstn; eauto.
Qed.

Lemma firstn_filter_prefix (keep : A -> bool) (n : nat) (l : list A) :
  exists rest, filter keep l = (filter keep (firstn n l) ++ rest)%list.
Proof.
  exists (filter keep (skipn n l)).
  now rewrite <- filter_app, firstn_skipn.
Qed.
End Lists.

Implicit Types (w : World R) (d : LightVectorDB.t R) (r : VectorSearchResult R).

Lemma more_similar_spec (a b : VectorSearchResult R) :
  more_similar a b = true <-> similarity b < similarity a.
Proof.
  unfold more_similar. simpl.
  destruct (Rlt_dec (similarity b - similarity a) 0); split;
    intros; try discriminate; try reflexivity; lra.
Qed.

Lemma more_similar_false (a b : VectorSearchResult R) :
  more_similar a b = false <-> similarity a <= similarity b.
Proof.
  rewrite <- not_true_iff_false, more_similar_spec. lra.
Qed.

(** What the scan collects. *)
Lemma candidate_spec (q : list R) sessionId d r :
  In r (candidates q sessionId d) ->
  similarityThreshold (config d) <= similarity r
  /\ exists sid msgs,
       In (sid, msgs) (messages d)
       /\ skipped sessionId sid = false
       /\ In (message r) msgs.
Proof.
  unfold candidates. rewrite in_flat_map. intros [[sid msgs] [Hentry Hin]].
  cbn [fst snd] in Hin.
  destruct (skipped sessionId sid) eqn:Hskip; [destruct Hin|].
  rewrite in_flat_map in Hin. destruct Hin as [msg [Hmsg Hin]].
  destruct (JsMap.get (ChatMessage.id msg) (messageEmbeddings d)) as [e|];
    [|destruct Hin].
  simpl in Hin.
  destruct (Rle_dec (similarityThreshold (config d))
                    (EmbedderModelManager.cosineSimilarity q e)) as [Hle|];
    [|destruct Hin].
  destruct Hin as [<-|[]]. simpl. split; [exact Hle|].
  exists sid, msgs. auto.
Qed.

Lemma skipped_given sid k :
  sid <> EmptyString -> skipped (Some sid) k = false -> k = sid.
Proof.
  intros Hne. unfold skipped.
  destruct (String.eqb sid "") eqn:E; [apply String.eqb_eq in E; contradiction|].
  simpl. intros Hk. apply negb_false_iff in Hk. now apply String.eqb_eq.
Qed.

(** The result of a search, spelled out. *)
Lemma searchSimilarMessages_results query sessionId limit w :
  fst (searchSimilarMessages query sessionId limit w)
  = match query_embedding query w with
    | Some q =>
        Js.slice 0 (Some (limit_in_force limit))
                 (JsArray.sort more_similar (candidates q sessionId (observed w)))
    | None => []
    end.
Proof.
  unfold searchSimilarMessages, query_embedding, observed, limit_in_force.
  destruct query as [text|v].
  - destruct (EmbedderModelManager.embed text (embedder (initialize w)))
      as [[q|] mgr]; reflexivity.
  - reflexivity.
Qed.

(** C4, with similarities read as reals.  Every result is at or above the
    threshold; the results are in non-increasing order of similarity;
    results of equal similarity are in the order in which the scan met them
    (the sessions in the order of the message map, the messages of a session
    in array order); there are at most [limit] results when [limit] is not
    negative; and with a non-empty [sessionId] every result is a message of
    the array stored under that id. *)
Theorem searchSimilarMessages_ranked query sessionId limit w :
  let results := fst (searchSimilarMessages query sessionId limit w) in
  (forall r, In r results ->
             similarityThreshold (config (observed w)) <= similarity r)
  /\ StronglySorted (fun a b => similarity b <= similarity a) results
  /\ (forall q, query_embedding query w = Some q ->
      forall v, exists rest,
        filter (fun r => eqb (similarity r) v)
               (candidates q sessionId (observed w))
        = (filter (fun r => eqb (similarity r) v) results ++ rest)%list)
  /\ ((0 <= limit_in_force limit)%Z ->
      (Z.of_nat (List.length results) <= limit_in_force limit)%Z)
  /\ (forall sid, sessionId = Some sid -> sid <> EmptyString ->
      forall r, In r results ->
        exists msgs, In (sid, msgs) (messages (observed w))
                     /\ In (message r) msgs).
Proof.
  cbv zeta. rewrite searchSimilarMessages_results.
  destruct (query_embedding query w) as [q|].
  2:{ split; [intros r []|]. split; [constructor|].
      split; [intros q' [=]|]. split; [intros Hl; exact Hl|].
      intros sid _ _ r []. }
  set (scan := candidates q sessionId (observed w)).
  set (sorted := JsArray.sort more_similar scan).
  rewrite slice_prefix.
  set (n := Z.to_nat _).
  assert (Hsub : forall r, In r (firstn n sorted) -> In r scan).
  { intros r Hin. apply In_firstn in Hin.
    now apply (Permutation_in _ (sort_permutation more_similar scan)). }
  split; [|split; [|split; [|split]]].
  - intros r Hin. now apply (candidate_spec q sessionId (observed w)), Hsub.
  - apply firstn_sorted.
    assert (Hs : StronglySorted (JsArray.not_after more_similar) sorted).
    { apply sort_sorted.
      - intros x y. rewrite more_similar_spec, more_similar_false. lra.
      - intros x y z. rewrite !more_similar_false. lra. }
    clear - Hs. induction Hs as [|x l Hs IH Hall]; constructor; auto.
    rewrite Forall_forall in *. intros y Hy.
    apply more_similar_false. now apply Hall.
  - intros q' [= <-] v.
    destruct (firstn_filter_prefix (fun r => eqb (similarity r) v) n sorted)
      as [rest Hrest].
    exists rest. rewrite <- Hrest. symmetry. apply sort_filter.
    intros x y Hx Hy. apply more_similar_false. simpl in Hx, Hy.
    destruct (Req_dec_T (similarity x) v); [|discriminate].
    destruct (Req_dec_T (similarity y) v); [|discriminate]. lra.
  - intros Hlimit. unfold n. rewrite <- slice_prefix.
    now apply slice_prefix_length.
  - intros sid -> Hsid r Hin.
    destruct (candidate_spec q (Some sid) (observed w) r (Hsub r Hin))
      as [_ [k [msgs [Hentry [Hskip Hmsg]]]]].
    apply skipped_given in Hskip; [|exact Hsid]. subst k. now exists msgs.
Qed.

Lemma searchSimilarMessages_ranked_witness :
  (0 <= limit_in_force (Some 3%Z))%Z
  /\ Some Examples.trip = Some Examples.trip
  /\ Examples.trip <> EmptyString
  /\ (Z.of_nat (List.length
                  (fst (searchSimilarMessages (Text "Hello there")
                          (Some Examples.trip) (Some 3%Z)
                          Examples.exact_trip_hello))) <= 3)%Z
  /\ (forall r,
         In r (fst (searchSimilarMessages (Text "Hello there")
                      (Some Examples.trip) (Some 3%Z)
                      Examples.exact_trip_hello)) ->
         exists msgs,
           In (Examples.trip, msgs)
              (messages (observed Examples.exact_trip_hello))
           /\ In (message r) msgs).
Proof.
  assert (Hl : (0 <= limit_in_force (Some 3%Z))%Z) by (vm_compute; discriminate).
  assert (Hs : Examples.trip <> EmptyString) by (vm_compute; discriminate).
  split; [exact Hl|]. split; [reflexivity|]. split; [exact Hs|].
  pose proof (searchSimilarMessages_ranked (Text "Hello there")
                (Some Examples.trip) (Some 3%Z) Examples.exact_trip_hello)
    as [_ [_ [_ [Hlen Hscope]]]].
  split; [exact (Hlen Hl)|].
  exact (Hscope Examples.trip eq_refl Hs).
Defined.

(** The third scenario of the specification, in binary64: right after
    "Hello there" was added, searching for it in its session returns that
    message alone, with similarity 1. *)
Lemma search_finds_the_message_just_added :
  map (fun hit : VectorSearchResult spec_float =>
         (ChatMessage.id (message hit), similarity hit))
      (fst (searchSimilarMessages (Text "Hello there") (Some Examples.trip) None
                                  (snd Examples.trip_hello)))
  = [("msg_9x0q2a_2000_p0o9i8u7y6t5"%string, @one spec_float _)].
Proof. vm_compute. reflexivity. Qed.
End Search.

(** ** The shape of the store is kept by the operations

    The statements of C6 and C7 assume that the lists stand for [Map]s and
    that sessions are stored under their own ids.  Every operation keeps
    this shape, [updateSession] provided the partial does not rename the
    session; [importData] establishes it. *)
Module Shape.
Import LightVectorDB Spec StoreFacts JsMapFacts ArrayFacts.
Section Facts.
Context {F : Type} `{JsNumber F}.
Implicit Types (w : World F) (d : LightVectorDB.t F).

Lemma keyed_set (m : JsMap.t ChatSession.t) k session :
  ChatSession.id session = k -> keyed_by_id m ->
  keyed_by_id (JsMap.set k session m).
Proof.
  intros Hid Hkeyed k' s' Hin. apply In_set in Hin.
  destruct Hin as [[= -> ->]|Hin]; [exact Hid|now apply Hkeyed].
Qed.

Lemma keyed_delete (m : JsMap.t ChatSession.t) k :
  keyed_by_id m -> keyed_by_id (JsMap.delete k m).
Proof.
  intros Hkeyed k' s' Hin. apply In_delete in Hin. now apply Hkeyed.
Qed.

Lemma of_entries_ok {V} (entries : list (string * V)) :
  JsMap.ok (JsMap.of_entries entries).
Proof.
  unfold JsMap.of_entries.
  apply (fold_left_invariant (fun m : JsMap.t V => JsMap.ok m)).
  - intros m e Hok. now apply set_ok.
  - constructor.
Qed.

Lemma delete_all_ok {V} (ids : list string) (m : JsMap.t V) :
  JsMap.ok m -> JsMap.ok (fold_left (fun e id => JsMap.delete id e) ids m).
Proof.
  apply (fold_left_invariant (fun m : JsMap.t V => JsMap.ok m)).
  intros m' id Hok. now apply delete_ok.
Qed.

Lemma createSession_shape title t_id rnd t_created t_updated w :
  structured (observed w) ->
  structured (db (snd (createSession title t_id rnd t_created t_updated w))).
Proof.
  intros [Hs [Hm [He Hk]]]. unfold structured. simpl.
  repeat split; try (now apply set_ok); try assumption.
  now apply keyed_set.
Qed.

Lemma deleteSession_shape id w :
  structured (observed w) -> structured (db (deleteSession id w)).
Proof.
  intros [Hs [Hm [He Hk]]]. rewrite Cascade.deleteSession_db.
  unfold structured. simpl.
  repeat split; try (now apply delete_ok).
  - now apply delete_all_ok.
  - now apply keyed_delete.
Qed.

Lemma deleteMessage_shape id now w :
  structured (observed w) -> structured (db (deleteMessage id now w)).
Proof.
  unfold observed, deleteMessage. intros [Hs [Hm [He Hk]]].
  set (w0 := initialize w) in *.
  destruct (owner id (messages (db w0))) as [[sessionId msgs]|].
  - unfold structured. simpl.
    destruct (JsMap.get sessionId (sessions (db w0))) as [session|] eqn:Hget;
      repeat split; try (now apply set_ok); try (now apply delete_ok);
      try assumption.
    apply keyed_set; [|assumption]. simpl. apply (Hk sessionId). now apply get_In.
  - unfold structured. simpl. auto.
Qed.

Lemma updateSession_shape id updates now w :
  ChatSession.new_id updates = None ->
  structured (observed w) -> structured (db (updateSession id updates now w)).
Proof.
  unfold observed, updateSession. intros Hsame [Hs [Hm [He Hk]]].
  set (w0 := initialize w) in *.
  destruct (JsMap.get id (sessions (db w0))) as [session|] eqn:Hget.
  - unfold structured. simpl. repeat split; try assumption; [now apply set_ok|].
    apply keyed_set; [|assumption]. unfold ChatSession.updated. simpl.
    rewrite Hsame. simpl. apply (Hk id). now apply get_In.
  - unfold structured. simpl. auto.
Qed.

Lemma addMessage_shape data now rnd w :
  structured (observed w) -> structured (db (snd (addMessage data now rnd w))).
Proof.
  intros Hshape.
  destruct (existsb (duplicates data now) (scanned data w)) eqn:Hdup.
  - destruct (AddMessage.addMessage_duplicate data now rnd w Hdup) as [x ->].
    exact Hshape.
  - destruct Hshape as [Hs [Hm [He Hk]]].
    destruct (AddMessage.addMessage_fresh data now rnd w Hdup)
      as [_ [Hmsgs [Hsess _]]].
    unfold structured. rewrite Hmsgs, Hsess. split; [|split; [|split]].
    + destruct (JsMap.get _ (sessions (observed w))); [now apply set_ok|assumption].
    + now apply set_ok.
    + clear Hmsgs Hsess. unfold scanned, observed, addMessage in *.
      rewrite Hdup. cbv zeta.
      destruct (EmbedderModelManager.embed _ _) as [[e|] mgr]; simpl;
        [now apply set_ok|assumption].
    + destruct (JsMap.get _ (sessions (observed w))) as [session|] eqn:Hget;
        [|assumption].
      apply keyed_set; [|assumption]. simpl.
      apply (Hk (MessageData.sessionId data)). now apply get_In.
Qed.

Lemma cleanup_shape now w :
  structured (observed w) -> structured (db (cleanup now w)).
Proof.
  intros Hshape. unfold cleanup. rewrite saveToStorage_db.
  set (ready := fun w' : World F =>
                  isInitialized (db w') = true /\ structured (db w')).
  assert (Hstep : forall id w', ready w' -> ready (deleteSession id w')).
  { intros id w' [Hi Hsh]. split; [apply Counting.deleteSession_initialized|].
    apply deleteSession_shape. now rewrite observed_ready. }
  set (w1 := fold_left _ (sessions (db (initialize w))) (initialize w)).
  assert (H1 : ready w1).
  { unfold w1. apply (fold_left_invariant ready).
    - intros w' entry Hr.
      destruct (ChatSession.createdAt (snd entry) <? _); [now apply Hstep|assumption].
    - split; [apply initialize_initialized|exact Hshape]. }
  destruct (maxSessions (config (db w1)) <? _); [|apply H1].
  apply (fold_left_invariant ready); [|exact H1].
  intros w' session Hr. now apply Hstep.
Qed.

Lemma importData_shape listed arrays vectors w :
  structured (db (importData {| snap_sessions := Some listed;
                                snap_messages := Some arrays;
                                snap_embeddings := Some vectors |} w)).
Proof.
  unfold structured, importData. simpl.
  repeat split; try apply of_entries_ok.
  intros k session Hin. unfold JsMap.of_entries in Hin.
  apply Counting.In_of_entries in Hin. destruct Hin as [Hin|[]].
  apply in_map_iff in Hin. now destruct Hin as [s [[= <- <-] _]].
Qed.
End Facts.
End Shape.

(** ** The example scenarios of the specification, in binary64 *)
Module Scenarios.
Import LightVectorDB Spec.

(** 1. [createSession("Trip Planning")] *)
Lemma scenario_create :
  ChatSession.title (fst Examples.trip_created) = "Trip Planning"%string
  /\ ChatSession.messageCount (fst Examples.trip_created) = 0
  /\ ChatSession.preview (fst Examples.trip_created) = EmptyString
  /\ ChatSession.id (fst Examples.trip_created) = "session_1700_k3j9x0q2a"%string.
Proof. repeat split. Qed.

(** 2. [addMessage] of "Hello there": a 128-dimensional embedding is
    attached and indexed, the count becomes 1 and the preview the text. *)
Lemma scenario_add :
  option_map (@List.length spec_float)
             (ChatMessage.embedding (fst Examples.trip_hello)) = Some 128%nat
  /\ JsMap.get (ChatMessage.id (fst Examples.trip_hello))
               (messageEmbeddings (db (snd Examples.trip_hello)))
     = ChatMessage.embedding (fst Examples.trip_hello)
  /\ option_map (fun session => (ChatSession.messageCount session,
                                  ChatSession.preview session))
                (fst (getSession Examples.trip (snd Examples.trip_hello)))
     = Some (1, "Hello there"%string).
Proof. repeat split; vm_compute; reflexivity. Qed.

(** 5. [cleanup] with [maxAge = 30] and a session created 40 days before:
    the session and its messages are gone. *)
Lemma scenario_cleanup :
  let forty_days := 40 * 24 * 60 * 60 * 1000 in
  let after := cleanup (1700 + forty_days) (snd Examples.trip_hello) in
  maxAge (config (observed (snd Examples.trip_hello))) = 30
  /\ fst (getSession Examples.trip after) = None
  /\ fst (getMessages Examples.trip None after) = []
  /\ sessions (db after) = [].
Proof. cbv zeta. repeat split; vm_compute; reflexivity. Qed.
End Scenarios.

(** ** The other operations of the store *)
Module StoreOperations.
Import EmbedderModelManager LightVectorDB Spec StoreFacts JsMapFacts ArrayFacts StoreCommon.
Section Facts.
Context {F : Type} `{JsNumber F}.
Implicit Types (w : World F) (d : LightVectorDB.t F).

Lemma more_recent_spec (a b : ChatSession.t) :
  more_recent a b = true <-> ChatSession.updatedAt b < ChatSession.updatedAt a.
Proof. unfold more_recent. rewrite Z.ltb_lt. lia. Qed.

Lemma more_recent_false (a b : ChatSession.t) :
  more_recent a b = false <-> ChatSession.updatedAt a <= ChatSession.updatedAt b.
Proof. unfold more_recent. rewrite Z.ltb_ge. lia. Qed.

Lemma by_recency_spec (stored : list ChatSession.t) :
  Permutation (by_recency stored) stored
  /\ StronglySorted
       (fun a b => ChatSession.updatedAt b <= ChatSession.updatedAt a)
       (by_recency stored)
  /\ (forall t,
         filter (fun s => ChatSession.updatedAt s =? t) (by_recency stored)
         = filter (fun s => ChatSession.updatedAt s =? t) stored).
Proof.
  unfold by_recency. split; [apply sort_permutation|]. split.
  - assert (Hs : StronglySorted (JsArray.not_after more_recent)
                                (JsArray.sort more_recent stored)).
    { apply sort_sorted.
      - intros x y. rewrite more_recent_spec, more_recent_false. lia.
      - intros x y z. rewrite !more_recent_false. lia. }
    induction Hs as [|x l Hs IH Hall]; constructor; auto.
    rewrite Forall_forall in *. intros y Hy.
    apply more_recent_false. now apply Hall.
  - intros t. apply sort_filter. intros x y Hx Hy.
    apply Z.eqb_eq in Hx, Hy. apply more_recent_false. lia.
Qed.

(** X1.  [getAllSessions], of the store and of its fallback, returns the
    stored sessions, each once (a permutation of the values of the session
    map), in non-increasing order of [updatedAt]; sessions with the same
    [updatedAt] keep the order they have in the map; and the store itself
    is left as [initialize] made it. *)
Theorem getAllSessions_sorted w (st : SimpleVectorStore.t F) :
  (let listed := fst (getAllSessions w) in
   let stored := JsMap.values (sessions (observed w)) in
   Permutation listed stored
   /\ StronglySorted
        (fun a b => ChatSession.updatedAt b <= ChatSession.updatedAt a) listed
   /\ (forall t,
          filter (fun s => ChatSession.updatedAt s =? t) listed
          = filter (fun s => ChatSession.updatedAt s =? t) stored)
   /\ db (snd (getAllSessions w)) = observed w)
  /\ (let listed := SimpleVectorStore.getAllSessions st in
      let stored := JsMap.values (SimpleVectorStore.sessions st) in
      Permutation listed stored
      /\ StronglySorted
           (fun a b => ChatSession.updatedAt b <= ChatSession.updatedAt a) listed
      /\ (forall t,
             filter (fun s => ChatSession.updatedAt s =? t) listed
             = filter (fun s => ChatSession.updatedAt s =? t) stored)).
Proof.
  cbv zeta. unfold getAllSessions, SimpleVectorStore.getAllSessions, observed.
  cbn [fst snd]. split.
  - destruct (by_recency_spec (JsMap.values (sessions (db (initialize w)))))
      as [Hp [Hs Hf]].
    auto.
  - apply by_recency_spec.
Qed.

Lemma fold_min_spec (rest : list Z) :
  forall first,
    let m := fold_left Z.min rest first in
    m <= first /\ (forall y, In y rest -> m <= y) /\ In m (first :: rest).
Proof.
  induction rest as [|x rest IH]; intros first; cbn [fold_left].
  - cbv zeta. repeat split; [lia|intros y []|now left].
  - destruct (IH (Z.min first x)) as [Hle [Hall Hin]]. cbv zeta.
    split; [lia|]. split.
    + intros y [<-|Hy]; [lia|now apply Hall].
    + destruct Hin as [Hin|Hin]; [|right; now right].
      rewrite <- Hin.
      destruct (Z.min_spec first x) as [[_ E]|[_ E]]; rewrite E.
      * now left.
      * right. now left.
Qed.

Lemma count_messages_from (arrays : list (list (ChatMessage.t F))) :
  forall acc,
    fold_left (fun total msgs => total + Z.of_nat (List.length msgs)) arrays acc
    = acc + Z.of_nat (List.length (List.concat arrays)).
Proof.
  induction arrays as [|msgs arrays IH]; intros acc; simpl; [lia|].
  rewrite IH, length_app. lia.
Qed.

Lemma count_messages_concat (arrays : list (list (ChatMessage.t F))) :
  count_messages arrays = Z.of_nat (List.length (List.concat arrays)).
Proof. unfold count_messages. rewrite count_messages_from. lia. Qed.

Lemma oldest_or_spec now (m : JsMap.t ChatSession.t) :
  let oldest := oldest_or now (map ChatSession.createdAt (JsMap.values m)) in
  (m = [] -> oldest = now)
  /\ (forall k session, In (k, session) m ->
                        oldest <= ChatSession.createdAt session)
  /\ (m <> [] ->
      exists k session, In (k, session) m
                        /\ oldest = ChatSession.createdAt session).
Proof.
  cbv zeta. unfold JsMap.values.
  destruct m as [|[k0 s0] rest].
  - split; [reflexivity|]. split; [intros k s []|]. intros Hne. congruence.
  - cbn [map snd oldest_or].
    destruct (fold_min_spec (map ChatSession.createdAt (map snd rest))
                            (ChatSession.createdAt s0)) as [Hle [Hall Hin]].
    cbv zeta in *. split; [discriminate|]. split.
    + intros k session [[= <- <-]|Hin']; [exact Hle|].
      apply Hall. apply in_map. apply in_map_iff. now exists (k, session).
    + intros _. destruct Hin as [Hin|Hin].
      * exists k0, s0. split; [now left|now symmetry].
      * apply in_map_iff in Hin. destruct Hin as [s [Hs Hin]].
        apply in_map_iff in Hin. destruct Hin as [[k' s'] [Hs' Hin]].
        simpl in Hs'. subst s'. exists k', s. split; [now right|now symmetry].
Qed.

(** X2.  [getStats], of the store and of its fallback: [totalSessions] is
    the number of stored sessions, [totalMessages] the number of messages
    in all the message arrays together, [storageUsed] is 0, and
    [oldestSession] is the least [createdAt] of the stored sessions (a lower
    bound that one of them attains), or the current time when no session is
    stored. *)
Theorem getStats_summary now w (st : SimpleVectorStore.t F) :
  (let stats := fst (getStats now w) in
   let d := observed w in
   totalSessions stats = Z.of_nat (List.length (sessions d))
   /\ totalMessages stats
      = Z.of_nat (List.length (List.concat (JsMap.values (messages d))))
   /\ storageUsed stats = 0
   /\ (sessions d = [] -> oldestSession stats = now)
   /\ (forall k session, In (k, session) (sessions d) ->
                         oldestSession stats <= ChatSession.createdAt session)
   /\ (sessions d <> [] ->
       exists k session, In (k, session) (sessions d)
                         /\ oldestSession stats = ChatSession.createdAt session))
  /\ (let stats := SimpleVectorStore.getStats now st in
      totalSessions stats
      = Z.of_nat (List.length (SimpleVectorStore.sessions st))
      /\ totalMessages stats
         = Z.of_nat (List.length
                       (List.concat (JsMap.values (SimpleVectorStore.messages st))))
      /\ storageUsed stats = 0
      /\ (SimpleVectorStore.sessions st = [] -> oldestSession stats = now)
      /\ (forall k session, In (k, session) (SimpleVectorStore.sessions st) ->
                            oldestSession stats <= ChatSession.createdAt session)
      /\ (SimpleVectorStore.sessions st <> [] ->
          exists k session,
            In (k, session) (SimpleVectorStore.sessions st)
            /\ oldestSession stats = ChatSession.createdAt session)).
Proof.
  cbv zeta. unfold getStats, SimpleVectorStore.getStats, observed.
  cbn [fst totalSessions totalMessages storageUsed oldestSession].
  split.
  - split; [reflexivity|]. split; [apply count_messages_concat|].
    split; [reflexivity|]. apply oldest_or_spec.
  - split; [reflexivity|]. split; [apply count_messages_concat|].
    split; [reflexivity|]. apply oldest_or_spec.
Qed.

Lemma createSession_initialized title t_id rnd tc tu w :
  isInitialized (db (snd (createSession title t_id rnd tc tu w))) = true.
Proof.
  unfold createSession. cbn [snd]. rewrite saveToStorage_db.
  unfold with_db, with_maps. cbn [db isInitialized].
  apply initialize_initialized.
Qed.

(** X3.  After [createSession], [getSession] on the new id returns the
    session that was returned, [getMessages] on it returns no message
    whatever the limit, the title is the one given, or ['New Chat'] when it
    is missing or empty, the entries of the session map and of the message
    map under every other id are as before, and the embedding index is
    untouched. *)
Theorem createSession_then_lookup title t_id rnd t_created t_updated w :
  let session := fst (createSession title t_id rnd t_created t_updated w) in
  let w' := snd (createSession title t_id rnd t_created t_updated w) in
  fst (getSession (ChatSession.id session) w') = Some session
  /\ (forall limit, fst (getMessages (ChatSession.id session) limit w') = [])
  /\ ChatSession.title session
     = match title with
       | Some (String c rest) => String c rest
       | _ => "New Chat"%string
       end
  /\ (forall id, id <> ChatSession.id session ->
        JsMap.get id (sessions (db w')) = JsMap.get id (sessions (observed w))
        /\ JsMap.get id (messages (db w')) = JsMap.get id (messages (observed w)))
  /\ messageEmbeddings (db w') = messageEmbeddings (observed w).
Proof.
  cbv zeta.
  pose proof (createSession_initialized title t_id rnd t_created t_updated w) as Hi.
  unfold getSession, getMessages. rewrite (initialize_ready _ Hi).
  unfold createSession, observed in *. cbn [fst snd] in *.
  rewrite saveToStorage_db. unfold with_db, with_maps. cbn [db sessions messages messageEmbeddings ChatSession.id ChatSession.title].
  split; [now rewrite get_set_eq|]. split.
  { intros limit. rewrite get_set_eq. cbn [fst ChatSession.or_else].
    apply Cascade.last_messages_nil. }
  split.
  { unfold title_or_default. destruct title as [[|c rest]|]; reflexivity. }
  split; [|reflexivity].
  intros id Hne. split; apply get_set_ne; congruence.
Qed.

(** X4.  [updateSession] on an id that the session map holds stores the
    session merged with the updates under that id, with [updatedAt] set to
    the current time, and leaves the other sessions and the fallback store
    alone; on an id that the map does not hold it changes neither the
    session map nor the device and hands the update to the fallback store.
    In both cases the messages and the embedding index are untouched. *)
Theorem updateSession_effect id updates now w :
  let w' := updateSession id updates now w in
  match JsMap.get id (sessions (observed w)) with
  | Some session =>
      JsMap.get id (sessions (db w'))
      = Some (ChatSession.updated session updates now)
      /\ (forall k, k <> id ->
            JsMap.get k (sessions (db w')) = JsMap.get k (sessions (observed w)))
      /\ fallbackStore (db w') = fallbackStore (db w)
  | None =>
      sessions (db w') = sessions (observed w)
      /\ device w' = device (initialize w)
      /\ fallbackStore (db w')
         = SimpleVectorStore.updateSession id updates now (fallbackStore (db w))
  end
  /\ messages (db w') = messages (observed w)
  /\ messageEmbeddings (db w') = messageEmbeddings (observed w).
Proof.
  cbv zeta. unfold updateSession, observed.
  pose proof (initialize_fallback w) as Hfb.
  destruct (JsMap.get id (sessions (db (initialize w)))) as [session|] eqn:E.
  - rewrite saveToStorage_db. unfold with_db, with_maps.
    cbn [db sessions messages messageEmbeddings fallbackStore].
    rewrite get_set_eq. repeat split; auto.
    intros k Hne. apply get_set_ne. congruence.
  - unfold with_db, with_fallback.
    cbn [db device sessions messages messageEmbeddings fallbackStore].
    rewrite Hfb. repeat split; auto.
Qed.

Lemma owner_spec id (m : JsMap.t (list (ChatMessage.t F))) sessionId msgs :
  owner id m = Some (sessionId, msgs) ->
  In (sessionId, msgs) m /\ existsb (has_id id) msgs = true.
Proof.
  unfold owner. intros Hf. apply find_some in Hf. exact Hf.
Qed.

Lemma owner_none id (m : JsMap.t (list (ChatMessage.t F))) :
  owner id m = None ->
  forall k msgs msg, In (k, msgs) m -> In msg msgs -> ChatMessage.id msg <> id.
Proof.
  unfold owner. intros Hf k msgs msg Hin Hmsg Hid.
  pose proof (find_none _ _ Hf _ Hin) as Hn. cbn [snd] in Hn.
  assert (Ht : existsb (has_id id) msgs = true).
  { apply existsb_exists. exists msg. split; [assumption|].
    unfold has_id. now apply String.eqb_eq. }
  congruence.
Qed.

Lemma splice_id_length id (msgs : list (ChatMessage.t F)) :
  existsb (has_id id) msgs = true ->
  S (List.length (splice_id id msgs)) = List.length msgs.
Proof.
  induction msgs as [|m msgs IH]; simpl; [discriminate|].
  destruct (has_id id m); simpl; [reflexivity|].
  intros Hex. now rewrite IH.
Qed.

Lemma splice_id_filter id (msgs : list (ChatMessage.t F)) :
  NoDup (map ChatMessage.id msgs) ->
  splice_id id msgs = filter (fun m => negb (has_id id m)) msgs.
Proof.
  induction msgs as [|m msgs IH]; simpl; [reflexivity|].
  intros Hnd. inversion Hnd as [|? ? Hnotin Hnd']; subst.
  destruct (has_id id m) eqn:E; simpl.
  - unfold has_id in E. apply String.eqb_eq in E.
    symmetry. apply filter_all. intros x Hx.
    apply negb_true_iff. unfold has_id. apply String.eqb_neq.
    intros Hid. apply Hnotin. rewrite E, <- Hid. now apply in_map.
  - now rewrite IH.
Qed.

Lemma deleteMessage_array id now w sessionId msgs :
  owner id (messages (observed w)) = Some (sessionId, msgs) ->
  JsMap.get sessionId (messages (db (deleteMessage id now w)))
  = Some (splice_id id msgs)
  /\ isInitialized (db (deleteMessage id now w)) = true.
Proof.
  unfold deleteMessage, observed. intros E. rewrite E.
  unfold with_db, with_fallback. cbn [db messages isInitialized].
  rewrite !saveToStorage_db. unfold with_maps. cbn [db messages isInitialized].
  split; [apply get_set_eq|apply initialize_initialized].
Qed.

(** X5.  [deleteMessage] on an id found in a message array (the first
    array of the map that holds it): the entry of the embedding index under
    that id is gone, the array has lost the first message with that id,
    one message, and, when the ids of the array are distinct, it holds the
    other messages and no more; the other arrays and sessions are as
    before; the session of the array, if there is one, has its count
    lowered by one and [updatedAt] set to the current time, with its
    preview unchanged.  On an id that no array holds, the three maps and
    the device are untouched.  In both cases the id is handed to the
    fallback store. *)
Theorem deleteMessage_effect id now w :
  let d := observed w in
  let w' := deleteMessage id now w in
  match owner id (messages d) with
  | Some (sessionId, msgs) =>
      JsMap.get id (messageEmbeddings (db w')) = None
      /\ JsMap.get sessionId (messages (db w')) = Some (splice_id id msgs)
      /\ S (List.length (splice_id id msgs)) = List.length msgs
      /\ (NoDup (map ChatMessage.id msgs) ->
          forall msg, In msg (splice_id id msgs) <->
                      In msg msgs /\ ChatMessage.id msg <> id)
      /\ (forall k, k <> sessionId ->
            JsMap.get k (messages (db w')) = JsMap.get k (messages d)
            /\ JsMap.get k (sessions (db w')) = JsMap.get k (sessions d))
      /\ (forall session, JsMap.get sessionId (sessions d) = Some session ->
            exists session',
              JsMap.get sessionId (sessions (db w')) = Some session'
              /\ ChatSession.messageCount session'
                 = Z.of_nat (List.length msgs) - 1
              /\ ChatSession.updatedAt session' = now
              /\ ChatSession.preview session' = ChatSession.preview session)
  | None =>
      sessions (db w') = sessions d
      /\ messages (db w') = messages d
      /\ messageEmbeddings (db w') = messageEmbeddings d
      /\ device w' = device (initialize w)
  end
  /\ fallbackStore (db w')
     = SimpleVectorStore.deleteMessage id (fallbackStore (db w)).
Proof.
  cbv zeta. unfold deleteMessage, observed.
  pose proof (initialize_fallback w) as Hfb.
  destruct (owner id (messages (db (initialize w)))) as [[sessionId msgs]|] eqn:E.
  - apply owner_spec in E. destruct E as [Hin Hex].
    unfold with_db, with_fallback.
    cbn [db sessions messages messageEmbeddings fallbackStore].
    rewrite !saveToStorage_db. unfold with_maps.
    cbn [db sessions messages messageEmbeddings fallbackStore].
    split; [|now rewrite Hfb].
    split; [apply get_delete_eq|]. split; [apply get_set_eq|].
    split; [now apply splice_id_length|]. split.
    { intros Hnd msg. rewrite (@splice_id_filter id msgs Hnd), filter_In.
      unfold has_id. rewrite negb_true_iff, String.eqb_neq. tauto. }
    split.
    { intros k Hne. split; [apply get_set_ne; congruence|].
      destruct (JsMap.get sessionId (sessions (db (initialize w)))); [|reflexivity].
      apply get_set_ne. congruence. }
    intros session Hs. rewrite Hs. eexists. rewrite get_set_eq.
    split; [reflexivity|]. cbn [ChatSession.messageCount ChatSession.updatedAt ChatSession.preview].
    pose proof (splice_id_length id msgs Hex). repeat split; lia.
  - unfold with_db, with_fallback.
    cbn [db device sessions messages messageEmbeddings fallbackStore].
    rewrite Hfb. repeat split; reflexivity.
Qed.

Lemma slice_last (A : Type) (n : Z) (l : list A) :
  0 < n ->
  Js.slice (- n) None l = skipn (List.length l - Z.to_nat n) l.
Proof.
  intros Hn. unfold Js.slice, Js.clamp_index.
  destruct (- n <? 0) eqn:E; [|apply Z.ltb_ge in E; lia].
  set (len := Z.of_nat (List.length l)).
  replace (Z.to_nat (Z.max (len + - n) 0)) with (List.length l - Z.to_nat n)%nat
    by (unfold len; lia).
  apply firstn_all2. rewrite length_skipn. unfold len. lia.
Qed.

Lemma slice_from (A : Type) (n : Z) (l : list A) :
  0 <= n -> Js.slice n None l = skipn (Z.to_nat n) l.
Proof.
  intros Hn. unfold Js.slice, Js.clamp_index.
  destruct (n <? 0) eqn:E; [apply Z.ltb_lt in E; lia|].
  set (len := Z.of_nat (List.length l)).
  destruct (Z.min_spec n len) as [[Hlt ->]|[Hge ->]].
  - apply firstn_all2. rewrite length_skipn. unfold len in *. lia.
  - rewrite !skipn_all2 by (unfold len in *; lia). now rewrite firstn_nil.
Qed.

Lemma last_messages_spec (limit : option Z) (stored : list (ChatMessage.t F)) :
  match limit with
  | None => last_messages limit stored = stored
  | Some n =>
      if n =? 0 then last_messages limit stored = stored
      else if 0 <? n
           then last_messages limit stored
                = skipn (List.length stored - Z.to_nat n) stored
                /\ List.length (last_messages limit stored)
                   = Nat.min (Z.to_nat n) (List.length stored)
           else last_messages limit stored = skipn (Z.to_nat (- n)) stored
  end
  /\ (exists earlier, stored = (earlier ++ last_messages limit stored)%list).
Proof.
  assert (Hcases :
    match limit with
    | None => last_messages limit stored = stored
    | Some n =>
        if n =? 0 then last_messages limit stored = stored
        else if 0 <? n
             then last_messages limit stored
                  = skipn (List.length stored - Z.to_nat n) stored
             else last_messages limit stored = skipn (Z.to_nat (- n)) stored
    end).
  { destruct limit as [n|]; [|reflexivity]. unfold last_messages.
    destruct (n =? 0) eqn:E0; [reflexivity|]. apply Z.eqb_neq in E0.
    destruct (0 <? n) eqn:Ep.
    - apply Z.ltb_lt in Ep. now apply slice_last.
    - apply Z.ltb_ge in Ep. replace n with (- - n) at 1 by lia.
      rewrite Z.opp_involutive. apply slice_from. lia. }
  split.
  - destruct limit as [n|]; [|exact Hcases].
    destruct (n =? 0); [exact Hcases|].
    destruct (0 <? n); [|exact Hcases].
    split; [exact Hcases|]. rewrite Hcases, length_skipn. lia.
  - destruct limit as [n|]; [|exists []; now rewrite Hcases].
    destruct (n =? 0); [exists []; now rewrite Hcases|].
    destruct (0 <? n); rewrite Hcases.
    + exists (firstn (List.length stored - Z.to_nat n) stored).
      now rewrite firstn_skipn.
    + exists (firstn (Z.to_nat (- n)) stored). now rewrite firstn_skipn.
Qed.

(** X6.  [getMessages], of the store and of its fallback, on the array
    stored under the session id (no message when there is none): without a
    limit, or with the limit 0, it returns the whole array; with a positive
    limit [n] it returns the last [n] messages, all of them when there are
    fewer; with a negative limit [-n] it returns the array without its
    first [n] messages.  The result is always a suffix of the array, and
    the store is left as [initialize] made it. *)
Theorem getMessages_limit sessionId limit w (st : SimpleVectorStore.t F) :
  (let stored :=
     ChatSession.or_else (JsMap.get sessionId (messages (observed w))) [] in
   let result := fst (getMessages sessionId limit w) in
   match limit with
   | None => result = stored
   | Some n =>
       if n =? 0 then result = stored
       else if 0 <? n
            then result = skipn (List.length stored - Z.to_nat n) stored
                 /\ List.length result = Nat.min (Z.to_nat n) (List.length stored)
            else result = skipn (Z.to_nat (- n)) stored
   end
   /\ (exists earlier, stored = (earlier ++ result)%list)
   /\ snd (getMessages sessionId limit w) = initialize w)
  /\ (let stored :=
        ChatSession.or_else
          (JsMap.get sessionId (SimpleVectorStore.messages st)) [] in
      let result := SimpleVectorStore.getMessages sessionId limit st in
      match limit with
      | None => result = stored
      | Some n =>
          if n =? 0 then result = stored
          else if 0 <? n
               then result = skipn (List.length stored - Z.to_nat n) stored
                    /\ List.length result
                       = Nat.min (Z.to_nat n) (List.length stored)
               else result = skipn (Z.to_nat (- n)) stored
      end
      /\ (exists earlier, stored = (earlier ++ result)%list)).
Proof.
  cbv zeta. unfold getMessages, SimpleVectorStore.getMessages, observed.
  cbn [fst snd]. split.
  - destruct (last_messages_spec limit
                (ChatSession.or_else
                   (JsMap.get sessionId (messages (db (initialize w)))) []))
      as [Hc He].
    auto.
  - apply last_messages_spec.
Qed.

Lemma set_fresh {V} k (v : V) (m : JsMap.t V) :
  ~ In k (JsMap.keys m) -> JsMap.set k v m = (m ++ [(k, v)])%list.
Proof.
  induction m as [|[k' v'] m IH]; simpl; [reflexivity|].
  intros Hnotin. destruct (String.eqb k k') eqn:E.
  - apply String.eqb_eq in E. subst. tauto.
  - rewrite IH; [reflexivity|tauto].
Qed.

Lemma of_entries_from {V} (entries : list (string * V)) :
  forall acc,
    JsMap.ok (acc ++ entries)%list ->
    fold_left (fun m e => JsMap.set (fst e) (snd e) m) entries acc
    = (acc ++ entries)%list.
Proof.
  unfold JsMap.ok, JsMap.keys.
  induction entries as [|[k v] entries IH]; intros acc Hok; simpl.
  - now rewrite app_nil_r.
  - rewrite map_app in Hok. simpl in Hok.
    rewrite set_fresh.
    + rewrite IH; rewrite <- app_assoc; [reflexivity|].
      now rewrite map_app.
    + apply NoDup_remove_2 in Hok. intros Hin. apply Hok.
      apply in_or_app. now left.
Qed.

Lemma of_entries_id {V} (m : JsMap.t V) : JsMap.ok m -> JsMap.of_entries m = m.
Proof. intros Hok. unfold JsMap.of_entries. now rewrite of_entries_from. Qed.

Lemma revived_texts (m : JsMap.t (list (ChatMessage.t F))) :
  Vocabulary.texts (map (fun e => (fst e, map ChatMessage.revived (snd e))) m)
  = Vocabulary.texts m.
Proof.
  unfold Vocabulary.texts. rewrite map_map. apply map_ext. intros [k msgs].
  cbn [fst snd]. f_equal. rewrite map_map. apply map_ext. intros msg.
  reflexivity.
Qed.

Lemma reloaded_fixed (e : JsMap.t (list F)) :
  (forall k v x, In (k, v) e -> In x v -> fround (json x) = x) ->
  Vocabulary.reloaded e = e.
Proof.
  unfold Vocabulary.reloaded. induction e as [|[k v] e IH]; intros Hf; simpl.
  - reflexivity.
  - rewrite IH by (intros k' v' x Hin; apply (Hf k' v' x); now right).
    f_equal. f_equal. rewrite <- (map_id v) at 2. apply map_ext_in.
    intros x Hx. apply (Hf k v x); [now left|assumption].
Qed.

(** X7.  A store whose three lists stand for maps is written to the device
    by [saveToStorage]; when that write and the next read succeed, a new
    store on the same device (a restart) has, after [initialize], the same
    sessions, in the same order; the same message arrays but for the
    [embedding] fields of the messages, which come back as plain objects;
    and the embedding index with every component taken through the saved
    text and stored in a [Float32Array] again, which leaves the index as it
    was when no component is changed by that.  The store keeps its own
    configuration. *)
Theorem restart_recovers_saved_state w cfg mgr :
  JsMap.ok (sessions (db w)) ->
  JsMap.ok (messages (db w)) ->
  JsMap.ok (messageEmbeddings (db w)) ->
  AsyncStorage.fails (device w) (AsyncStorage.calls (device w)) = false ->
  AsyncStorage.fails (device w) (S (AsyncStorage.calls (device w))) = false ->
  let restarted :=
    initialize {| db := new cfg; device := device (saveToStorage w);
                  embedder := mgr |} in
  sessions (db restarted) = sessions (db w)
  /\ Vocabulary.texts (messages (db restarted)) = Vocabulary.texts (messages (db w))
  /\ JsMap.keys (messages (db restarted)) = JsMap.keys (messages (db w))
  /\ messageEmbeddings (db restarted) = Vocabulary.reloaded (messageEmbeddings (db w))
  /\ ((forall k v x, In (k, v) (messageEmbeddings (db w)) -> In x v ->
                     fround (json x) = x) ->
      messageEmbeddings (db restarted) = messageEmbeddings (db w))
  /\ config (db restarted) = cfg
  /\ isInitialized (db restarted) = true.
Proof.
  intros Hs Hm He Hwrite Hread. cbv zeta.
  unfold initialize, saveToStorage, loadFromStorage, AsyncStorage.setItem,
    AsyncStorage.getItem.
  cbn [db isInitialized new device]. rewrite Hwrite.
  cbn [snd AsyncStorage.fails AsyncStorage.calls AsyncStorage.item]. rewrite Hread.
  unfold with_db, with_maps.
  cbn [db sessions messages messageEmbeddings config isInitialized
       AsyncStorage.saved_sessions AsyncStorage.saved_messages
       AsyncStorage.saved_embeddings].
  assert (Hm' : JsMap.ok (map (fun e => (fst e, map ChatMessage.revived (snd e)))
                              (messages (db w))))
    by (unfold JsMap.ok; now rewrite RoundTrip.keys_mapped).
  assert (He' : JsMap.ok (Vocabulary.reloaded (messageEmbeddings (db w))))
    by (unfold JsMap.ok, Vocabulary.reloaded; now rewrite RoundTrip.keys_mapped).
  fold (Vocabulary.reloaded (messageEmbeddings (db w))).
  rewrite !of_entries_id by assumption.
  split; [reflexivity|]. split; [apply revived_texts|].
  split; [apply RoundTrip.keys_mapped|]. split; [reflexivity|].
  split; [|split; reflexivity].
  intros Hfixed. now apply reloaded_fixed.
Qed.

(** X8.  [initialize] on a store that is not initialized yet, when the read
    from the device throws, finds nothing, or finds a value that does not
    parse: the three maps are left as they are, the store is marked as
    initialized, the device was called once and holds what it held, and a
    second [initialize] does nothing. *)
Theorem initialize_without_saved_state w :
  isInitialized (db w) = false ->
  AsyncStorage.fails (device w) (AsyncStorage.calls (device w)) = true
  \/ AsyncStorage.item (device w) = AsyncStorage.Absent
  \/ AsyncStorage.item (device w) = AsyncStorage.Unparsable ->
  let w' := initialize w in
  sessions (db w') = sessions (db w)
  /\ messages (db w') = messages (db w)
  /\ messageEmbeddings (db w') = messageEmbeddings (db w)
  /\ isInitialized (db w') = true
  /\ AsyncStorage.item (device w') = AsyncStorage.item (device w)
  /\ AsyncStorage.calls (device w') = S (AsyncStorage.calls (device w))
  /\ initialize w' = w'.
Proof.
  intros Hi Hcase. cbv zeta.
  assert (Hidem : initialize (initialize w) = initialize w) by apply initialize_idem.
  split; [|split; [|split; [|split; [|split; [|split; [|exact Hidem]]]]]];
    unfold initialize, loadFromStorage, AsyncStorage.getItem; rewrite Hi;
    destruct (AsyncStorage.fails (device w) (AsyncStorage.calls (device w)));
    try reflexivity;
    destruct Hcase as [Hc|[Hc|Hc]]; try discriminate; rewrite Hc; reflexivity.
Qed.

Lemma candidates_nil (q : list F) sessionId d :
  leb (similarityThreshold (config d)) zero = false ->
  (forall k v, In (k, v) (messageEmbeddings d) -> List.length v <> List.length q) ->
  candidates q sessionId d = [].
Proof.
  intros Hth Hlen. unfold candidates.
  induction (messages d) as [|[sid msgs] rest IH]; [reflexivity|].
  cbn [flat_map fst snd]. rewrite IH, app_nil_r.
  destruct (skipped sessionId sid); [reflexivity|].
  induction msgs as [|msg msgs IHm]; [reflexivity|].
  cbn [flat_map]. rewrite IHm, app_nil_r.
  destruct (JsMap.get (ChatMessage.id msg) (messageEmbeddings d)) as [v|] eqn:E;
    [|reflexivity].
  apply get_In in E. apply Hlen in E.
  rewrite Cosine.cosineSimilarity_length_mismatch by congruence.
  now rewrite Hth.
Qed.

Lemma search_results query sessionId limit w :
  fst (searchSimilarMessages query sessionId limit w)
  = match query_embedding query w with
    | Some q =>
        Js.slice 0 (Some (limit_in_force limit))
                 (JsArray.sort more_similar (candidates q sessionId (observed w)))
    | None => []
    end.
Proof.
  unfold searchSimilarMessages, query_embedding, observed, limit_in_force.
  destruct query as [text|v].
  - destruct (EmbedderModelManager.embed text (embedder (initialize w)))
      as [[q|] mgr]; reflexivity.
  - reflexivity.
Qed.

(** X9.  A search by a query vector whose length is that of no stored
    vector finds nothing, when the similarity threshold is above zero:
    every comparison gives similarity 0. *)
Theorem searchSimilarMessages_other_dimension q sessionId limit w :
  leb (similarityThreshold (config (observed w))) zero = false ->
  (forall k v, In (k, v) (messageEmbeddings (observed w)) ->
               List.length v <> List.length q) ->
  fst (searchSimilarMessages (Vector q) sessionId limit w) = [].
Proof.
  intros Hth Hlen. rewrite search_results.
  cbn [query_embedding]. rewrite candidates_nil by assumption.
  cbn [JsArray.sort]. unfold Js.slice. cbn [List.length skipn].
  now rewrite firstn_nil.
Qed.

Lemma generateSimpleEmbedding_length (text : string) (dimensions : nat) :
  List.length (@generateSimpleEmbedding F _ text dimensions) = dimensions.
Proof.
  unfold generateSimpleEmbedding.
  match goal with
  | |- context [fold_left ?g ?l2 (fold_left ?f ?l1 ?e0)] =>
      assert (Hlen : List.length (fold_left g l2 (fold_left f l1 e0)) = dimensions)
  end.
  { apply fold_left_invariant.
    - intros e i He. now rewrite Embedding.increment_at_length.
    - apply fold_left_invariant.
      + intros e i He. now rewrite Embedding.increment_at_length.
      + apply repeat_length. }
  destruct (ltb zero _); [rewrite length_map|]; exact Hlen.
Qed.

Lemma embed_succeeds (text : string) (mgr : EmbedderModelManager.t) :
  exists dims,
    fst (embed text mgr) = Some (@generateSimpleEmbedding F _ text dims)
    /\ embeddingFunction (snd (embed text mgr)) = Some dims
    /\ match embeddingFunction mgr with
       | Some d => dims = d /\ snd (embed text mgr) = mgr
       | None =>
           match currentModel mgr with
           | Some model => dims = dimensions model
           | None => dims = 128%nat
           end
       end.
Proof.
  unfold embed. destruct (embeddingFunction mgr) as [d|] eqn:E.
  - rewrite E. exists d. cbn [fst snd]. auto.
  - destruct (currentModel mgr) as [model|].
    + exists (dimensions model). cbn. auto.
    + exists 128%nat. cbn. auto.
Qed.

(** X10.  A call of [addMessage] that stores a new message attaches an
    embedding to it: the manager's [embed] never throws.  The embedding is
    that of the content in the dimension [dims] that the manager's
    embedding function has after the call, it has [dims] components, it is
    stored in the embedding index under the id of the message, and the
    other entries of the index are as before. *)
Theorem addMessage_attaches_embedding data now rnd w :
  existsb (duplicates data now) (scanned data w) = false ->
  let msg := fst (addMessage data now rnd w) in
  let w' := snd (addMessage data now rnd w) in
  exists dims,
    ChatMessage.embedding msg
    = Some (generateSimpleEmbedding (MessageData.content data) dims)
    /\ JsMap.get (ChatMessage.id msg) (messageEmbeddings (db w'))
       = ChatMessage.embedding msg
    /\ option_map (@List.length F) (ChatMessage.embedding msg) = Some dims
    /\ embeddingFunction (embedder w') = Some dims
    /\ (forall k, k <> ChatMessage.id msg ->
          JsMap.get k (messageEmbeddings (db w'))
          = JsMap.get k (messageEmbeddings (observed w))).
Proof.
  intros Hfresh. cbv zeta. unfold scanned, observed in Hfresh.
  unfold addMessage, observed. cbv zeta.
  destruct (initialize w) as [d dev mgr0] eqn:Hw.
  cbn [db device embedder] in *. rewrite Hfresh.
  cbn [ChatMessage.content].
  destruct (embed_succeeds (MessageData.content data)
              (EmbedderModelManager.initialize
                 (AsyncStorage.embedderStatus dev) mgr0))
    as [dims [Hv [Hfn _]]].
  destruct (embed (MessageData.content data)
              (EmbedderModelManager.initialize
                 (AsyncStorage.embedderStatus dev) mgr0)) as [generated mgr].
  cbn [fst snd] in Hv, Hfn. subst generated.
  exists dims. cbn [fst snd]. rewrite saveToStorage_db.
  unfold with_maps. cbn [db messageEmbeddings ChatMessage.embedding ChatMessage.id embedder saveToStorage].
  split; [reflexivity|]. split; [apply get_set_eq|].
  split; [cbn [option_map]; now rewrite generateSimpleEmbedding_length|].
  split; [exact Hfn|].
  intros k Hne. apply get_set_ne. congruence.
Qed.

(** X11.  [addMessage] for a session id that neither the session map nor
    the message map holds: the message is stored all the same, as the only
    element of a new array under that id; no session is created, so the
    session map is unchanged, [getSession] still answers with what the
    fallback store holds under the id, and the statistics count one more
    message and the same number of sessions. *)
Theorem addMessage_unknown_session data now rnd w :
  let sid := MessageData.sessionId data in
  JsMap.get sid (sessions (observed w)) = None ->
  JsMap.get sid (messages (observed w)) = None ->
  let msg := fst (addMessage data now rnd w) in
  let w' := snd (addMessage data now rnd w) in
  sessions (db w') = sessions (observed w)
  /\ JsMap.get sid (messages (db w')) = Some [msg]
  /\ fst (getSession sid w')
     = SimpleVectorStore.getSession sid (fallbackStore (db w))
  /\ (forall t,
         totalSessions (fst (getStats t w')) = totalSessions (fst (getStats t w))
         /\ totalMessages (fst (getStats t w'))
            = totalMessages (fst (getStats t w)) + 1).
Proof.
  cbv zeta. intros Hs Hm.
  assert (Hfresh : existsb (duplicates data now) (scanned data w) = false).
  { unfold scanned. now rewrite Hm. }
  destruct (AddMessage.addMessage_fresh data now rnd w Hfresh)
    as [_ [Hmsgs [Hsess [Hinit [_ [Hfb _]]]]]].
  cbv zeta in *. unfold scanned in Hmsgs. rewrite Hm in Hmsgs.
  cbn [ChatSession.or_else app] in Hmsgs. rewrite Hs in Hsess.
  split; [exact Hsess|]. split; [rewrite Hmsgs; apply get_set_eq|].
  unfold getSession, getStats. rewrite (initialize_ready _ Hinit).
  rewrite Hsess, Hs, Hfb. cbn [fst totalSessions totalMessages].
  unfold observed in *. rewrite initialize_fallback.
  split; [reflexivity|]. intros _. split; [reflexivity|].
  rewrite Hmsgs, set_fresh by now apply get_None_keys.
  rewrite !count_messages_concat. unfold JsMap.values.
  rewrite map_app, concat_app, length_app. cbn. lia.
Qed.

(** X12.  [importData] replaces: with a list of sessions, a session id that
    the list does not name is in the session map no more; with message
    arrays or vectors, likewise for the keys of the object.  A field that
    the snapshot lacks leaves its map as it was. *)
Theorem importData_replaces listed arrays vectors w :
  let after :=
    db (importData {| snap_sessions := listed; snap_messages := arrays;
                      snap_embeddings := vectors |} w) in
  match listed with
  | Some l =>
      forall k, ~ In k (map ChatSession.id l) ->
                JsMap.get k (sessions after) = None
  | None => sessions after = sessions (observed w)
  end
  /\ match arrays with
     | Some o =>
         forall k, ~ In k (JsMap.keys o) -> JsMap.get k (messages after) = None
     | None => messages after = messages (observed w)
     end
  /\ match vectors with
     | Some o =>
         forall k, ~ In k (JsMap.keys o) ->
                   JsMap.get k (messageEmbeddings after) = None
     | None => messageEmbeddings after = messageEmbeddings (observed w)
     end.
Proof.
  cbv zeta. unfold importData, observed. rewrite saveToStorage_db.
  unfold with_db, with_maps.
  cbn [db sessions messages messageEmbeddings snap_sessions snap_messages
       snap_embeddings].
  assert (Hgone : forall V (entries : list (string * V)) k,
             ~ In k (map fst entries) ->
             JsMap.get k (JsMap.of_entries entries) = None).
  { intros V entries k Hk. apply get_None_keys. intros Hin. apply Hk.
    apply in_map_iff in Hin. destruct Hin as [e [He Hin]].
    unfold JsMap.of_entries in Hin.
    apply Counting.In_of_entries in Hin. destruct Hin as [Hin|[]].
    apply in_map_iff. now exists e. }
  split; [|split].
  - destruct listed as [l|]; [|reflexivity].
    intros k Hk. apply Hgone. now rewrite map_map.
  - destruct arrays as [o|]; [|reflexivity].
    intros k Hk. now apply Hgone.
  - destruct vectors as [o|]; [|reflexivity].
    intros k Hk. apply Hgone. unfold JsObject.entries.
    now rewrite map_map.
Qed.

Lemma initialize_embedder w : embedder (initialize w) = embedder w.
Proof.
  unfold initialize. destruct (isInitialized (db w)); [reflexivity|].
  cbn [with_db embedder]. apply loadFromStorage_fallback.
Qed.

Lemma loadStatus_function saved (mgr : EmbedderModelManager.t) :
  embeddingFunction (EmbedderModelManager.initialize saved mgr)
  = embeddingFunction mgr.
Proof.
  unfold EmbedderModelManager.initialize, loadStatus.
  destruct saved as [modelId|]; [|reflexivity].
  destruct (find_model modelId); reflexivity.
Qed.

Lemma embed_ready text (mgr : EmbedderModelManager.t) (dims : nat) :
  embeddingFunction mgr = Some dims ->
  embed text mgr = (Some (@generateSimpleEmbedding F _ text dims), mgr).
Proof. intros E. unfold embed. rewrite E. cbn. now rewrite E. Qed.

Lemma addMessage_indexed data now rnd w (d : nat) :
  embeddingFunction (embedder w) = Some d ->
  existsb (duplicates data now) (scanned data w) = false ->
  let msg := fst (addMessage data now rnd w) in
  let w' := snd (addMessage data now rnd w) in
  ChatMessage.embedding msg
  = Some (generateSimpleEmbedding (MessageData.content data) d)
  /\ JsMap.get (ChatMessage.id msg) (messageEmbeddings (db w'))
     = ChatMessage.embedding msg
  /\ embeddingFunction (embedder w') = Some d.
Proof.
  intros Hd Hfresh. cbv zeta. unfold scanned, observed in Hfresh.
  unfold addMessage. cbv zeta.
  pose proof (initialize_embedder w) as He.
  destruct (initialize w) as [db0 dev mgr0] eqn:Hw.
  cbn [db device embedder] in *. rewrite Hfresh. cbn [ChatMessage.content].
  subst mgr0.
  rewrite (@embed_ready (MessageData.content data)
             (EmbedderModelManager.initialize
                (AsyncStorage.embedderStatus dev) (embedder w)) d)
    by now rewrite loadStatus_function.
  cbn [fst snd ChatMessage.embedding ChatMessage.id saveToStorage embedder db].
  unfold with_maps. cbn [messageEmbeddings].
  split; [reflexivity|]. split; [apply get_set_eq|].
  now rewrite loadStatus_function.
Qed.

(** X13.  Once the manager has an embedding function, of dimension [d], the
    store embeds in that dimension: a new message gets the embedding of its
    content in dimension [d], a text query is embedded in dimension [d],
    and the function is still there afterwards, whatever model the saved
    status names ([loadStatus] changes [currentModel] only). *)
Theorem embedding_dimension_is_fixed w (d : nat) :
  embeddingFunction (embedder w) = Some d ->
  (forall data now rnd,
      existsb (duplicates data now) (scanned data w) = false ->
      ChatMessage.embedding (fst (addMessage data now rnd w))
      = Some (generateSimpleEmbedding (MessageData.content data) d)
      /\ embeddingFunction (embedder (snd (addMessage data now rnd w))) = Some d)
  /\ (forall text sessionId limit,
         query_embedding (Text text) w = Some (generateSimpleEmbedding text d)
         /\ embeddingFunction
              (embedder (snd (searchSimilarMessages (Text text) sessionId limit w)))
            = Some d).
Proof.
  intros Hd. split.
  - intros data now rnd Hfresh.
    destruct (addMessage_indexed data now rnd w Hd Hfresh) as [He [_ Hf]].
    auto.
  - intros text sessionId limit. unfold query_embedding, searchSimilarMessages.
    rewrite initialize_embedder, (embed_ready text (embedder w) Hd).
    cbn [fst]. split; [reflexivity|].
    cbn [snd embedder]. exact Hd.
Qed.
End Facts.

Lemma getStats_summary_witness :
  sessions (observed (snd Examples.trip_hello)) <> []
  /\ oldestSession (fst (getStats 9000 (snd Examples.trip_hello))) = 1700.
Proof.
  split; [vm_compute; discriminate|].
  destruct (proj1 (getStats_summary 9000 (snd Examples.trip_hello)
                                    SimpleVectorStore.new))
    as [_ [_ [_ [_ [_ Hex]]]]].
  destruct Hex as [k [session [Hin E]]]; [vm_compute; discriminate|].
  rewrite E. vm_compute in Hin. destruct Hin as [Hin|[]].
  injection Hin as _ <-. reflexivity.
Defined.

Lemma createSession_then_lookup_witness :
  "session_0_none" <> ChatSession.id (fst Examples.trip_created)
  /\ JsMap.get "session_0_none" (sessions (db (snd Examples.trip_created)))
     = JsMap.get "session_0_none" (sessions (observed Examples.fresh)).
Proof.
  split; [vm_compute; discriminate|].
  destruct (createSession_then_lookup (Some "Trip Planning") 1700 "k3j9x0q2a"
                                      1700 1700 Examples.fresh)
    as [_ [_ [_ [Hother _]]]].
  apply Hother. vm_compute. discriminate.
Defined.

Lemma updateSession_effect_witness :
  option_map ChatSession.title
    (JsMap.get Examples.trip
       (sessions (db (updateSession Examples.trip (Examples.rename "Holiday")
                                    3000 (snd Examples.trip_hello)))))
  = Some "Holiday"
  /\ ("session_0_none" <> Examples.trip
      /\ JsMap.get "session_0_none"
           (sessions (db (updateSession Examples.trip (Examples.rename "Holiday")
                                        3000 (snd Examples.trip_hello))))
         = None).
Proof.
  destruct (updateSession_effect Examples.trip (Examples.rename "Holiday") 3000
                                 (snd Examples.trip_hello)) as [Hm _].
  destruct (JsMap.get Examples.trip (sessions (observed (snd Examples.trip_hello))))
    as [session|] eqn:E; [|vm_compute in E; discriminate].
  destruct Hm as [Hg [Hother _]]. split.
  - rewrite Hg. reflexivity.
  - split; [vm_compute; discriminate|].
    rewrite Hother by (vm_compute; discriminate). reflexivity.
Defined.

Lemma deleteMessage_effect_witness :
  owner Samples.hello_id (messages (observed (snd Examples.trip_hello)))
  = Some (Examples.trip, [fst Examples.trip_hello])
  /\ JsMap.get Samples.hello_id
       (messageEmbeddings
          (db (deleteMessage Samples.hello_id 3000 (snd Examples.trip_hello))))
     = None
  /\ JsMap.get Examples.trip
       (messages (db (deleteMessage Samples.hello_id 3000 (snd Examples.trip_hello))))
     = Some [].
Proof.
  assert (E : owner Samples.hello_id (messages (observed (snd Examples.trip_hello)))
              = Some (Examples.trip, [fst Examples.trip_hello]))
    by (vm_compute; reflexivity).
  split; [exact E|].
  destruct (deleteMessage_effect Samples.hello_id 3000 (snd Examples.trip_hello))
    as [Hm _].
  rewrite E in Hm. destruct Hm as [Hg [Hs _]]. split; [exact Hg|].
  rewrite Hs. vm_compute. reflexivity.
Defined.

Lemma getMessages_limit_witness :
  fst (getMessages Examples.trip (Some 1) (snd Examples.trip_hello))
  = [fst Examples.trip_hello]
  /\ List.length (fst (getMessages Examples.trip (Some 1) (snd Examples.trip_hello)))
     = 1%nat.
Proof.
  destruct (proj1 (getMessages_limit Examples.trip (Some 1)
                     (snd Examples.trip_hello) SimpleVectorStore.new))
    as [[Hr Hl] _].
  split; [rewrite Hr; vm_compute; reflexivity|].
  rewrite Hl. vm_compute. reflexivity.
Defined.

Lemma reloaded_binary64 (x : spec_float) :
  fround (json x)
  = match x with
    | S754_finite _ _ _ => fround x
    | _ => zero
    end.
Proof. destruct x; reflexivity. Qed.

Lemma restart_recovers_saved_state_witness :
  let w := Samples.odd_vectors in
  JsMap.ok (sessions (db w)) /\ JsMap.ok (messages (db w))
  /\ JsMap.ok (messageEmbeddings (db w))
  /\ JsMap.get "m1" (messageEmbeddings (db w))
     = Some [S754_nan; S754_zero true; S754_infinity false;
             S754_finite false 4503599627370496 (-53)]
  /\ (let restarted :=
        initialize
          {| db := new defaultConfig; device := device (saveToStorage w);
             embedder := EmbedderModelManager.new |} in
      sessions (db restarted) = sessions (db w)
      /\ Vocabulary.texts (messages (db restarted))
         = Vocabulary.texts (messages (db w))
      /\ JsMap.get "m1" (messageEmbeddings (db restarted))
         = Some [zero; zero; zero; S754_finite false 4503599627370496 (-53)]
      /\ JsMap.get Samples.hello_id (messageEmbeddings (db restarted))
         = JsMap.get Samples.hello_id (messageEmbeddings (db w))).
Proof.
  cbv zeta.
  assert (Hs : JsMap.ok (sessions (db Samples.odd_vectors)))
    by (unfold JsMap.ok; vm_compute; repeat constructor; simpl; tauto).
  assert (Hm : JsMap.ok (messages (db Samples.odd_vectors)))
    by (unfold JsMap.ok; vm_compute; repeat constructor; simpl; tauto).
  assert (He : JsMap.ok (messageEmbeddings (db Samples.odd_vectors))).
  { unfold JsMap.ok. vm_compute.
    constructor; [simpl; intros [E|[]]; discriminate|].
    constructor; [simpl; tauto|constructor]. }
  split; [exact Hs|]. split; [exact Hm|]. split; [exact He|].
  split; [vm_compute; reflexivity|].
  destruct (@restart_recovers_saved_state _ _ Samples.odd_vectors
              defaultConfig EmbedderModelManager.new Hs Hm He eq_refl eq_refl)
    as [H1 [H2 [_ [H4 _]]]].
  split; [exact H1|]. split; [exact H2|].
  rewrite H4. split; vm_compute; reflexivity.
Defined.

Lemma initialize_without_saved_state_witness :
  isInitialized (db Examples.fresh) = false
  /\ AsyncStorage.item (device Examples.fresh) = AsyncStorage.Absent
  /\ isInitialized (db (initialize Examples.fresh)) = true
  /\ AsyncStorage.calls (device (initialize Examples.fresh)) = 1%nat.
Proof.
  split; [reflexivity|]. split; [reflexivity|].
  destruct (@initialize_without_saved_state _ _ Examples.fresh eq_refl
              (or_intror (or_introl eq_refl)))
    as [_ [_ [_ [Hi [_ [Hc _]]]]]].
  split; [exact Hi|exact Hc].
Defined.

Lemma searchSimilarMessages_other_dimension_witness :
  leb (similarityThreshold (config (observed (snd Examples.trip_hello)))) zero
  = false
  /\ fst (searchSimilarMessages (Vector [one; one]) None None
                                (snd Examples.trip_hello)) = [].
Proof.
  split; [vm_compute; reflexivity|].
  apply searchSimilarMessages_other_dimension; [vm_compute; reflexivity|].
  intros k v Hin. vm_compute in Hin. destruct Hin as [Hin|[]].
  injection Hin as _ <-. vm_compute. discriminate.
Defined.

Lemma addMessage_attaches_embedding_witness :
  existsb (duplicates (Examples.hello Examples.trip) 2000)
          (scanned (Examples.hello Examples.trip) (snd Examples.trip_created))
  = false
  /\ exists dims,
       ChatMessage.embedding (fst Examples.trip_hello)
       = Some (generateSimpleEmbedding "Hello there" dims)
       /\ embeddingFunction (embedder (snd Examples.trip_hello)) = Some dims.
Proof.
  split; [vm_compute; reflexivity|].
  destruct (@addMessage_attaches_embedding _ _ (Examples.hello Examples.trip)
              2000 "p0o9i8u7y6t5" (snd Examples.trip_created) eq_refl)
    as [dims [He [_ [_ [Hf _]]]]].
  exists dims. split; [exact He|exact Hf].
Defined.

Lemma addMessage_unknown_session_witness :
  JsMap.get "session_0_none" (sessions (observed Examples.fresh)) = None
  /\ JsMap.get "session_0_none" (messages (observed Examples.fresh)) = None
  /\ sessions (db (snd (addMessage (Examples.hello "session_0_none") 2000
                                   "p0o9i8u7y6t5" Examples.fresh)))
     = []
  /\ totalMessages
       (fst (getStats 3000
               (snd (addMessage (Examples.hello "session_0_none") 2000
                                "p0o9i8u7y6t5" Examples.fresh))))
     = 1.
Proof.
  split; [reflexivity|]. split; [reflexivity|].
  destruct (@addMessage_unknown_session _ _ (Examples.hello "session_0_none")
              2000 "p0o9i8u7y6t5" Examples.fresh eq_refl eq_refl)
    as [Hs [_ [_ Hstats]]].
  split; [rewrite Hs; reflexivity|].
  rewrite (proj2 (Hstats 3000)). reflexivity.
Defined.

Lemma importData_replaces_witness :
  ~ In Examples.trip (map ChatSession.id [])
  /\ JsMap.get Examples.trip
       (sessions (db (importData {| snap_sessions := Some [];
                                    snap_messages := None;
                                    snap_embeddings := None |}
                                 (snd Examples.trip_hello))))
     = None
  /\ messages (db (importData {| snap_sessions := Some [];
                                 snap_messages := None;
                                 snap_embeddings := None |}
                              (snd Examples.trip_hello)))
     = messages (observed (snd Examples.trip_hello)).
Proof.
  split; [intros []|].
  destruct (@importData_replaces _ _ (Some []) None None (snd Examples.trip_hello))
    as [Hs [Hm _]].
  split; [apply Hs; intros []|exact Hm].
Defined.

Lemma embedding_dimension_is_fixed_witness :
  embeddingFunction (embedder (snd Examples.trip_hello)) = Some 128%nat
  /\ query_embedding (Text "General Kenobi") (snd Examples.trip_hello)
     = Some (generateSimpleEmbedding "General Kenobi" 128).
Proof.
  split; [vm_compute; reflexivity|].
  destruct (@embedding_dimension_is_fixed _ _ (snd Examples.trip_hello) 128)
    as [_ Hq]; [vm_compute; reflexivity|].
  exact (proj1 (Hq "General Kenobi" None None)).
Defined.
End StoreOperations.

(** ** The range of the cosine similarity *)
Module CosineBounds.
Import EmbedderModelManager LightVectorDB Spec StoreFacts JsMapFacts ArrayFacts.
Local Open Scope R_scope.

Lemma dot_comm (a : list R) : forall b, Vec.dot a b = Vec.dot b a.
Proof.
  induction a as [|x a IH]; intros [|y b]; simpl; try reflexivity.
  rewrite IH. ring.
Qed.

(** The quadratic form of [s a + t b] is a sum of squares. *)
Lemma dot_quadratic (a : list R) :
  forall (b : list R) (s t : R),
    0 <= s * s * Vec.dot a a + 2 * s * t * Vec.dot a b + t * t * Vec.dot b b.
Proof.
  induction a as [|x a IH]; intros b s t.
  - pose proof (Cosine.dot_self_nonneg b) as Hb.
    replace (Vec.dot [] b) with 0 by now destruct b.
    cbn [Vec.dot]. pose proof (Rle_0_sqr t) as Ht. unfold Rsqr in Ht.
    pose proof (Rmult_le_pos _ _ Ht Hb). lra.
  - destruct b as [|y b].
    + pose proof (Cosine.dot_self_nonneg (x :: a)) as Ha.
      cbn [Vec.dot] in *. pose proof (Rle_0_sqr s) as Hs. unfold Rsqr in Hs.
      pose proof (Rmult_le_pos _ _ Hs Ha). lra.
    + cbn [Vec.dot]. pose proof (IH b s t) as Hq.
      pose proof (Rle_0_sqr (s * x + t * y)) as Hsq. unfold Rsqr in Hsq.
      replace (s * s * (x * x + Vec.dot a a) + 2 * s * t * (x * y + Vec.dot a b)
               + t * t * (y * y + Vec.dot b b))
        with ((s * x + t * y) * (s * x + t * y)
              + (s * s * Vec.dot a a + 2 * s * t * Vec.dot a b
                 + t * t * Vec.dot b b)) by ring.
      lra.
Qed.

Lemma cauchy_schwarz (a b : list R) :
  Vec.dot a b * Vec.dot a b <= Vec.dot a a * Vec.dot b b.
Proof.
  pose proof (Cosine.dot_self_nonneg a) as HA.
  pose proof (Cosine.dot_self_nonneg b) as HB.
  destruct (Req_dec_T (Vec.dot b b) 0) as [Hz|Hnz].
  - (* b is the zero vector as far as the products go *)
    assert (HC : Vec.dot a b = 0).
    { destruct (Req_dec_T (Vec.dot a b) 0) as [E|E]; [exact E|].
      pose proof (dot_quadratic a b 1 (- (Vec.dot a a + 1) / (2 * Vec.dot a b))) as Hq.
      rewrite Hz in Hq.
      replace (1 * 1 * Vec.dot a a
               + 2 * 1 * (- (Vec.dot a a + 1) / (2 * Vec.dot a b)) * Vec.dot a b
               + - (Vec.dot a a + 1) / (2 * Vec.dot a b)
                 * (- (Vec.dot a a + 1) / (2 * Vec.dot a b)) * 0)
        with (-1) in Hq by (field; exact E).
      lra. }
    rewrite HC, Hz. lra.
  - pose proof (dot_quadratic a b (Vec.dot b b) (- Vec.dot a b)) as Hq.
    assert (Hpos : 0 < Vec.dot b b) by lra.
    assert (Hq' : 0 <= Vec.dot b b
                       * (Vec.dot a a * Vec.dot b b - Vec.dot a b * Vec.dot a b)).
    { replace (Vec.dot b b
               * (Vec.dot a a * Vec.dot b b - Vec.dot a b * Vec.dot a b))
        with (Vec.dot b b * Vec.dot b b * Vec.dot a a
              + 2 * Vec.dot b b * - Vec.dot a b * Vec.dot a b
              + - Vec.dot a b * - Vec.dot a b * Vec.dot b b) by ring.
      exact Hq. }
    nra.
Qed.

Lemma dot_le_norms (a b : list R) :
  Rabs (Vec.dot a b) <= Vec.norm a * Vec.norm b.
Proof.
  unfold Vec.norm. rewrite <- sqrt_mult
    by apply Cosine.dot_self_nonneg.
  rewrite <- sqrt_Rsqr_abs. apply sqrt_le_1.
  - apply Rle_0_sqr.
  - apply Rmult_le_pos; apply Cosine.dot_self_nonneg.
  - unfold Rsqr. apply cauchy_schwarz.
Qed.

Lemma quotient_range (x p : R) :
  0 < p -> - p <= x <= p -> -1 <= x / p <= 1.
Proof.
  intros Hp [Hlo Hhi]. set (q := x / p).
  assert (Hq : q * p = x) by (unfold q; field; lra).
  split.
  - destruct (Rle_dec (-1) q) as [|Hn]; [assumption|]. exfalso.
    assert (Hlt : q * p < -1 * p) by (apply Rmult_lt_compat_r; lra).
    lra.
  - destruct (Rle_dec q 1) as [|Hn]; [assumption|]. exfalso.
    assert (Hlt : 1 * p < q * p) by (apply Rmult_lt_compat_r; lra).
    lra.
Qed.

Lemma norms_positive (a b : list R) :
  Vec.norm a <> 0 -> Vec.norm b <> 0 -> 0 < Vec.norm a * Vec.norm b.
Proof.
  intros Ha Hb.
  pose proof (sqrt_pos (Vec.dot a a)). pose proof (sqrt_pos (Vec.dot b b)).
  unfold Vec.norm in *. apply Rmult_lt_0_compat; lra.
Qed.

Lemma dot_between_norms (a b : list R) :
  - (Vec.norm a * Vec.norm b) <= Vec.dot a b <= Vec.norm a * Vec.norm b.
Proof.
  pose proof (dot_le_norms a b) as Hcs.
  unfold Rabs in Hcs. destruct (Rcase_abs (Vec.dot a b)); lra.
Qed.

(** What the ranking of a search needs: no similarity is above 1. *)
Lemma cosineSimilarity_at_most_one (a b : list R) : cosineSimilarity a b <= 1.
Proof.
  destruct (Nat.eq_dec (List.length a) (List.length b)) as [Hlen|Hlen].
  - rewrite (Cosine.cosineSimilarity_exact a b Hlen).
    destruct (Req_dec_T (Vec.norm a) 0) as [Ha|Ha]; [lra|].
    destruct (Req_dec_T (Vec.norm b) 0) as [Hb|Hb]; [lra|].
    apply quotient_range; [now apply norms_positive|apply dot_between_norms].
  - rewrite (@Cosine.cosineSimilarity_length_mismatch R _ a b Hlen).
    simpl. lra.
Qed.

(** X14.  With numbers read as reals, the cosine similarity of any two
    vectors lies between -1 and 1 (the Cauchy-Schwarz inequality), and it
    is symmetric in its arguments. *)
Theorem cosineSimilarity_bounds (a b : list R) :
  -1 <= cosineSimilarity a b <= 1
  /\ cosineSimilarity a b = cosineSimilarity b a.
Proof.
  destruct (Nat.eq_dec (List.length a) (List.length b)) as [Hlen|Hlen].
  - rewrite (Cosine.cosineSimilarity_exact a b Hlen).
    rewrite (Cosine.cosineSimilarity_exact b a (eq_sym Hlen)).
    destruct (Req_dec_T (Vec.norm a) 0) as [Ha|Ha];
      destruct (Req_dec_T (Vec.norm b) 0) as [Hb|Hb];
      try (split; [lra|reflexivity]).
    split.
    + apply quotient_range; [now apply norms_positive|apply dot_between_norms].
    + rewrite (dot_comm a b), (Rmult_comm (Vec.norm a)). reflexivity.
  - rewrite (@Cosine.cosineSimilarity_length_mismatch R _ a b Hlen).
    rewrite (@Cosine.cosineSimilarity_length_mismatch R _ b a)
      by (intros E; apply Hlen; now symmetry).
    simpl. split; [lra|reflexivity].
Qed.
End CosineBounds.

(** ** Searching for the text of a stored message *)
Module SearchExact.
Import EmbedderModelManager LightVectorDB Spec StoreFacts JsMapFacts ArrayFacts.
Local Open Scope R_scope.

Lemma sort_head (A : Type) (before : A -> A -> bool) (l : list A) x :
  (forall x y, before x y = true -> before y x = false) ->
  (forall x y z, before x y = false -> before y z = false -> before x z = false) ->
  In x l ->
  exists first rest,
    JsArray.sort before l = first :: rest /\ (first = x \/ before x first = false).
Proof.
  intros Hasym Htrans Hin.
  assert (Hs : StronglySorted (JsArray.not_after before) (JsArray.sort before l))
    by now apply sort_sorted.
  assert (Hin' : In x (JsArray.sort before l)).
  { eapply Permutation_in; [symmetry; apply sort_permutation|exact Hin]. }
  destruct (JsArray.sort before l) as [|first rest]; [destruct Hin'|].
  exists first, rest. split; [reflexivity|].
  destruct Hin' as [->|Hr]; [now left|right].
  inversion Hs as [|? ? _ Hall]; subst. rewrite Forall_forall in Hall.
  now apply Hall.
Qed.

(** X15.  With numbers read as reals.  A message has just been stored by
    [addMessage], in a process whose manager embeds in a dimension of at
    least 2.  A search for the content of the message, as text, under a
    threshold of at most 0.99, a positive limit and a session filter that
    lets the session of the message through, embeds the query as the
    message was embedded, meets the message with similarity 1, and returns
    a list whose first result has similarity 1, the largest there is.  The
    threshold is kept away from 1 because the program computes the
    similarity of a vector with itself up to rounding (see
    [search_binary64_at_threshold_one] below). *)
Theorem search_ranks_exact_text_first data now rnd sessionId limit (w : World R)
        (d : nat) :
  existsb (duplicates data now) (scanned data w) = false ->
  embeddingFunction (embedder w) = Some d ->
  (2 <= d)%nat ->
  similarityThreshold (config (observed w)) <= 99 / 100 ->
  (0 < limit_in_force limit)%Z ->
  skipped sessionId (MessageData.sessionId data) = false ->
  let msg := fst (addMessage data now rnd w) in
  let w' := snd (addMessage data now rnd w) in
  (exists v, query_embedding (Text (MessageData.content data)) w' = Some v
             /\ ChatMessage.embedding msg = Some v
             /\ In {| message := msg; similarity := 1 |}
                   (candidates v sessionId (observed w')))
  /\ (exists first rest,
         fst (searchSimilarMessages (Text (MessageData.content data))
                                    sessionId limit w')
         = first :: rest
         /\ similarity first = 1).
Proof.
  intros Hfresh Hfn Hd Hth Hlimit Hskip. cbv zeta.
  destruct (StoreOperations.addMessage_indexed data now rnd w Hfn Hfresh)
    as [Hemb [Hget Hfn']].
  destruct (AddMessage.addMessage_fresh data now rnd w Hfresh)
    as [_ [Hmsgs [_ [Hinit [Hcfg _]]]]].
  cbv zeta in *.
  set (msg := fst (addMessage data now rnd w)) in *.
  set (w' := snd (addMessage data now rnd w)) in *.
  set (v := generateSimpleEmbedding (MessageData.content data) d) in *.
  assert (Hq : query_embedding (Text (MessageData.content data)) w' = Some v).
  { unfold query_embedding. rewrite (initialize_ready _ Hinit).
    now rewrite (StoreOperations.embed_ready (F := R)
                   (MessageData.content data) (embedder w') Hfn'). }
  assert (Hone : cosineSimilarity v v = 1).
  { destruct (Embedding.generateSimpleEmbedding_unit_norm
                (MessageData.content data) Hd) as [_ Hn]. fold v in Hn.
    rewrite (Cosine.cosineSimilarity_exact v v eq_refl), Hn.
    destruct (Req_dec_T 1 0); [lra|].
    unfold Vec.norm in Hn.
    assert (Hdot : Vec.dot v v = 1).
    { rewrite <- (sqrt_sqrt (Vec.dot v v)) by apply Cosine.dot_self_nonneg.
      rewrite Hn. ring. }
    rewrite Hdot. field. }
  assert (Hcand : In {| message := msg; similarity := 1 |}
                     (candidates v sessionId (observed w'))).
  { unfold observed. rewrite (initialize_ready _ Hinit).
    unfold candidates. apply in_flat_map.
    exists (MessageData.sessionId data, (scanned data w ++ [msg])%list).
    split.
    { apply get_In. rewrite Hmsgs. apply get_set_eq. }
    cbn [fst snd]. rewrite Hskip. apply in_flat_map. exists msg.
    split; [apply in_or_app; right; now left|].
    rewrite Hget, Hemb, Hone, Hcfg. cbn [leb Exact.number].
    destruct (Rle_dec (similarityThreshold (config (observed w))) 1);
      [now left|lra]. }
  split; [exists v; auto|].
  rewrite Search.searchSimilarMessages_results, Hq.
  destruct (@sort_head _ more_similar (candidates v sessionId (observed w'))
                       {| message := msg; similarity := 1 |})
    as [first [rest [Hsort Hfirst]]].
  - intros x y. rewrite Search.more_similar_spec, Search.more_similar_false. lra.
  - intros x y z. rewrite !Search.more_similar_false. lra.
  - exact Hcand.
  - rewrite Hsort. unfold Js.slice, Js.clamp_index.
    cbn [Z.ltb Z.compare].
    set (len := Z.of_nat (List.length (first :: rest))).
    assert (Hlen1 : (1 <= len)%Z) by (unfold len; cbn [List.length]; lia).
    replace (Z.to_nat (Z.min 0 len)) with 0%nat by lia.
    cbn [skipn].
    destruct (limit_in_force limit <? 0)%Z eqn:E; [apply Z.ltb_lt in E; lia|].
    replace (Z.min (limit_in_force limit) len - Z.min 0 len)%Z
      with (Z.min (limit_in_force limit) len) by lia.
    destruct (Z.to_nat (Z.min (limit_in_force limit) len)) as [|n] eqn:En; [lia|].
    cbn [firstn]. exists first, (firstn n rest). split; [reflexivity|].
    assert (Hle : similarity first <= 1).
    { assert (Hinf : In first (candidates v sessionId (observed w'))).
      { eapply Permutation_in; [apply sort_permutation|].
        rewrite Hsort. now left. }
      unfold candidates in Hinf. apply in_flat_map in Hinf.
      destruct Hinf as [entry [_ Hinf]].
      destruct (skipped sessionId (fst entry)); [destruct Hinf|].
      apply in_flat_map in Hinf. destruct Hinf as [m [_ Hinf]].
      destruct (JsMap.get (ChatMessage.id m) (messageEmbeddings (observed w')))
        as [u|]; [|destruct Hinf].
      destruct (leb _ _); [|destruct Hinf].
      destruct Hinf as [<-|[]]. cbn [similarity].
      apply CosineBounds.cosineSimilarity_at_most_one. }
    destruct Hfirst as [->|Hf]; [reflexivity|].
    apply Search.more_similar_false in Hf. cbn [similarity] in Hf. lra.
Qed.

Lemma search_ranks_exact_text_first_witness :
  existsb (duplicates (Examples.hello Examples.trip) 2000)
          (scanned (Examples.hello Examples.trip) Samples.exact_ready) = false
  /\ embeddingFunction (embedder Samples.exact_ready) = Some 128%nat
  /\ similarityThreshold (config (observed Samples.exact_ready)) <= 99 / 100
  /\ exists first rest,
       fst (searchSimilarMessages (Text "Hello there") None None
              (snd (addMessage (Examples.hello Examples.trip) 2000
                               "p0o9i8u7y6t5" Samples.exact_ready)))
       = first :: rest
       /\ similarity first = 1.
Proof.
  assert (Hth : similarityThreshold (config (observed Samples.exact_ready))
                <= 99 / 100) by (unfold observed; cbn; lra).
  split; [reflexivity|]. split; [reflexivity|]. split; [exact Hth|].
  apply (@search_ranks_exact_text_first (Examples.hello Examples.trip) 2000
           "p0o9i8u7y6t5" None None Samples.exact_ready 128).
  - reflexivity.
  - reflexivity.
  - lia.
  - exact Hth.
  - reflexivity.
  - reflexivity.
Defined.

Local Close Scope R_scope.

(** In binary64 the similarity of the embedding of "Hi" with itself is
    [1 - 2^-53], and a store whose threshold is 1 does not find the
    message "Hi" that it holds when it is searched for "Hi". *)
Lemma search_binary64_at_threshold_one :
  let v := @generateSimpleEmbedding spec_float _ "Hi" 128 in
  cosineSimilarity v v = S754_finite false 9007199254740991 (-53)
  /\ (9007199254740991 = 2 ^ 53 - 1)%Z
  /\ fst (searchSimilarMessages (Text "Hi") None None Samples.exacting) = [].
Proof. cbv zeta. repeat split; vm_compute; reflexivity. Qed.
End SearchExact.

(** ** The fallback store *)
Module FallbackStore.
Import Spec JsMapFacts ArrayFacts StoreCommon SimpleVectorStore.
Section Facts.
Context {F : Type}.
Implicit Types (st : SimpleVectorStore.t F).

(** Filling a map from a list, one [set] per element. *)
Lemma fill_entries {A V} (key : A -> string) (val : A -> V) (l : list A) :
  forall acc,
    fold_left (fun m x => JsMap.set (key x) (val x) m) l acc
    = fold_left (fun m e => JsMap.set (fst e) (snd e) m)
                (map (fun x => (key x, val x)) l) acc.
Proof.
  induction l as [|x l IH]; intros acc; simpl; [reflexivity|]. apply IH.
Qed.









(** X17.  [importData] of the fallback store merges: after importing what
    [exportData] gave for a store (whose lists stand for maps, with every
    session under its own id), a lookup answers as that store does where it
    holds the key, and as the importing store did before elsewhere; the
    message counter is untouched.  Imported into an empty store, the export
    is restored. *)
Theorem importData_merges_exported st target :
  JsMap.ok (sessions st) -> keyed_by_id (sessions st) ->
  JsMap.ok (messages st) ->
  let restored := importData (exportData st) target in
  (forall k,
      JsMap.get k (sessions restored)
      = match JsMap.get k (sessions st) with
        | Some session => Some session
        | None => JsMap.get k (sessions target)
        end)
  /\ (forall k,
         JsMap.get k (messages restored)
         = match JsMap.get k (messages st) with
           | Some msgs => Some msgs
           | None => JsMap.get k (messages target)
           end)
  /\ messageCounter restored = messageCounter target.
Proof.
  intros Hok Hkeyed Hokm. cbv zeta. unfold importData, exportData.
  cbn [snap_sessions snap_messages sessions messages messageCounter].
  split; [|split; [|reflexivity]]; intros k.
  - rewrite fill_entries, (RoundTrip.rekeyed Hkeyed).
    apply (get_build JsMap.set (@get_set_eq _) (@get_set_ne _)). exact Hok.
  - unfold JsObject.entries.
    pose proof (get_build JsMap.set (@get_set_eq _) (@get_set_ne _)
                  (JsObject.fromEntries (messages st)) (messages target) k
                  (RoundTrip.fromEntries_ok (messages st))) as E.
    etransitivity; [exact E|].
    now rewrite (RoundTrip.get_fromEntries k Hokm).
Qed.

Lemma to_int_proper (z : Z) :
  Z.to_int z <> Decimal.Pos Decimal.Nil /\ Z.to_int z <> Decimal.Neg Decimal.Nil.
Proof.
  destruct z as [|p|p]; simpl; split; try discriminate;
    intros [= E]; now apply Unsigned.to_uint_nonnil in E.
Qed.

Lemma decimal_inj (a b : Z) : Js.decimal a = Js.decimal b -> a = b.
Proof.
  unfold Js.decimal. intros E.
  apply (f_equal NilZero.int_of_string) in E.
  destruct (to_int_proper a) as [Ha1 Ha2]. destruct (to_int_proper b) as [Hb1 Hb2].
  rewrite !NilZero.isi in E by assumption.
  injection E as E. apply (f_equal Z.of_int) in E.
  now rewrite !DecimalZ.of_to in E.
Qed.

Lemma uint_digits (u : Decimal.uint) :
  ~ In "_"%char (list_ascii_of_string (NilEmpty.string_of_uint u)).
Proof.
  induction u; simpl; try tauto; intros [E|Hin]; try discriminate; tauto.
Qed.

Lemma decimal_digits (z : Z) :
  ~ In "_"%char (list_ascii_of_string (Js.decimal z)).
Proof.
  unfold Js.decimal.
  assert (Hu : forall u, ~ In "_"%char
                           (list_ascii_of_string (NilZero.string_of_uint u))).
  { intros u. destruct u; try apply uint_digits.
    simpl. intros [E|[]]. discriminate. }
  destruct (Z.to_int z) as [u|u]; simpl; [apply Hu|].
  intros [E|Hin]; [discriminate|]. now apply (Hu u).
Qed.

Lemma append_cancel (a x y : string) : (a ++ x = a ++ y)%string -> x = y.
Proof.
  induction a as [|c a IH]; simpl; [tauto|]. intros [= E]. auto.
Qed.

(** Two texts that agree, each cut at its first underscore. *)
Lemma cut_at_underscore (d1 : string) :
  forall d2 r1 r2,
    ~ In "_"%char (list_ascii_of_string d1) ->
    ~ In "_"%char (list_ascii_of_string d2) ->
    (d1 ++ String "_" r1 = d2 ++ String "_" r2)%string ->
    d1 = d2 /\ r1 = r2.
Proof.
  induction d1 as [|c d1 IH]; intros [|c2 d2] r1 r2 H1 H2 E; simpl in *.
  - injection E as ->. auto.
  - injection E as <- _. tauto.
  - injection E as -> _. tauto.
  - injection E as -> E. destruct (IH d2 r1 r2) as [-> ->]; auto.
Qed.

(** X18.  [addMessage] of the fallback store never recognises a repeated
    message: every call appends a message, without an embedding, to the
    array of its session, raises the message counter by one, and brings the
    count of the session, if the store holds it under its own id, to the
    length of the array.  The counter is part of the id, so two messages of
    the same session id made by the store at different counts have
    different ids, whatever the readings of the clock and the random
    suffixes are. *)
Theorem addMessage_appends_under_fresh_id data now rnd st :
  let msg := fst (addMessage data now rnd st) in
  let st' := snd (addMessage data now rnd st) in
  let sid := MessageData.sessionId data in
  getMessages sid None st' = (getMessages sid None st ++ [msg])%list
  /\ ChatMessage.embedding msg = None
  /\ messageCounter st' = messageCounter st + 1
  /\ (forall session,
         JsMap.get sid (sessions st) = Some session ->
         ChatSession.id session = sid ->
         exists session',
           JsMap.get sid (sessions st') = Some session'
           /\ ChatSession.messageCount session'
              = Z.of_nat (List.length (getMessages sid None st')))
  /\ (JsMap.get sid (sessions st) = None -> sessions st' = sessions st)
  /\ (forall data' now' rnd' (other : SimpleVectorStore.t F),
         MessageData.sessionId data' = sid ->
         messageCounter other <> messageCounter st ->
         ChatMessage.id (fst (addMessage data' now' rnd' other))
         <> ChatMessage.id msg).
Proof.
  cbv zeta. split; [|split; [|split; [|split; [|split]]]].
  - unfold addMessage, getMessages.
    cbn [fst snd messages ChatMessage.sessionId last_messages].
    now rewrite get_set_eq.
  - reflexivity.
  - reflexivity.
  - intros session Hs Hid. unfold addMessage, getMessages.
    cbn [fst snd messages sessions ChatMessage.sessionId last_messages].
    rewrite Hs, Hid, !get_set_eq. cbn [ChatSession.or_else].
    eexists. split; reflexivity.
  - intros Hs. unfold addMessage. cbn [snd sessions ChatMessage.sessionId].
    now rewrite Hs.
  - intros data' now' rnd' other Hsid Hcounter.
    unfold addMessage. cbn [fst ChatMessage.id].
    rewrite Hsid. intros E.
    apply append_cancel in E. apply append_cancel in E.
    cbn [append] in E. injection E as E.
    apply cut_at_underscore in E; try apply decimal_digits.
    destruct E as [_ E].
    apply cut_at_underscore in E; try apply decimal_digits.
    destruct E as [E _]. apply decimal_inj in E. lia.
Qed.

Lemma replace_id_spec id updates (msgs : list (ChatMessage.t F)) :
  existsb (has_id id) msgs = true ->
  exists earlier msg later,
    msgs = (earlier ++ msg :: later)%list
    /\ ChatMessage.id msg = id
    /\ (forall m, In m earlier -> ChatMessage.id m <> id)
    /\ replace_id id updates msgs
       = (earlier ++ ChatMessage.merged msg updates :: later)%list.
Proof.
  induction msgs as [|m msgs IH]; simpl; [discriminate|].
  destruct (has_id id m) eqn:E.
  - intros _. exists [], m, msgs. unfold has_id in E. apply String.eqb_eq in E.
    split; [reflexivity|]. split; [exact E|]. split; [intros x []|reflexivity].
  - cbn [orb]. intros Hex. destruct (IH Hex) as [earlier [msg [later [-> [Hid [Hne Hr]]]]]].
    exists (m :: earlier), msg, later. rewrite Hr.
    split; [reflexivity|]. split; [exact Hid|]. split; [|reflexivity].
    intros x [<-|Hx]; [|auto].
    unfold has_id in E. now apply String.eqb_neq in E.
Qed.

(** X19.  [updateMessage] of the fallback store: in the first message array
    that holds the id, the first message with that id is replaced by
    itself merged with the updates, and nothing else in the array moves;
    the other arrays, the sessions (their previews and times too) and the
    counter are untouched; when no array holds the id the store is
    unchanged. *)
Theorem updateMessage_effect messageId updates st :
  let after := updateMessage messageId updates st in
  sessions after = sessions st
  /\ messageCounter after = messageCounter st
  /\ match owner messageId (messages st) with
     | Some (sessionId, msgs) =>
         (exists earlier msg later,
             msgs = (earlier ++ msg :: later)%list
             /\ ChatMessage.id msg = messageId
             /\ (forall m, In m earlier -> ChatMessage.id m <> messageId)
             /\ JsMap.get sessionId (messages after)
                = Some (earlier ++ ChatMessage.merged msg updates :: later)%list)
         /\ (forall k, k <> sessionId ->
               JsMap.get k (messages after) = JsMap.get k (messages st))
     | None => after = st
     end.
Proof.
  cbv zeta. unfold updateMessage.
  destruct (owner messageId (messages st)) as [[sessionId msgs]|] eqn:E;
    [|repeat split; reflexivity].
  cbn [sessions messages messageCounter].
  split; [reflexivity|]. split; [reflexivity|].
  apply find_some in E. destruct E as [_ Hex]. cbn [snd] in Hex.
  destruct (replace_id_spec messageId updates msgs Hex)
    as [earlier [msg [later [Hm [Hid [Hne Hr]]]]]].
  split.
  - exists earlier, msg, later. rewrite get_set_eq, Hr. auto.
  - intros k Hk. apply get_set_ne. congruence.
Qed.
End Facts.


Lemma offline_pair_shape :
  JsMap.ok (sessions Samples.offline_pair)
  /\ keyed_by_id (sessions Samples.offline_pair)
  /\ JsMap.ok (messages Samples.offline_pair).
Proof.
  split; [|split].
  - unfold JsMap.ok. vm_compute.
    repeat constructor; simpl; intuition discriminate.
  - intros k session Hin. vm_compute in Hin.
    destruct Hin as [Hin|[Hin|[]]]; injection Hin as <- <-; reflexivity.
  - unfold JsMap.ok. vm_compute.
    repeat constructor; simpl; intuition discriminate.
Qed.

Lemma importData_merges_exported_witness :
  JsMap.ok (sessions Samples.offline_pair)
  /\ keyed_by_id (sessions Samples.offline_pair)
  /\ JsMap.ok (messages Samples.offline_pair)
  /\ (forall k,
         JsMap.get k (messages (importData (exportData Samples.offline_pair)
                                           SimpleVectorStore.new))
         = JsMap.get k (messages Samples.offline_pair)).
Proof.
  destruct offline_pair_shape as [Hs [Hk Hm]].
  split; [exact Hs|]. split; [exact Hk|]. split; [exact Hm|].
  intros k.
  destruct (@importData_merges_exported _ Samples.offline_pair
              SimpleVectorStore.new Hs Hk Hm) as [_ [Hmsgs _]].
  rewrite Hmsgs.
  destruct (JsMap.get k (messages Samples.offline_pair)); reflexivity.
Defined.

Lemma addMessage_appends_under_fresh_id_witness :
  let first := addMessage (F := spec_float) (Examples.hello "session_0_none")
                          2000 "p0o9i8u7" SimpleVectorStore.new in
  let second := addMessage (Examples.hello "session_0_none") 2000 "p0o9i8u7"
                           (snd first) in
  messageCounter (SimpleVectorStore.new (F := spec_float))
  <> messageCounter (snd first)
  /\ ChatMessage.id (fst first) <> ChatMessage.id (fst second)
  /\ getMessages "session_0_none" None (snd second) = [fst first; fst second].
Proof.
  cbv zeta. split; [vm_compute; discriminate|].
  destruct (@addMessage_appends_under_fresh_id spec_float
              (Examples.hello "session_0_none") 2000 "p0o9i8u7"
              (snd (addMessage (Examples.hello "session_0_none") 2000
                               "p0o9i8u7" SimpleVectorStore.new)))
    as [Happ [_ [_ [_ [_ Hids]]]]].
  split.
  - apply Hids; [reflexivity|vm_compute; discriminate].
  - exact (eq_trans Happ eq_refl).
Defined.

Lemma updateMessage_effect_witness :
  let id := "msg_lb4ck0_960_1_m3ss4g3x" in
  let sid := ChatSession.id (fst Examples.fallback_session) in
  let updates :=
    {| ChatMessage.new_id := None; ChatMessage.new_sessionId := None;
       ChatMessage.new_role := None;
       ChatMessage.new_content := Some "Hello again";
       ChatMessage.new_timestamp := None;
       ChatMessage.new_embedding := None |} in
  let after := updateMessage id updates Samples.offline_pair in
  option_map fst (owner id (messages Samples.offline_pair)) = Some sid
  /\ map ChatMessage.content (getMessages sid None after) = ["Hello again"]
  /\ ("session_950_l4t3r0000" <> sid
      /\ JsMap.get "session_950_l4t3r0000" (messages after)
         = JsMap.get "session_950_l4t3r0000" (messages Samples.offline_pair)).
Proof.
  cbv zeta. split; [vm_compute; reflexivity|].
  destruct (@updateMessage_effect spec_float "msg_lb4ck0_960_1_m3ss4g3x"
              {| ChatMessage.new_id := None; ChatMessage.new_sessionId := None;
                 ChatMessage.new_role := None;
                 ChatMessage.new_content := Some "Hello again";
                 ChatMessage.new_timestamp := None;
                 ChatMessage.new_embedding := None |}
              Samples.offline_pair) as [_ [_ Hm]].
  destruct (owner "msg_lb4ck0_960_1_m3ss4g3x" (messages Samples.offline_pair))
    as [[sid msgs]|] eqn:E; [|vm_compute in E; discriminate].
  destruct Hm as [_ Hother]. split; [vm_compute; reflexivity|].
  split; [vm_compute; discriminate|].
  apply Hother. vm_compute in E. injection E as <- _. discriminate.
Defined.
End FallbackStore.

(** ** Downloading, selecting and deleting models *)
Module ModelManagement.
Import EmbedderModelManager EmbedderModelManagerService Vocabulary.


Lemma find_entry_id modelId st m :
  find_entry modelId st = Some m -> In m (models st) /\ id (model m) = modelId.
Proof.
  unfold find_entry. intros Hf. apply find_some in Hf.
  destruct Hf as [Hin E]. apply String.eqb_eq in E. auto.
Qed.

Lemma with_active_model modelId ms :
  map model (with_active modelId ms) = map model ms
  /\ map isInstalled (with_active modelId ms) = map isInstalled ms.
Proof. unfold with_active. rewrite !map_map. split; reflexivity. Qed.

Lemma with_active_flags modelId ms x :
  In x (with_active modelId ms) ->
  isActive x = String.eqb (id (model x)) modelId.
Proof.
  unfold with_active. intros Hin. apply in_map_iff in Hin.
  destruct Hin as [y [<- _]]. reflexivity.
Qed.

Lemma with_installed_model modelId v ms :
  map model (with_installed modelId v ms) = map model ms
  /\ map isActive (with_installed modelId v ms) = map isActive ms.
Proof.
  induction ms as [|m ms [IH1 IH2]]; simpl; [auto|].
  destruct (String.eqb (id (model m)) modelId); simpl; [auto|].
  now rewrite IH1, IH2.
Qed.

Lemma find_with_installed modelId v ms k :
  find (fun m => String.eqb (id (model m)) k) (with_installed modelId v ms)
  = if String.eqb k modelId
    then option_map (fun m => {| model := model m; isInstalled := v;
                                 isActive := isActive m |})
                    (find (fun m => String.eqb (id (model m)) modelId) ms)
    else find (fun m => String.eqb (id (model m)) k) ms.
Proof.
  induction ms as [|m ms IH]; simpl.
  - now destruct (String.eqb k modelId).
  - destruct (String.eqb (id (model m)) modelId) eqn:E; simpl.
    + apply String.eqb_eq in E. rewrite E.
      rewrite (String.eqb_sym modelId k).
      destruct (String.eqb k modelId) eqn:E'; [reflexivity|].
      reflexivity.
    + rewrite IH. destruct (String.eqb k modelId) eqn:E'.
      * apply String.eqb_eq in E'. subst k. now rewrite E.
      * reflexivity.
Qed.

Lemma with_installed_In modelId v ms x :
  In x (with_installed modelId v ms) ->
  exists y, In y ms /\ model x = model y /\ isActive x = isActive y
            /\ (isInstalled x = isInstalled y
                \/ (isInstalled x = v /\ id (model y) = modelId)).
Proof.
  induction ms as [|m ms IH]; simpl; [tauto|].
  destruct (String.eqb (id (model m)) modelId) eqn:E; simpl.
  - apply String.eqb_eq in E. intros [<-|Hin].
    + exists m. cbn. repeat split; auto.
    + exists x. repeat split; auto.
  - intros [<-|Hin]; [exists m; repeat split; auto|].
    destruct (IH Hin) as [y [Hy Hrest]]. exists y. split; [now right|exact Hrest].
Qed.

Lemma find_with_active modelId ms k :
  option_map isInstalled
    (find (fun x => String.eqb (id (model x)) k) (with_active modelId ms))
  = option_map isInstalled (find (fun x => String.eqb (id (model x)) k) ms).
Proof.
  unfold with_active. induction ms as [|x ms IH]; simpl; [reflexivity|].
  destruct (String.eqb (id (model x)) k); [reflexivity|exact IH].
Qed.

Section Device.
Context {F : Type} `{JsNumber F}.
Implicit Types (st : EmbedderModelManagerService.t) (dev : AsyncStorage.t F).

(** X20.  [selectModel]: an id that names no model throws and changes
    nothing, and so does a model that is not installed.  Otherwise the call
    succeeds: the model is the current one, the embedding function embeds
    in its dimension (so [embed] returns the embedding of the text in that
    dimension and leaves the manager alone), exactly the models with the
    selected id are marked as active, the installed flags and the models
    themselves are as before, and the device holds the id as saved status
    when the write succeeded and what it held when the write failed. *)
Theorem selectModel_outcome modelId st dev :
  match find_entry modelId st with
  | None => selectModel modelId st dev = (Some NotFound, st, dev)
  | Some m =>
      if isInstalled m
      then
        let st' := snd (fst (selectModel modelId st dev)) in
        let dev' := snd (selectModel modelId st dev) in
        fst (fst (selectModel modelId st dev)) = None
        /\ currentModel (manager st') = Some (model m)
        /\ embeddingFunction (manager st') = Some (dimensions (model m))
        /\ (forall x, In x (models st') ->
                      isActive x = String.eqb (id (model x)) modelId)
        /\ map model (models st') = map model (models st)
        /\ map isInstalled (models st') = map isInstalled (models st)
        /\ (forall text,
               fst (embed text st')
               = Some (@generateSimpleEmbedding F _ text (dimensions (model m)))
               /\ snd (embed text st') = st')
        /\ AsyncStorage.embedderStatus dev'
           = (if AsyncStorage.fails dev (AsyncStorage.calls dev)
              then AsyncStorage.embedderStatus dev
              else if String.eqb modelId "" then None else Some modelId)
        /\ AsyncStorage.item dev' = AsyncStorage.item dev
      else selectModel modelId st dev = (Some NotInstalled, st, dev)
  end.
Proof.
  unfold selectModel.
  destruct (find_entry modelId st) as [m|] eqn:E; [|reflexivity].
  destruct (find_entry_id _ _ E) as [Hin Hid].
  destruct (isInstalled m); [|reflexivity].
  cbv zeta. cbn [negb fst snd manager models currentModel embeddingFunction
                 initializeEmbeddingFunction].
  split; [reflexivity|]. split; [reflexivity|]. split; [reflexivity|].
  split; [intros x; apply with_active_flags|].
  split; [apply with_active_model|]. split; [apply with_active_model|].
  split.
  - intros text. unfold embed, EmbedderModelManager.embed.
    cbn [manager models embeddingFunction fst snd]. split; reflexivity.
  - unfold saveStatus. cbn [AsyncStorage.embedderStatus AsyncStorage.item
                             manager currentModel].
    unfold initializeEmbeddingFunction. cbn [currentModel].
    rewrite Hid. split; reflexivity.
Qed.

(** X21.  [deleteModel] on an installed model that is not the built-in
    one, in a manager whose built-in model is installed: the call throws
    exactly when the file could not be deleted.  When the model was the
    active one, the manager has switched to the built-in model, which is
    then the current and the only active one and gives the embedding
    dimension, even when the deletion of the file failed afterwards; when
    it was not, the current model, the active flags and the device are
    untouched.  The model is marked as not installed when the file was
    deleted and stays installed otherwise; the installed flags of the other
    models do not change. *)
Theorem deleteModel_outcome modelId deleted st dev m builtin :
  find_entry modelId st = Some m ->
  is_builtin (model m) = false ->
  isInstalled m = true ->
  find_entry "simple-builtin" st = Some builtin ->
  isInstalled builtin = true ->
  let thrown := fst (fst (deleteModel modelId deleted st dev)) in
  let st' := snd (fst (deleteModel modelId deleted st dev)) in
  let dev' := snd (deleteModel modelId deleted st dev) in
  thrown = (if deleted then None else Some DeleteFailed)
  /\ (if isActive m
      then currentModel (manager st') = Some (model builtin)
           /\ embeddingFunction (manager st') = Some (dimensions (model builtin))
           /\ (forall x, In x (models st') -> isActive x = is_builtin (model x))
      else manager st' = manager st /\ dev' = dev
           /\ map isActive (models st') = map isActive (models st))
  /\ option_map isInstalled (find_entry modelId st') = Some (negb deleted)
  /\ (forall k, k <> modelId ->
        option_map isInstalled (find_entry k st')
        = option_map isInstalled (find_entry k st))
  /\ map model (models st') = map model (models st).
Proof.
  intros Hm Hnb Hinst Hb Hbinst. cbv zeta.
  destruct (find_entry_id _ _ Hm) as [Hin Hid].
  unfold deleteModel. rewrite Hm, Hnb, Hinst. cbn [negb].
  set (switched :=
         if isActive m then selectModel "simple-builtin" st dev
         else (None, st, dev)).
  assert (Hsw : exists st1 dev1,
             switched = (None, st1, dev1)
             /\ map model (models st1) = map model (models st)
             /\ (forall k, option_map isInstalled (find_entry k st1)
                           = option_map isInstalled (find_entry k st))
             /\ (if isActive m
                 then currentModel (manager st1) = Some (model builtin)
                      /\ embeddingFunction (manager st1)
                         = Some (dimensions (model builtin))
                      /\ (forall x, In x (models st1) ->
                                    isActive x = is_builtin (model x))
                 else st1 = st /\ dev1 = dev)).
  { unfold switched. destruct (isActive m).
    - unfold selectModel. rewrite Hb, Hbinst. cbn [negb].
      eexists. eexists. split; [reflexivity|]. cbn [models manager].
      split; [apply with_active_model|].
      split; [intros k; unfold find_entry; cbn [models]; apply find_with_active|].
      split; [reflexivity|]. split; [reflexivity|].
      intros x Hx. apply with_active_flags in Hx. exact Hx.
    - exists st, dev. auto. }
  destruct Hsw as [st1 [dev1 [-> [Hmodels [Hinstalled Hactive]]]]].
  assert (Hfound : find_entry modelId st1 <> None).
  { intros Hn. specialize (Hinstalled modelId). rewrite Hn, Hm in Hinstalled.
    discriminate. }
  assert (Hflag : option_map isInstalled (find_entry modelId st1) = Some true).
  { rewrite Hinstalled, Hm. cbn. now rewrite Hinst. }
  destruct deleted; cbn [fst snd negb].
  - split; [reflexivity|]. cbn [manager models]. split.
    { destruct (isActive m).
      - destruct Hactive as [Hc [He Hall]]. split; [exact Hc|]. split; [exact He|].
        intros x Hx. apply with_installed_In in Hx.
        destruct Hx as [y [Hy [Hmy [Hay _]]]]. rewrite Hmy, Hay. now apply Hall.
      - destruct Hactive as [-> ->]. split; [reflexivity|]. split; [reflexivity|].
        apply with_installed_model. }
    split.
    { unfold find_entry. cbn [models]. rewrite find_with_installed.
      rewrite String.eqb_refl. fold (find_entry modelId st1).
      destruct (find_entry modelId st1); [reflexivity|contradiction]. }
    split.
    { intros k Hk. unfold find_entry at 1. cbn [models].
      rewrite find_with_installed.
      destruct (String.eqb k modelId) eqn:E;
        [apply String.eqb_eq in E; contradiction|].
      apply Hinstalled. }
    etransitivity; [apply with_installed_model|exact Hmodels].
  - split; [reflexivity|]. split.
    { destruct (isActive m).
      - exact Hactive.
      - destruct Hactive as [-> ->]. auto. }
    split; [exact Hflag|]. split; [intros k _; apply Hinstalled|exact Hmodels].
Qed.

(** X22.  [downloadModel] never changes the current model, the embedding
    function, the active flags or the list of models.  It throws, and
    changes nothing at all, for an id that names no model, for the built-in
    model, for a model that is installed already, and when the request
    throws or answers with a status other than 200; otherwise it marks that
    model, and no other, as installed. *)
Theorem downloadModel_outcome modelId download st :
  let thrown := fst (downloadModel modelId download st) in
  let st' := snd (downloadModel modelId download st) in
  manager st' = manager st
  /\ map model (models st') = map model (models st)
  /\ map isActive (models st') = map isActive (models st)
  /\ match find_entry modelId st with
     | None => thrown = Some NotFound /\ st' = st
     | Some m =>
         if is_builtin (model m) then thrown = Some BuiltIn /\ st' = st
         else if isInstalled m then thrown = Some AlreadyInstalled /\ st' = st
         else if match download with
                 | Some status => status =? 200
                 | None => false
                 end
              then thrown = None
                   /\ option_map isInstalled (find_entry modelId st') = Some true
                   /\ (forall k, k <> modelId ->
                         find_entry k st' = find_entry k st)
              else thrown = Some DownloadFailed /\ st' = st
     end.
Proof.
  cbv zeta. unfold downloadModel.
  destruct (find_entry modelId st) as [m|] eqn:E; [|auto].
  destruct (is_builtin (model m)); [auto|].
  destruct (isInstalled m); [auto|].
  destruct download as [status|]; [|auto].
  destruct (status =? 200); [|auto].
  cbn [fst snd manager models].
  split; [reflexivity|]. split; [apply with_installed_model|].
  split; [apply with_installed_model|]. split; [reflexivity|]. split.
  - unfold find_entry in *. cbn [models]. rewrite find_with_installed.
    rewrite String.eqb_refl, E. reflexivity.
  - intros k Hk. unfold find_entry. cbn [models]. rewrite find_with_installed.
    destruct (String.eqb k modelId) eqn:E';
      [apply String.eqb_eq in E'; contradiction|reflexivity].
Qed.

Lemma builtin_entry modelId y m :
  id (model y) = modelId -> id (model m) = modelId ->
  is_builtin (model m) = false -> is_builtin (model y) = false.
Proof. unfold is_builtin. intros -> <-. tauto. Qed.

Lemma with_installed_sound modelId v ms :
  (v = false ->
   forall y, In y ms -> id (model y) = modelId -> is_builtin (model y) = false) ->
  (forall y, In y ms -> is_builtin (model y) = true -> isInstalled y = true) ->
  forall x, In x (with_installed modelId v ms) ->
            is_builtin (model x) = true -> isInstalled x = true.
Proof.
  intros Hnb Hall x Hx Hbx. apply with_installed_In in Hx.
  destruct Hx as [y [Hy [Hmy [_ [Hi|[Hi Hid]]]]]].
  - rewrite Hi. apply Hall; [exact Hy|]. now rewrite <- Hmy.
  - rewrite Hi. destruct v; [reflexivity|].
    rewrite Hmy in Hbx. rewrite (Hnb eq_refl y Hy Hid) in Hbx. discriminate.
Qed.

Lemma with_active_sound modelId ms :
  (forall y, In y ms -> is_builtin (model y) = true -> isInstalled y = true) ->
  forall x, In x (with_active modelId ms) ->
            is_builtin (model x) = true -> isInstalled x = true.
Proof.
  intros Hall x Hx. unfold with_active in Hx. apply in_map_iff in Hx.
  destruct Hx as [y [<- Hy]]. cbn. now apply Hall.
Qed.

Lemma find_entry_unique modelId st m y :
  find_entry modelId st = Some m -> is_builtin (model m) = false ->
  In y (models st) -> id (model y) = modelId -> is_builtin (model y) = false.
Proof.
  intros Hf Hnb _ Hid. apply find_entry_id in Hf. destruct Hf as [_ Hm].
  unfold is_builtin in *. now rewrite Hid, <- Hm.
Qed.

(** X23.  Two properties of the manager are kept by [downloadModel],
    [selectModel], [deleteModel] and [initialize] alike, whether they throw
    or not: its models are those of [availableModels], and the built-in
    model is marked as installed. *)
Theorem builtin_stays_installed st :
  catalogued st -> builtin_installed st ->
  (forall modelId download,
      let st' := snd (downloadModel modelId download st) in
      catalogued st' /\ builtin_installed st')
  /\ (forall modelId dev,
         let st' := snd (fst (selectModel modelId st dev)) in
         catalogued st' /\ builtin_installed st')
  /\ (forall modelId deleted dev,
         let st' := snd (fst (deleteModel modelId deleted st dev)) in
         catalogued st' /\ builtin_installed st')
  /\ (forall saved fileExists,
         let st' := initialize saved fileExists st in
         catalogued st' /\ builtin_installed st').
Proof.
  unfold catalogued, builtin_installed. intros Hcat Hb.
  assert (Hselect : forall modelId dev s,
             map model (models s) = availableModels ->
             (forall x, In x (models s) -> is_builtin (model x) = true ->
                        isInstalled x = true) ->
             let s' := snd (fst (selectModel modelId s dev)) in
             map model (models s') = availableModels
             /\ (forall x, In x (models s') -> is_builtin (model x) = true ->
                           isInstalled x = true)).
  { intros modelId dev s Hc Hs. cbv zeta. unfold selectModel.
    destruct (find_entry modelId s) as [m|]; [|auto].
    destruct (isInstalled m); cbn [negb fst snd models]; [|auto].
    split; [now rewrite (proj1 (with_active_model modelId (models s)))|].
    now apply with_active_sound. }
  split; [|split; [|split]].
  - intros modelId download. cbv zeta. unfold downloadModel.
    destruct (find_entry modelId st) as [m|]; [|auto].
    destruct (is_builtin (model m)); [auto|].
    destruct (isInstalled m); [auto|].
    destruct download as [status|]; [|auto].
    destruct (status =? 200); cbn [fst snd models]; [|auto].
    split; [now rewrite (proj1 (with_installed_model modelId true (models st)))|].
    apply with_installed_sound; [discriminate|exact Hb].
  - intros modelId dev. now apply Hselect.
  - intros modelId deleted dev. cbv zeta. unfold deleteModel.
    destruct (find_entry modelId st) as [m|] eqn:Hm; [|auto].
    destruct (is_builtin (model m)) eqn:Hnb; [auto|].
    destruct (isInstalled m); cbn [negb]; [|auto].
    assert (Hsw : exists thrown st1 dev1,
               (if isActive m then selectModel "simple-builtin" st dev
                else (None, st, dev)) = (thrown, st1, dev1)
               /\ map model (models st1) = availableModels
               /\ (forall x, In x (models st1) -> is_builtin (model x) = true ->
                             isInstalled x = true)).
    { destruct (isActive m).
      - destruct (Hselect "simple-builtin" dev st Hcat Hb) as [H1 H2].
        destruct (selectModel "simple-builtin" st dev) as [[thrown st1] dev1].
        exists thrown, st1, dev1. auto.
      - exists None, st, dev. auto. }
    destruct Hsw as [thrown [st1 [dev1 [-> [Hc1 Hb1]]]]].
    destruct thrown as [e|]; cbn [fst snd]; [auto|].
    destruct deleted; cbn [fst snd models]; [|auto].
    split; [now rewrite (proj1 (with_installed_model modelId false (models st1)))|].
    apply with_installed_sound; [|exact Hb1].
    intros _ y _ Hid. apply find_entry_id in Hm. destruct Hm as [_ Hm].
    unfold is_builtin in *. now rewrite Hid, <- Hm.
  - intros saved fileExists. cbv zeta. unfold initialize, updateInstalledStatus.
    cbn [models]. split.
    + rewrite map_map. cbn [model].
      change (map model (models (loadStatus saved st)) = availableModels).
      unfold loadStatus. destruct saved as [modelId|]; [|exact Hcat].
      destruct (String.eqb modelId ""); [exact Hcat|].
      destruct (find_entry modelId st); [|exact Hcat]. cbn [models].
      now rewrite (proj1 (with_active_model modelId (models st))).
    + intros x Hx Hbx. apply in_map_iff in Hx. destruct Hx as [y [<- _]].
      cbn in *. now rewrite Hbx.
Qed.

Lemma new_catalogued : map model (models EmbedderModelManagerService.new) = availableModels.
Proof. reflexivity. Qed.

Lemma find_by_model (p : EmbedderModel -> bool) (ms : list Model) :
  forall ms', map model ms = map model ms' ->
              option_map model (find (fun x => p (model x)) ms)
              = option_map model (find (fun x => p (model x)) ms').
Proof.
  induction ms as [|x ms IH]; intros [|y ms'] E; simpl in *; try discriminate.
  - reflexivity.
  - injection E as Exy E. rewrite Exy.
    destruct (p (model y)); [cbn; now rewrite Exy|auto].
Qed.

Lemma active_by_model modelId (ms ms' : list Model) :
  map model ms = map model ms' ->
  map isActive (with_active modelId ms) = map isActive (with_active modelId ms').
Proof.
  intros E. unfold with_active. rewrite !map_map. cbn [isActive].
  rewrite <- (map_map model (fun m => String.eqb (id m) modelId) ms).
  rewrite <- (map_map model (fun m => String.eqb (id m) modelId) ms').
  now rewrite E.
Qed.

(** X24.  The choice of a model survives a restart.  After [selectModel]
    on an installed model with a successful write, the device holds the id
    of the model; a new manager that runs [initialize] on that status has
    the same current model and the same active flags, and [embed] gives the
    same vectors as before the restart; and the manager's state is the one
    that the store's view of [initialize] computes. *)
Theorem selected_model_survives_restart modelId st dev m fileExists :
  catalogued st ->
  find_entry modelId st = Some m ->
  isInstalled m = true ->
  AsyncStorage.fails dev (AsyncStorage.calls dev) = false ->
  let st' := snd (fst (selectModel modelId st dev)) in
  let dev' := snd (selectModel modelId st dev) in
  let restarted :=
    initialize (AsyncStorage.embedderStatus dev') fileExists
               EmbedderModelManagerService.new in
  AsyncStorage.embedderStatus dev' = Some modelId
  /\ currentModel (manager restarted) = currentModel (manager st')
  /\ map isActive (models restarted) = map isActive (models st')
  /\ (forall text, fst (embed text restarted) = fst (embed (F := F) text st'))
  /\ manager restarted
     = EmbedderModelManager.initialize (AsyncStorage.embedderStatus dev')
                                       EmbedderModelManager.new.
Proof.
  intros Hcat Hm Hinst Hwrite. cbv zeta.
  destruct (find_entry_id _ _ Hm) as [Hin Hid].
  assert (Havail : In (model m) availableModels).
  { rewrite <- Hcat. now apply in_map. }
  assert (Hne : String.eqb modelId "" = false).
  { rewrite <- Hid. cbn in Havail.
    destruct Havail as [<-|[<-|[<-|[<-|[]]]]]; reflexivity. }
  assert (Hstatus : AsyncStorage.embedderStatus (snd (selectModel modelId st dev))
                    = Some modelId).
  { unfold selectModel. rewrite Hm, Hinst. cbn [negb snd].
    unfold saveStatus. cbn [AsyncStorage.embedderStatus]. rewrite Hwrite.
    unfold initializeEmbeddingFunction. cbn [manager currentModel].
    now rewrite Hid, Hne. }
  assert (Hnew : exists m0, find_entry modelId EmbedderModelManagerService.new = Some m0
                            /\ model m0 = model m).
  { pose proof (@find_by_model (fun x => String.eqb (id x) modelId)
                  (models EmbedderModelManagerService.new) (models st)) as E.
    unfold find_entry in *. rewrite Hm in E. cbn [option_map] in E.
    destruct (find _ (models EmbedderModelManagerService.new)) as [m0|].
    - exists m0. split; [reflexivity|]. cbn in E.
      assert (Some (model m0) = Some (model m)) as [= ->]; [|reflexivity].
      apply E. symmetry. exact Hcat.
    - exfalso. assert (@None EmbedderModel = Some (model m)) by
        (apply E; symmetry; exact Hcat).
      discriminate. }
  destruct Hnew as [m0 [Hm0 Hmodel]].
  rewrite Hstatus. split; [reflexivity|].
  unfold initialize, updateInstalledStatus, loadStatus.
  rewrite Hne, Hm0. cbn [manager models currentModel].
  unfold selectModel. rewrite Hm, Hinst.
  cbn [negb fst snd manager models currentModel initializeEmbeddingFunction].
  split; [now rewrite Hmodel|]. split.
  { rewrite map_map. cbn [isActive].
    change (map (fun x => isActive x)
                (with_active modelId (models EmbedderModelManagerService.new))
            = map isActive (with_active modelId (models st))).
    apply active_by_model. rewrite new_catalogued. symmetry. exact Hcat. }
  split.
  { intros text. unfold embed, EmbedderModelManager.embed.
    cbn [manager embeddingFunction currentModel fst
         EmbedderModelManagerService.new EmbedderModelManager.new
         initializeEmbeddingFunction].
    now rewrite Hmodel. }
  unfold EmbedderModelManager.initialize, EmbedderModelManager.loadStatus.
  assert (Hfm : find_model modelId = Some (model m)).
  { unfold find_model. rewrite <- Hid.
    cbn in Havail. destruct Havail as [<-|[<-|[<-|[<-|[]]]]]; reflexivity. }
  rewrite Hfm, Hmodel. reflexivity.
Qed.
End Device.

Lemma selectModel_outcome_witness :
  option_map isInstalled (find_entry "all-mpnet-base-v2" Samples.downloaded)
  = Some true
  /\ fst (fst Samples.switched) = None
  /\ option_map dimensions (currentModel (manager (snd (fst Samples.switched))))
     = Some 768%nat
  /\ selectModel "all-minilm-l6-v2" Samples.downloaded Examples.device0
     = (Some NotInstalled, Samples.downloaded, Examples.device0).
Proof.
  split; [reflexivity|].
  pose proof (@selectModel_outcome spec_float _ "all-mpnet-base-v2"
                Samples.downloaded Examples.device0) as Hyes.
  pose proof (@selectModel_outcome spec_float _ "all-minilm-l6-v2"
                Samples.downloaded Examples.device0) as Hno.
  destruct (find_entry "all-mpnet-base-v2" Samples.downloaded) as [m|] eqn:E;
    [|vm_compute in E; discriminate].
  vm_compute in E. injection E as <-. cbn [isInstalled] in Hyes.
  destruct Hyes as [Hnone [Hcur _]].
  split; [exact Hnone|]. split; [unfold Samples.switched; now rewrite Hcur|].
  destruct (find_entry "all-minilm-l6-v2" Samples.downloaded) as [m|] eqn:E;
    [|vm_compute in E; discriminate].
  vm_compute in E. injection E as <-. exact Hno.
Defined.

Lemma deleteModel_outcome_witness :
  let st := snd (fst Samples.switched) in
  let dev := snd Samples.switched in
  option_map isActive (find_entry "all-mpnet-base-v2" st) = Some true
  /\ fst (fst (deleteModel "all-mpnet-base-v2" false st dev)) = Some DeleteFailed
  /\ option_map id
       (currentModel (manager (snd (fst (deleteModel "all-mpnet-base-v2" false
                                                     st dev)))))
     = Some "simple-builtin".
Proof.
  cbv zeta. split; [reflexivity|].
  destruct (@deleteModel_outcome spec_float "all-mpnet-base-v2" false
              (snd (fst Samples.switched)) (snd Samples.switched)
              {| model := {| id := "all-mpnet-base-v2"; dimensions := 768 |};
                 isInstalled := true; isActive := true |}
              {| model := {| id := "simple-builtin"; dimensions := 128 |};
                 isInstalled := true; isActive := false |}
              eq_refl eq_refl eq_refl eq_refl eq_refl)
    as [Hthrown [Hactive _]].
  split; [exact Hthrown|].
  cbn [isActive] in Hactive. destruct Hactive as [Hcur _].
  rewrite Hcur. reflexivity.
Defined.

Lemma downloadModel_outcome_witness :
  fst (downloadModel "all-mpnet-base-v2" (Some 200) EmbedderModelManagerService.new)
  = None
  /\ option_map isInstalled (find_entry "all-mpnet-base-v2" Samples.downloaded)
     = Some true
  /\ ("bge-small-en-v1.5" <> "all-mpnet-base-v2"
      /\ find_entry "bge-small-en-v1.5" Samples.downloaded
         = find_entry "bge-small-en-v1.5" EmbedderModelManagerService.new)
  /\ downloadModel "all-mpnet-base-v2" (Some 404) EmbedderModelManagerService.new
     = (Some DownloadFailed, EmbedderModelManagerService.new).
Proof.
  pose proof (downloadModel_outcome "all-mpnet-base-v2" (Some 200)
                EmbedderModelManagerService.new) as Hyes.
  cbv zeta in Hyes. destruct Hyes as [_ [_ [_ Hyes]]].
  destruct (find_entry "all-mpnet-base-v2" EmbedderModelManagerService.new)
    as [m|] eqn:E; [|vm_compute in E; discriminate].
  vm_compute in E. injection E as <-.
  cbn [model isInstalled is_builtin id String.eqb Ascii.eqb Bool.eqb Z.eqb
       Pos.eqb] in Hyes.
  destruct Hyes as [Hnone [Hinst Hother]].
  split; [exact Hnone|]. split; [exact Hinst|].
  split; [split; [discriminate|apply Hother; discriminate]|].
  reflexivity.
Defined.

Lemma new_sound :
  catalogued EmbedderModelManagerService.new
  /\ builtin_installed EmbedderModelManagerService.new.
Proof.
  split; [reflexivity|]. intros m Hin Hb. vm_compute in Hin.
  destruct Hin as [<-|[<-|[<-|[<-|[]]]]]; try reflexivity; discriminate.
Qed.

Lemma builtin_stays_installed_witness :
  catalogued EmbedderModelManagerService.new
  /\ builtin_installed EmbedderModelManagerService.new
  /\ builtin_installed Samples.downloaded
  /\ builtin_installed
       (snd (fst (deleteModel "simple-builtin" true
                              EmbedderModelManagerService.new
                              Examples.device0))).
Proof.
  destruct new_sound as [Hc Hb]. split; [exact Hc|]. split; [exact Hb|].
  destruct (@builtin_stays_installed spec_float
              EmbedderModelManagerService.new Hc Hb)
    as [Hdown [_ [Hdel _]]].
  split.
  - exact (proj2 (Hdown "all-mpnet-base-v2" (Some 200))).
  - exact (proj2 (Hdel "simple-builtin" true Examples.device0)).
Defined.

Lemma selected_model_survives_restart_witness :
  catalogued Samples.downloaded
  /\ AsyncStorage.embedderStatus (snd Samples.switched) = Some "all-mpnet-base-v2"
  /\ option_map dimensions
       (currentModel
          (manager (initialize (AsyncStorage.embedderStatus (snd Samples.switched))
                               (fun _ => true) EmbedderModelManagerService.new)))
     = Some 768%nat.
Proof.
  assert (Hc : catalogued Samples.downloaded) by reflexivity.
  split; [exact Hc|].
  destruct (@selected_model_survives_restart spec_float _ "all-mpnet-base-v2"
              Samples.downloaded Examples.device0
              {| model := {| id := "all-mpnet-base-v2"; dimensions := 768 |};
                 isInstalled := true; isActive := false |}
              (fun _ => true) Hc eq_refl eq_refl eq_refl)
    as [Hstatus [Hcur _]].
  split; [exact Hstatus|].
  unfold Samples.switched. rewrite Hcur. reflexivity.
Defined.
End ModelManagement.

(** ** The embedding service of LightVectorDB.ts *)
Module EmbeddingService.
Import EmbedderModelManager.

Section AnyArithmetic.
Context {F : Type} `{JsNumber F}.

Lemma increment_app (i : nat) (e tail : list F) :
  (i < List.length e)%nat ->
  increment i (e ++ tail) = (increment i e ++ tail)%list.
Proof.
  revert i. induction e as [|x e IH]; intros i Hi; cbn [List.length] in Hi; [lia|].
  destruct i as [|i]; cbn [app increment]; [reflexivity|].
  rewrite IH by lia. reflexivity.
Qed.

Lemma increment_at_app offset hash (e tail : list F) :
  (offset + 32 <= List.length e)%nat ->
  increment_at offset (bucket hash 32) (e ++ tail)
  = (increment_at offset (bucket hash 32) e ++ tail)%list.
Proof.
  intros Hlen.
  destruct (@Embedding.bucket_in_range hash 32) as [i [Hb Hi]]; [lia|].
  rewrite Hb. cbn [increment_at]. apply increment_app. lia.
Qed.

Lemma loop_app offset (g : nat -> Z) (rounds : list nat) (tail : list F) :
  forall e,
    (offset + 32 <= List.length e)%nat ->
    fold_left (fun e i => increment_at offset (bucket (g i) 32) e) rounds
              (e ++ tail)%list
    = (fold_left (fun e i => increment_at offset (bucket (g i) 32) e) rounds e
       ++ tail)%list
    /\ List.length
         (fold_left (fun e i => increment_at offset (bucket (g i) 32) e) rounds e)
       = List.length e.
Proof.
  induction rounds as [|i rounds IH]; intros e Hlen; cbn [fold_left]; [auto|].
  rewrite increment_at_app by exact Hlen.
  destruct (IH (increment_at offset (bucket (g i) 32) e)) as [E L].
  { now rewrite Embedding.increment_at_length. }
  rewrite E, L, Embedding.increment_at_length. auto.
Qed.
End AnyArithmetic.

Local Open Scope R_scope.

Lemma dot_app (a b : list R) : Vec.dot (a ++ b) (a ++ b) = Vec.dot a a + Vec.dot b b.
Proof. induction a as [|x a IH]; simpl; [lra|]. rewrite IH. lra. Qed.

Lemma dot_zeros (n : nat) : Vec.dot (repeat 0 n) (repeat 0 n) = 0.
Proof. induction n as [|n IH]; simpl; [reflexivity|]. rewrite IH. lra. Qed.

Lemma map_zeros (m : R) (n : nat) : map (fun x => x / m) (repeat 0 n) = repeat 0 n.
Proof.
  induction n as [|n IH]; simpl; [reflexivity|]. rewrite IH.
  f_equal. unfold Rdiv. ring.
Qed.

Lemma generateEmbedding_padded (text : string) :
  @SimpleEmbeddingService.generateEmbedding R _ text
  = (@generateSimpleEmbedding R _ text 64 ++ repeat 0 64)%list.
Proof.
  unfold SimpleEmbeddingService.generateEmbedding, generateSimpleEmbedding.
  change (Nat.div 64 2) with 32%nat.
  change (repeat zero SimpleEmbeddingService.vectorSize)
    with (repeat (@zero R _) 64 ++ repeat (@zero R _) 64)%list.
  set (chars := Js.remove_spaces (Js.toLowerCase text)).
  set (words := Js.split_spaces (Js.toLowerCase text)).
  destruct (@loop_app R _ 0 (fun i => simpleHash (Js.substr i 2 chars))
              (seq 0 (Nat.min (String.length chars - 1) 32))
              (repeat zero 64) (repeat zero 64)) as [E1 L1].
  { rewrite repeat_length. lia. }
  rewrite E1.
  destruct (@loop_app R _ 32 (fun i => simpleHash (nth i words EmptyString))
              (seq 0 (Nat.min (List.length words) 32))
              (repeat zero 64)
              (fold_left (fun e i =>
                            increment_at 0
                              (bucket (simpleHash (Js.substr i 2 chars)) 32) e)
                         (seq 0 (Nat.min (String.length chars - 1) 32))
                         (repeat zero 64))) as [E2 L2].
  { rewrite L1, repeat_length. lia. }
  rewrite E2.
  match goal with
  | |- context [sum_squares (?e ++ _)%list] => set (half := e)
  end.
  assert (Hsum : sum_squares (half ++ repeat zero 64)%list = sum_squares half).
  { rewrite !Cosine.sum_squares_exact, dot_app.
    change (@zero R _) with 0. rewrite dot_zeros. lra. }
  rewrite Hsum. destruct (ltb zero (sqrt (sum_squares half))); [|reflexivity].
  rewrite map_app. f_equal. cbn [fround div Exact.number].
  change (@zero R _) with 0. apply map_zeros.
Qed.

(** X25.  With numbers read as reals, [generateEmbedding] of the embedding
    service of LightVectorDB.ts uses half of its 128 components: the result
    is the manager's embedding of the text in dimension 64 followed by 64
    zeros.  So it has 128 components, Euclidean norm 1, and is 0 from
    index 64 on. *)
Theorem generateEmbedding_uses_half (text : string) :
  @SimpleEmbeddingService.generateEmbedding R _ text
  = (@generateSimpleEmbedding R _ text 64 ++ repeat 0 64)%list
  /\ List.length (@SimpleEmbeddingService.generateEmbedding R _ text) = 128%nat
  /\ Vec.norm (@SimpleEmbeddingService.generateEmbedding R _ text) = 1
  /\ (forall i, (64 <= i)%nat ->
                nth i (@SimpleEmbeddingService.generateEmbedding R _ text) 0 = 0).
Proof.
  destruct (@Embedding.generateSimpleEmbedding_unit_norm text 64) as [Hlen Hnorm];
    [lia|].
  rewrite generateEmbedding_padded.
  split; [reflexivity|]. split; [|split].
  - rewrite length_app, Hlen, repeat_length. reflexivity.
  - unfold Vec.norm in *. now rewrite dot_app, dot_zeros, Rplus_0_r.
  - intros i Hi. rewrite app_nth2 by lia. rewrite Hlen.
    apply nth_repeat.
Qed.

Lemma generateEmbedding_binary64_example :
  @SimpleEmbeddingService.generateEmbedding spec_float _ "Hello there"
  = (@generateSimpleEmbedding spec_float _ "Hello there" 64 ++ repeat zero 64)%list.
Proof. vm_compute. reflexivity. Qed.

Lemma generateEmbedding_uses_half_witness :
  (64 <= 100)%nat
  /\ nth 100 (@SimpleEmbeddingService.generateEmbedding R _ "Hello there") 0 = 0
  /\ Vec.norm (@SimpleEmbeddingService.generateEmbedding R _ "Hello there") = 1.
Proof.
  split; [lia|].
  destruct (generateEmbedding_uses_half "Hello there") as [_ [_ [Hn Hz]]].
  split; [apply Hz; lia|exact Hn].
Defined.
End EmbeddingService.

(** ** The logger *)
Module LoggerFacts.
Import Logger Vocabulary.

Lemma last_n_all {A} (n : nat) (l : list A) :
  (List.length l <= n)%nat -> last_n n l = l.
Proof. intros Hl. unfold last_n. now replace (List.length l - n)%nat with 0%nat by lia. Qed.

Lemma last_n_app {A} (n : nat) (a b : list A) :
  last_n n (last_n n a ++ b) = last_n n (a ++ b).
Proof.
  unfold last_n. rewrite !length_app, length_skipn.
  destruct (Nat.le_gt_cases (List.length a) n) as [Hle|Hgt].
  - replace (List.length a - n)%nat with 0%nat by lia. cbn [skipn].
    now rewrite Nat.sub_0_r.
  - replace (List.length a - (List.length a - n) + List.length b - n)%nat
      with (List.length b) by lia.
    replace (List.length a + List.length b - n)%nat
      with (List.length b + (List.length a - n))%nat by lia.
    rewrite <- skipn_skipn. f_equal.
    rewrite skipn_app.
    replace (List.length a - n - List.length a)%nat with 0%nat by lia.
    reflexivity.
Qed.

Lemma last_n_length {A} (n : nat) (l : list A) :
  List.length (last_n n l) = Nat.min n (List.length l).
Proof. unfold last_n. rewrite length_skipn. lia. Qed.

Lemma log_step (lg : Logger.t) (c : LogCall) :
  isEmitting lg = false ->
  logs (log lg c) = last_n 1000 (logs lg ++ [logged c])
  /\ isEmitting (log lg c) = negb (call_returned c).
Proof.
  intros He. unfold log, addLog. rewrite He. cbn [logs isEmitting].
  split; [|reflexivity]. fold (logged c).
  destruct (maxLogs <? Z.of_nat (List.length (logs lg ++ [logged c]))) eqn:E.
  - apply Z.ltb_lt in E. unfold maxLogs in *.
    unfold last_n. rewrite (@StoreOperations.slice_last _ 1000) by lia.
    reflexivity.
  - apply Z.ltb_ge in E. unfold maxLogs in E.
    symmetry. apply last_n_all. lia.
Qed.

(** X26.  A logger that is not emitting and holds at most 1000 entries,
    after any sequence of calls whose listeners come back: [getLogs] is the
    last 1000 of the entries it held followed by the entries of the calls,
    in order (all of them when they are fewer), it never holds more than
    1000, and the logger is not emitting. *)
Theorem logger_keeps_last_entries (calls : list LogCall) (lg : Logger.t) :
  isEmitting lg = false ->
  (List.length (logs lg) <= 1000)%nat ->
  Forall (fun c => call_returned c = true) calls ->
  let after := fold_left log calls lg in
  getLogs after = last_n 1000 (logs lg ++ map logged calls)
  /\ (List.length (getLogs after) <= 1000)%nat
  /\ isEmitting after = false.
Proof.
  intros He Hlen Hret. cbv zeta. unfold getLogs.
  revert lg He Hlen. induction Hret as [|c calls Hc Hret IH]; intros lg He Hlen.
  - cbn [fold_left map]. rewrite app_nil_r, last_n_all by exact Hlen. auto.
  - cbn [fold_left map].
    destruct (log_step lg c He) as [Hl Hs]. rewrite Hc in Hs.
    destruct (IH (log lg c) Hs) as [E [L Em]].
    { rewrite Hl, last_n_length. lia. }
    split; [|auto]. rewrite E, Hl, last_n_app, <- app_assoc. reflexivity.
Qed.

(** X27.  When a listener (or the console) throws during [addLog], the
    logger is left emitting, and from then on every call of a logging
    method returns at the re-entrancy test: no sequence of calls changes
    the logger any more, and [clearLogs] empties the list without ending
    that. *)
Theorem logger_silenced_after_throw (lv : level) (msg : string) (t_id : Z)
        (rnd : string) (t_stamp : Z) (calls : list LogCall) (lg : Logger.t) :
  let stuck := addLog lv msg t_id rnd t_stamp false lg in
  isEmitting stuck = true
  /\ fold_left log calls stuck = stuck
  /\ isEmitting (clearLogs stuck) = true
  /\ fold_left log calls (clearLogs stuck) = clearLogs stuck.
Proof.
  cbv zeta.
  assert (Hstuck : isEmitting (addLog lv msg t_id rnd t_stamp false lg) = true).
  { unfold addLog. destruct (isEmitting lg) eqn:E; [exact E|reflexivity]. }
  assert (Hrun : forall s, isEmitting s = true -> fold_left log calls s = s).
  { intros s Hs. induction calls as [|c calls IH]; [reflexivity|].
    cbn [fold_left]. unfold log at 2, addLog. rewrite Hs. exact IH. }
  split; [exact Hstuck|]. split; [now apply Hrun|].
  split; [exact Hstuck|]. apply Hrun. exact Hstuck.
Qed.

Lemma logger_keeps_last_entries_witness :
  Forall (fun c => call_returned c = true) (Samples.ticks 1001)
  /\ getLogs (fold_left log (Samples.ticks 1001) Logger.new)
     = map logged (map Samples.tick (seq 1 1000))
  /\ (List.length (getLogs (fold_left log (Samples.ticks 1001) Logger.new))
      <= 1000)%nat.
Proof.
  assert (Hret : Forall (fun c => call_returned c = true) (Samples.ticks 1001)).
  { apply Forall_forall. intros c Hc. unfold Samples.ticks in Hc.
    apply in_map_iff in Hc. destruct Hc as [n [<- _]]. reflexivity. }
  split; [exact Hret|].
  destruct (@logger_keeps_last_entries (Samples.ticks 1001) Logger.new
              eq_refl (Nat.le_0_l 1000) Hret) as [Hlogs [Hlen _]].
  split; [|exact Hlen].
  rewrite Hlogs. cbn [logs Logger.new app]. unfold last_n.
  rewrite length_map. unfold Samples.ticks. rewrite length_map, length_seq.
  change (1001 - 1000)%nat with 1%nat.
  rewrite !skipn_map, skipn_seq. reflexivity.
Defined.
End LoggerFacts.

(** ** The reducer of the chat context, on top of the store *)
Module ReducerFacts.
Import Vocabulary LightVectorDB Spec StoreFacts JsMapFacts ArrayFacts StoreCommon ChatContext.
Section Facts.
Context {F : Type} `{JsNumber F}.
Implicit Types (state : ChatUIState F) (action : ChatAction F).

Lemma found_spec (msgs : list (ChatMessage.t F)) id :
  existsb (fun m => String.eqb (ChatMessage.id m) id) msgs = true
  <-> In id (map ChatMessage.id msgs).
Proof.
  rewrite existsb_exists, in_map_iff. split.
  - intros [m [Hin E]]. apply String.eqb_eq in E. now exists m.
  - intros [m [E Hin]]. exists m. split; [exact Hin|]. now apply String.eqb_eq.
Qed.

Lemma reducer_step_ids state action :
  keeps_ids action = true ->
  NoDup (map ChatMessage.id (messages state)) ->
  NoDup (map ChatMessage.id (messages (chatReducer state action))).
Proof.
  intros Hk Hnd.
  destruct action as [listed|sessionId|msgs|added|messageId updates|messageId
                     |loading|generating|err| |sessionId updates];
    cbn in *; try assumption; try discriminate.
  - destruct (existsb _ (messages state)) eqn:E; [assumption|].
    cbn [messages with_messages]. rewrite map_app. cbn [map].
    apply NoDup_app_remove_l with (l := []). cbn [app].
    apply Permutation_NoDup
      with (l := ChatMessage.id added :: map ChatMessage.id (messages state)).
    + apply Permutation_cons_append.
    + constructor; [|assumption]. intros Hin. apply found_spec in Hin. congruence.
  - destruct (ChatMessage.new_id updates) eqn:E; [discriminate|].
    rewrite map_map.
    replace (map _ (messages state)) with (map ChatMessage.id (messages state));
      [assumption|].
    apply map_ext. intros m. destruct (String.eqb (ChatMessage.id m) messageId);
      [|reflexivity].
    unfold ChatMessage.merged. cbn. now rewrite E.
  - induction (messages state) as [|m msgs IH]; cbn; [constructor|].
    inversion Hnd as [|? ? Hnotin Hnd']; subst.
    destruct (negb (String.eqb (ChatMessage.id m) messageId)); cbn; [|auto].
    constructor; [|auto]. intros Hin. apply Hnotin.
    apply in_map_iff in Hin. destruct Hin as [x [Hx Hin]].
    apply filter_In in Hin. apply in_map_iff. exists x. tauto.
Qed.

(** X28.  The reducer keeps the ids of the messages on screen distinct:
    from a state whose messages have distinct ids, any sequence of actions
    other than [SET_MESSAGES] and an [UPDATE_MESSAGE] that overwrites the
    id leads to a state whose messages have distinct ids. *)
Theorem chatReducer_keeps_ids_distinct (actions : list (ChatAction F)) state :
  NoDup (map ChatMessage.id (messages state)) ->
  forallb keeps_ids actions = true ->
  NoDup (map ChatMessage.id (messages (fold_left chatReducer actions state))).
Proof.
  revert state. induction actions as [|a actions IH]; intros state Hnd Hk;
    cbn [fold_left]; [assumption|].
  cbn [forallb] in Hk. apply andb_true_iff in Hk. destruct Hk as [Ha Hk].
  apply IH; [|assumption]. now apply reducer_step_ids.
Qed.

Lemma last_In {A} (l : list A) (d : A) : l <> [] -> In (last l d) l.
Proof.
  induction l as [|x l IH]; [congruence|]. intros _.
  destruct l as [|y l]; [now left|]. right. apply IH. discriminate.
Qed.

(** X29.  The screen follows the store on [addMessage].  The screen shows
    the messages of the session; the store's [addMessage] is called and the
    message it returns is dispatched as [ADD_MESSAGE].  Then the screen
    shows the session's messages again, both when the store recognised a
    repeated message and returned a stored one, which the reducer skips,
    and when it stored a new one, provided that the new id is not on
    screen yet. *)
Theorem added_message_keeps_screen_in_step data now rnd w state :
  let sid := MessageData.sessionId data in
  let msg := fst (addMessage data now rnd w) in
  let w' := snd (addMessage data now rnd w) in
  messages state = fst (getMessages sid None w) ->
  (existsb (duplicates data now) (scanned data w) = false ->
   ~ In (ChatMessage.id msg) (map ChatMessage.id (messages state))) ->
  messages (chatReducer state (ADD_MESSAGE msg)) = fst (getMessages sid None w').
Proof.
  cbv zeta. intros Hsync Hnew.
  assert (Hshown : messages state = scanned data w).
  { rewrite Hsync. reflexivity. }
  destruct (existsb (duplicates data now) (scanned data w)) eqn:Hdup.
  - destruct (AddMessage.addMessage_duplicate data now rnd w Hdup) as [default E].
    rewrite E. cbn [fst snd chatReducer].
    assert (Hin : In (last (scanned data w) default) (scanned data w)).
    { apply last_In. intros Hnil. rewrite Hnil in Hdup. discriminate. }
    assert (Hfound :
              existsb (fun m => String.eqb (ChatMessage.id m)
                                  (ChatMessage.id (last (scanned data w) default)))
                      (messages state) = true).
    { apply found_spec. rewrite Hshown. now apply in_map. }
    rewrite Hfound, Hsync. unfold getMessages. cbn [fst].
    now rewrite initialize_idem.
  - specialize (Hnew eq_refl).
    destruct (AddMessage.addMessage_fresh data now rnd w Hdup)
      as [_ [Hmsgs [_ [Hinit _]]]]. cbv zeta in Hmsgs, Hinit.
    cbn [chatReducer].
    destruct (existsb _ (messages state)) eqn:Hfound.
    + apply found_spec in Hfound. contradiction.
    + cbn [messages with_messages]. unfold getMessages at 1.
      rewrite (initialize_ready _ Hinit). cbn [fst last_messages].
      rewrite Hmsgs, get_set_eq. cbn [ChatSession.or_else].
      now rewrite Hshown.
Qed.

(** X30.  The screen follows the store on [deleteMessage].  The screen
    shows the messages of a session, with distinct ids, and that session's
    array is where [deleteMessage] finds the id; after the store's
    [deleteMessage] and the dispatch of [REMOVE_MESSAGE] the screen shows
    the session's messages again. *)
Theorem deleted_message_keeps_screen_in_step id now w state sid msgs :
  messages state = fst (getMessages sid None w) ->
  NoDup (map ChatMessage.id (messages state)) ->
  JsMap.ok (LightVectorDB.messages (observed w)) ->
  owner id (LightVectorDB.messages (observed w)) = Some (sid, msgs) ->
  messages (chatReducer state (REMOVE_MESSAGE id))
  = fst (getMessages sid None (deleteMessage id now w)).
Proof.
  intros Hsync Hnd Hok Howner.
  destruct (StoreOperations.deleteMessage_array id now w Howner) as [Hget Hinit].
  apply find_some in Howner. destruct Howner as [Hin _].
  apply In_get in Hin; [|exact Hok].
  assert (Hshown : messages state = msgs).
  { rewrite Hsync. unfold getMessages. cbn [fst last_messages].
    unfold observed in Hin. now rewrite Hin. }
  cbn [chatReducer messages with_messages].
  unfold getMessages. cbn [fst last_messages].
  rewrite (initialize_ready _ Hinit), Hget. cbn [ChatSession.or_else].
  rewrite Hshown in *. rewrite (@StoreOperations.splice_id_filter _ id msgs Hnd).
  apply filter_ext. intros m. unfold has_id. reflexivity.
Qed.
End Facts.

Lemma screen_ids :
  NoDup (map ChatMessage.id (messages Samples.screen)).
Proof. vm_compute. repeat constructor. simpl. tauto. Qed.

Lemma chatReducer_keeps_ids_distinct_witness :
  let actions :=
    [ADD_MESSAGE (fst Examples.trip_hello);
     UPDATE_MESSAGE Samples.hello_id
       {| ChatMessage.new_id := None; ChatMessage.new_sessionId := None;
          ChatMessage.new_role := None;
          ChatMessage.new_content := Some "Hello again";
          ChatMessage.new_timestamp := None;
          ChatMessage.new_embedding := None |};
     TOGGLE_HISTORY_PANEL] in
  NoDup (map ChatMessage.id (messages Samples.screen))
  /\ forallb keeps_ids actions = true
  /\ NoDup (map ChatMessage.id
              (messages (fold_left chatReducer actions Samples.screen))).
Proof.
  cbv zeta. split; [exact screen_ids|]. split; [reflexivity|].
  apply chatReducer_keeps_ids_distinct; [exact screen_ids|reflexivity].
Defined.

Lemma added_message_keeps_screen_in_step_witness :
  let again := addMessage (Examples.hello Examples.trip) 2500 "a1s2d3f4g5h6"
                          (snd Examples.trip_hello) in
  messages Samples.screen
  = fst (getMessages Examples.trip None (snd Examples.trip_hello))
  /\ existsb (duplicates (Examples.hello Examples.trip) 2500)
             (scanned (Examples.hello Examples.trip) (snd Examples.trip_hello))
     = true
  /\ messages (chatReducer Samples.screen (ADD_MESSAGE (fst again)))
     = fst (getMessages Examples.trip None (snd again)).
Proof.
  cbv zeta. split; [reflexivity|]. split; [vm_compute; reflexivity|].
  apply (@added_message_keeps_screen_in_step _ _ (Examples.hello Examples.trip)
           2500 "a1s2d3f4g5h6" (snd Examples.trip_hello) Samples.screen).
  - reflexivity.
  - intros Hfresh. vm_compute in Hfresh. discriminate.
Defined.

Lemma deleted_message_keeps_screen_in_step_witness :
  messages Samples.screen
  = fst (getMessages Examples.trip None (snd Examples.trip_hello))
  /\ owner Samples.hello_id (LightVectorDB.messages (observed (snd Examples.trip_hello)))
     = Some (Examples.trip, [fst Examples.trip_hello])
  /\ messages (chatReducer Samples.screen (REMOVE_MESSAGE Samples.hello_id))
     = fst (getMessages Examples.trip None
              (deleteMessage Samples.hello_id 3000 (snd Examples.trip_hello))).
Proof.
  split; [reflexivity|].
  assert (E : owner Samples.hello_id
                    (LightVectorDB.messages (observed (snd Examples.trip_hello)))
              = Some (Examples.trip, [fst Examples.trip_hello]))
    by (vm_compute; reflexivity).
  split; [exact E|].
  apply (@deleted_message_keeps_screen_in_step _ _ Samples.hello_id 3000
           (snd Examples.trip_hello) Samples.screen Examples.trip
           [fst Examples.trip_hello]).
  - reflexivity.
  - exact screen_ids.
  - apply RoundTrip.trip_hello_well_formed.
  - exact E.
Defined.
End ReducerFacts.
